(** * DQ profiling engine: a shallow embedding of [app/dq_profiler.py]

    The profiler reads a tabular file through the Polars dataframe library,
    keeps at most [MAX_ROWS_PROFILE] rows from its start, and assembles a
    per-column quality profile.  The Python code is embedded function by
    function; the Polars operations it calls are modelled by their documented
    behaviour, and the choices Polars leaves open (the order in which
    [unique], [value_counts] and [sort] return equal-ranked elements) are
    gathered in a record [Run], so that nothing is proved from an order the
    code does not ask for. *)

From Stdlib Require Import List String Ascii Bool Arith ZArith QArith Qcanon.
From Stdlib Require Import Qround Permutation Sorted Lia Reals Qreals Lra.
From Stdlib Require Import DecimalString.
Import ListNotations.

Local Open Scope string_scope.
Local Open Scope list_scope.

(** ** Python strings *)

Module PyStr.

(** [str.lower] on one character of a path.  The letters [A]..[Z] change;
    Python also lowers letters outside ASCII, but none of those becomes a
    character of [.csv], [.parquet] or [.pq], the only strings a lowered
    path is compared with. *)
Definition lower_ascii (c : ascii) : ascii :=
  let n := nat_of_ascii c in
  if (65 <=? n)%nat && (n <=? 90)%nat then ascii_of_nat (n + 32) else c.

Fixpoint lower (s : string) : string :=
  match s with
  | EmptyString => EmptyString
  | String c r => String (lower_ascii c) (lower r)
  end.

(** [s.endswith(suf)]: the last [len(suf)] characters of [s] are [suf]. *)
Definition endswith (s suf : string) : bool :=
  let n := String.length s in
  let m := String.length suf in
  (m <=? n)%nat && String.eqb (substring (n - m) m s) suf.

(** [s.startswith(pre)] *)
Definition startswith (s pre : string) : bool := prefix pre s.

(** [s.endswith((a, b, ...))] with a tuple of suffixes. *)
Definition endswith_any (s : string) (sufs : list string) : bool :=
  existsb (endswith s) sufs.

(** [x in (a, b, ...)] for strings. *)
Definition str_in (x : string) (l : list string) : bool :=
  existsb (String.eqb x) l.

(** [os.path.basename]: what follows the last [/]. *)
Fixpoint basename_aux (s acc : string) : string :=
  match s with
  | EmptyString => acc
  | String c r =>
      if Ascii.eqb c "/"%char then basename_aux r EmptyString
      else basename_aux r (acc ++ String c EmptyString)%string
  end.

Definition basename (s : string) : string := basename_aux s EmptyString.

(** [repr(n)] for an int: its decimal digits, after a minus sign when it
    is negative. *)
Definition repr_int (n : Z) : string := NilZero.string_of_int (Z.to_int n).

End PyStr.

(** ** Exceptions and the effect of a profiling request *)

(** The Python exceptions a request can end with.  The spec's
    [UnsupportedFormat] is the [ValueError] of [_load_lazy], its
    [ReadFailure] is [ReadError], and its [ComputationFailure] covers the
    exceptions raised while a statistic is derived. *)
Inductive exn : Type :=
| ValueError (msg : string)
| TypeError (msg : string)
| KeyError (key : string)
| DuplicateError (col : string)
| ReadError (path : string).

(** What a request does to the outside world: it reads files. *)
Inductive event : Type :=
| Read (path : string).

Inductive outcome (A : Type) : Type :=
| Ok (a : A)
| Raise (e : exn).
Arguments Ok {A} a.
Arguments Raise {A} e.

(** A computation logs the reads it performs and ends with a value or an
    exception; after an exception nothing more is run. *)
Definition M (A : Type) : Type := (list event * outcome A)%type.

Definition ret {A} (a : A) : M A := ([], Ok a).
Definition raise {A} (e : exn) : M A := ([], Raise e).
Definition emit (ev : event) : M unit := ([ev], Ok tt).

Definition bind {A B} (m : M A) (k : A -> M B) : M B :=
  match m with
  | (log, Ok a) => let '(log', r) := k a in (log ++ log', r)
  | (log, Raise e) => (log, Raise e)
  end.

Notation "x <- m ;; k" := (bind m (fun x => k))
  (at level 61, m at next level, right associativity).
Notation "m ;;; k" := (bind m (fun _ => k))
  (at level 61, right associativity).

Definition lift {A} (o : outcome A) : M A := ([], o).

(** Pure part of the monad, for code that raises but does no I/O. *)
Definition obind {A B} (o : outcome A) (k : A -> outcome B) : outcome B :=
  match o with
  | Ok a => k a
  | Raise e => Raise e
  end.

Notation "x <~ o ;; k" := (obind o (fun x => k))
  (at level 61, o at next level, right associativity).

Fixpoint mapM {A B} (f : A -> outcome B) (l : list A) : outcome (list B) :=
  match l with
  | [] => Ok []
  | a :: r => b <~ f a ;; bs <~ mapM f r ;; Ok (b :: bs)
  end.

Definition trace {A} (m : M A) : list event := fst m.
Definition result {A} (m : M A) : outcome A := snd m.

(** ** Values held by a table *)

(** One non-null cell.  Integer columns hold [VInt], floating columns hold
    [VFloat] (a finite float, as the rational it denotes), text columns hold
    [VStr], date and timestamp columns hold [VTime] (an offset from the
    epoch), boolean columns hold [VBool].  A floating column can also hold
    NaN and the two infinities; these are not cells of the model, so what is
    proved of a floating column is proved of one whose values are finite. *)
Inductive value : Type :=
| VInt (z : Z)
| VFloat (q : Qc)
| VStr (s : string)
| VTime (t : Z)
| VBool (b : bool).

(** A cell is a value or null; [None] is also Python's [None]. *)
Definition cell : Type := option value.

Definition value_eq_dec (x y : value) : {x = y} + {x <> y}.
Proof.
  decide equality.
  - apply Z.eq_dec.
  - apply Qc_eq_dec.
  - apply string_dec.
  - apply Z.eq_dec.
  - apply bool_dec.
Defined.

Definition cell_eq_dec (x y : cell) : {x = y} + {x <> y}.
Proof. decide equality. apply value_eq_dec. Defined.

Definition cell_eqb (x y : cell) : bool :=
  if cell_eq_dec x y then true else false.

(** The distinct elements of a list, each at its first occurrence: the order
    in which a left-to-right scan meets them. *)
Fixpoint first_seen (l : list cell) : list cell :=
  match l with
  | [] => []
  | x :: r => x :: filter (fun y => negb (cell_eqb x y)) (first_seen r)
  end.

(** The groups of equal cells with their sizes, in first-seen order. *)
Definition group_counts (l : list cell) : list (cell * nat) :=
  map (fun v => (v, count_occ cell_eq_dec l v)) (first_seen l).

(** [n] as Polars' [head] reads it: the first [n] elements, and for a
    negative [n] all elements but the last [-n]. *)
Definition head_list {A} (n : Z) (l : list A) : list A :=
  if (n <? 0)%Z then firstn (List.length l - Z.to_nat (- n)) l
  else firstn (Z.to_nat n) l.

(** ** Python floats *)

(** A float is kept as a number: a rational, or the non-negative square
    root of one (the result of [Series.std()]).  Conversions from integers
    round as Python does ([round_int]); sums and quotients are kept exact,
    where Polars and Python round each to a double, so a mean or a deviation
    is the number the doubles approximate. *)
Inductive pyfloat : Type :=
| FRat (q : Qc)
| FSqrt (q : Qc).

(** The integer that [float(z)] denotes: [z] itself up to [2^53] in
    magnitude, and beyond that the nearest integer with a significand of
    53 bits, a tie going to the even significand.  (The integers of a
    64-bit column are far below the range where [float] overflows.) *)
Definition round_int (z : Z) : Z :=
  let a := Z.abs z in
  if (a <=? 2 ^ 53)%Z then z
  else
    let sh := (Z.log2 a - 52)%Z in
    let q := Z.shiftr a sh in
    let r := (a - Z.shiftl q sh)%Z in
    let half := Z.shiftl 1 (sh - 1) in
    let q' := if (half <? r)%Z || ((r =? half)%Z && Z.odd q)
              then (q + 1)%Z else q in
    (Z.sgn z * Z.shiftl q' sh)%Z.

Definition float_of_int (z : Z) : Qc := Q2Qc (inject_Z (round_int z)).

(** The real number a float stands for. *)
Definition Rof (x : pyfloat) : R :=
  match x with
  | FRat q => Q2R q
  | FSqrt q => sqrt (Q2R q)
  end.

(** ** What Polars leaves open *)

(** [Series.unique()] and [Series.value_counts()] are called without
    [maintain_order] or [sort], and [DataFrame.sort] without
    [maintain_order]: Polars then promises the set of results, not their
    order, and the order can change from one process to the next.  A [Run]
    fixes these orders for one request. *)
Record Run : Type := {
  unique_order : list cell -> list cell;
  unique_order_perm :
    forall l, Permutation (unique_order l) (first_seen l);
  group_order : list cell -> list (cell * nat);
  group_order_perm :
    forall l, Permutation (group_order l) (group_counts l);
  sort_desc : forall A : Type, (A -> Z) -> list A -> list A;
  sort_desc_perm :
    forall (A : Type) (key : A -> Z) l, Permutation (sort_desc A key l) l;
  sort_desc_sorted :
    forall (A : Type) (key : A -> Z) l,
      StronglySorted (fun a b => (key b <= key a)%Z) (sort_desc A key l)
}.
Arguments sort_desc r {A} key l.
Arguments sort_desc_perm r {A} key l.
Arguments sort_desc_sorted r {A} key l.

(** ** Polars *)

Module pl.

Record Series : Type := {
  name : string;
  dtype : string;          (* [str(series.dtype)] *)
  cells : list cell
}.

(** A frame: named, typed columns and the rows under them. *)
Record DataFrame : Type := {
  schema : list (string * string);
  rows : list (list cell)
}.

Definition columns (df : DataFrame) : list string := map fst (schema df).
Definition height (df : DataFrame) : nat := List.length (rows df).

Fixpoint index_of (col : string) (l : list (string * string)) : option (nat * string) :=
  match l with
  | [] => None
  | (c, d) :: r =>
      if String.eqb c col then Some (O, d)
      else match index_of col r with
           | Some (i, d') => Some (S i, d')
           | None => None
           end
  end.

(** [df[col]] *)
Definition getitem (df : DataFrame) (col : string) : outcome Series :=
  match index_of col (schema df) with
  | Some (i, d) =>
      Ok {| name := col; dtype := d;
            cells := map (fun r => nth i r None) (rows df) |}
  | None => Raise (KeyError col)
  end.

Definition len (s : Series) : nat := List.length (cells s).

Definition is_null (c : cell) : bool :=
  match c with None => true | Some _ => false end.

Definition null_count (s : Series) : nat :=
  List.length (filter is_null (cells s)).

(** [Series.n_unique()]: null counts as a value of its own. *)
Definition n_unique (s : Series) : nat := List.length (first_seen (cells s)).

Definition with_cells (s : Series) (l : list cell) : Series :=
  {| name := name s; dtype := dtype s; cells := l |}.

Definition drop_nulls (s : Series) : Series :=
  with_cells s (filter (fun c => negb (is_null c)) (cells s)).

Definition unique (run : Run) (s : Series) : Series :=
  with_cells s (unique_order run (cells s)).

Definition head (n : Z) (s : Series) : Series :=
  with_cells s (head_list n (cells s)).

Definition to_list (s : Series) : list cell := cells s.

Definition df_head (n : Z) (df : DataFrame) : DataFrame :=
  {| schema := schema df; rows := head_list n (rows df) |}.

(** [Series.value_counts()]: a frame with the values under the series'
    own name and their counts under ["count"], one row per group, null
    forming a group like any value. *)
Definition value_counts (run : Run) (s : Series) : outcome DataFrame :=
  if String.eqb (name s) "count" then Raise (DuplicateError "count")
  else
    Ok {| schema := [(name s, dtype s); ("count", "UInt32")];
          rows := map (fun g => [fst g; Some (VInt (Z.of_nat (snd g)))])
                      (group_order run (cells s)) |}.

(** The integer a cell of a count column holds. *)
Definition int_key (c : cell) : Z :=
  match c with
  | Some (VInt z) => z
  | _ => 0%Z
  end.

(** [df.sort(by, descending=True)], for a column of integers. *)
Definition sort_descending (run : Run) (by_ : string) (df : DataFrame)
  : outcome DataFrame :=
  match index_of by_ (schema df) with
  | Some (i, _) =>
      Ok {| schema := schema df;
            rows := sort_desc run (fun r => int_key (nth i r None)) (rows df) |}
  | None => Raise (KeyError by_)
  end.

(** [df.iter_rows(named=True)]: each row as a dict from column name to
    cell. *)
Definition iter_rows_named (df : DataFrame) : list (list (string * cell)) :=
  map (fun r => combine (columns df) r) (rows df).

(** *** Aggregates *)

Definition non_null (s : Series) : list value :=
  flat_map (fun c => match c with Some v => [v] | None => [] end) (cells s).

(** The order Polars compares values of one column in. *)
Definition value_ltb (x y : value) : bool :=
  match x, y with
  | VInt a, VInt b => (a <? b)%Z
  | VFloat a, VFloat b =>
      match (a ?= b)%Qc with Lt => true | _ => false end
  | VStr a, VStr b =>
      match String.compare a b with Lt => true | _ => false end
  | VTime a, VTime b => (a <? b)%Z
  | VBool a, VBool b => negb a && b
  | _, _ => false
  end.

Definition least (x y : value) : value := if value_ltb y x then y else x.
Definition greatest (x y : value) : value := if value_ltb x y then y else x.

(** [Series.min()] and [Series.max()]: over the non-null values, [None]
    when there is none. *)
Definition min (s : Series) : cell :=
  match non_null s with
  | [] => None
  | x :: r => Some (fold_left least r x)
  end.

Definition max (s : Series) : cell :=
  match non_null s with
  | [] => None
  | x :: r => Some (fold_left greatest r x)
  end.

(** The number a numeric value enters an aggregate as: Polars computes
    means, deviations and quantiles over doubles. *)
Definition num_of (v : value) : option Qc :=
  match v with
  | VInt z => Some (float_of_int z)
  | VFloat q => Some q
  | _ => None
  end.

Definition nums (s : Series) : list Qc :=
  flat_map (fun v => match num_of v with Some q => [q] | None => [] end)
           (non_null s).

Definition qsum (l : list Qc) : Qc := fold_right Qcplus (Q2Qc 0) l.
Definition qnat (n : nat) : Qc := Q2Qc (inject_Z (Z.of_nat n)).

Definition mean_of (l : list Qc) : Qc := (qsum l / qnat (List.length l))%Qc.

(** Sample variance, [ddof = 1]. *)
Definition var_of (l : list Qc) : Qc :=
  let m := mean_of l in
  (qsum (map (fun x => (x - m) * (x - m)) l) / qnat (List.length l - 1))%Qc.

Fixpoint insert_sorted (x : Qc) (l : list Qc) : list Qc :=
  match l with
  | [] => [x]
  | y :: r =>
      match (x ?= y)%Qc with
      | Gt => y :: insert_sorted x r
      | _ => x :: l
      end
  end.

Definition sorted_nums (l : list Qc) : list Qc :=
  fold_right insert_sorted [] l.

(** Rank picked by ["nearest"] among [n] sorted values: the position
    [(n - 1) * q], rounded to the closest integer. *)
Definition nearest_rank (q : Q) (n : nat) : nat :=
  Z.to_nat (Qfloor (inject_Z (Z.of_nat (n - 1)) * q + (1 # 2))).

(** [Series.mean()] *)
Definition mean (s : Series) : option pyfloat :=
  match nums s with
  | [] => None
  | l => Some (FRat (mean_of l))
  end.

(** [Series.std()], with Polars' default [ddof = 1]: null unless at least
    two values are non-null (older releases give NaN there instead). *)
Definition std (s : Series) : option pyfloat :=
  let l := nums s in
  if (List.length l <=? 1)%nat then None else Some (FSqrt (var_of l)).

(** [Series.quantile(q, interpolation="nearest")] *)
Definition quantile (q : Q) (s : Series) : option pyfloat :=
  match sorted_nums (nums s) with
  | [] => None
  | x :: r => Some (FRat (nth (nearest_rank q (S (List.length r))) (x :: r) x))
  end.

End pl.

(** ** Lazy frames and the file system *)

(** A read plan.  Nothing is read until the plan is collected; what a scan
    itself looks at (the schema) is counted with the collect. *)
Inductive LazyFrame : Type :=
| scan_parquet (path : string)
| scan_csv (path : string) (infer_schema_length : Z)
| lf_head (lf : LazyFrame) (n : nat)
| lf_select_len (lf : LazyFrame).

(** The table each readable file parses to; [None] for a file whose read
    fails (missing, or malformed).  A file is described as both collects of
    a request read it; one whose rows can be counted but which fails when
    it is loaded in full is not described. *)
Definition FileSystem : Type := string -> option pl.DataFrame.

(** The error of a slice of negative length. *)
Definition negative_slice (n : Z) : exn :=
  ValueError ("negative slice lengths (" ++ PyStr.repr_int n
              ++ ") are invalid for LazyFrame").

(** [lf.head(n)] is [lf.slice(0, n)]: a negative length is refused when the
    plan is built. *)
Definition lazy_head (lf : LazyFrame) (n : Z) : outcome LazyFrame :=
  if (n <? 0)%Z then Raise (negative_slice n)
  else Ok (lf_head lf (Z.to_nat n)).

Definition read_file (fs : FileSystem) (path : string) : M pl.DataFrame :=
  emit (Read path) ;;;
  match fs path with
  | Some df => ret df
  | None => raise (ReadError path)
  end.

(** [lf.collect()] *)
Fixpoint collect (fs : FileSystem) (lf : LazyFrame) : M pl.DataFrame :=
  match lf with
  | scan_parquet path => read_file fs path
  | scan_csv path _ => read_file fs path
  | lf_head lf' n =>
      df <- collect fs lf' ;;
      ret {| pl.schema := pl.schema df; pl.rows := firstn n (pl.rows df) |}
  | lf_select_len lf' =>
      df <- collect fs lf' ;;
      ret {| pl.schema := [("len", "UInt32")];
             pl.rows := [[Some (VInt (Z.of_nat (pl.height df)))]] |}
  end.

(** [df.item()]: the only cell of a one-by-one frame. *)
Definition item (df : pl.DataFrame) : outcome cell :=
  match pl.rows df with
  | [[c]] => Ok c
  | _ => Raise (ValueError "can only call .item() if the dataframe is of shape (1, 1)")
  end.

(** ** Python conversions *)

(** [int(x)] *)
Definition py_int (c : cell) : outcome Z :=
  match c with
  | Some (VInt z) => Ok z
  | Some (VBool b) => Ok (if b then 1 else 0)%Z
  | Some (VFloat q) => Ok (let '(Qmake n d) := Qred q in Z.quot n (Zpos d))
  | _ => Raise (TypeError "int() argument must be a string, a bytes-like object or a real number")
  end.

Definition float_type_error : exn :=
  TypeError "float() argument must be a string or a real number, not 'NoneType'".

(** [float(x)] on what [Series.min()] and [Series.max()] return: a number
    of the column, or [None].  (A numeric column holds no text and no
    instant; the last case is there for totality.) *)
Definition float_of_obj (c : cell) : outcome pyfloat :=
  match c with
  | Some (VInt z) => Ok (FRat (float_of_int z))
  | Some (VFloat q) => Ok (FRat q)
  | Some (VBool b) => Ok (FRat (Q2Qc (if b then 1 else 0)))
  | None => Raise float_type_error
  | Some _ => Raise (TypeError "float() argument must be a string or a real number")
  end.

(** [float(x)] on what [Series.mean()], [std()] and [quantile()] return. *)
Definition float_of_num (x : option pyfloat) : outcome pyfloat :=
  match x with
  | Some f => Ok f
  | None => Raise float_type_error
  end.

(** [d[k]] on a dict kept as an association list. *)
Fixpoint dict_get {V} (d : list (string * V)) (k : string) : outcome V :=
  match d with
  | [] => Raise (KeyError k)
  | (k', v) :: r => if String.eqb k' k then Ok v else dict_get r k
  end.

(** [d[k] = v]: replaces the value of a key already there, in place;
    otherwise the key goes to the end. *)
Fixpoint dict_set {V} (d : list (string * V)) (k : string) (v : V)
  : list (string * V) :=
  match d with
  | [] => [(k, v)]
  | (k', v') :: r =>
      if String.eqb k' k then (k, v) :: r else (k', v') :: dict_set r k v
  end.

(** ** app/config.py *)

(** The two limits the profiler imports; each is [int(os.getenv(...))].  *)
Record Config : Type := {
  MAX_ROWS_PROFILE : Z;
  MAX_TOP_K : Z
}.

Definition default_config : Config :=
  {| MAX_ROWS_PROFILE := 100000; MAX_TOP_K := 5 |}.

(** ** app/dq_profiler.py *)

Definition NUMERIC_DTYPES : list string :=
  ["Int8"; "Int16"; "Int32"; "Int64";
   "UInt8"; "UInt16"; "UInt32"; "UInt64";
   "Float32"; "Float64"].

Definition _is_numeric_dtype (dtype : string) : bool :=
  PyStr.str_in dtype NUMERIC_DTYPES.

Definition _is_datetime_dtype (dtype : string) : bool :=
  String.eqb dtype "Date" || PyStr.startswith dtype "Datetime".

Definition _is_categorical_dtype (dtype : string) : bool :=
  PyStr.str_in dtype ["Utf8"; "Categorical"].

Definition unsupported (path : string) : exn :=
  ValueError ("Unsupported file type for " ++ path).

Definition _load_lazy (path : string) : outcome LazyFrame :=
  let lower := PyStr.lower path in
  if PyStr.endswith_any lower [".parquet"; ".pq"] then Ok (scan_parquet path)
  else if PyStr.endswith lower ".csv" then Ok (scan_csv path 10000)
  else Raise (unsupported path).

(** The [numeric_stats] dict; [None] is a null field. *)
Record NumericStats : Type := {
  ns_min : option pyfloat;
  ns_max : option pyfloat;
  ns_mean : option pyfloat;
  ns_std : option pyfloat;
  ns_p25 : option pyfloat;
  ns_p50 : option pyfloat;
  ns_p75 : option pyfloat
}.

Definition _profile_numeric (series : pl.Series) : outcome NumericStats :=
  if (pl.len series =? 0)%nat then
    Ok {| ns_min := None; ns_max := None; ns_mean := None; ns_std := None;
          ns_p25 := None; ns_p50 := None; ns_p75 := None |}
  else
    mn <~ float_of_obj (pl.min series) ;;
    mx <~ float_of_obj (pl.max series) ;;
    mean <~ float_of_num (pl.mean series) ;;
    sd <~ (if (1 <? pl.len series)%nat then float_of_num (pl.std series)
           else Ok (FRat (Q2Qc 0))) ;;
    p25 <~ float_of_num (pl.quantile (1 # 4) series) ;;
    p50 <~ float_of_num (pl.quantile (1 # 2) series) ;;
    p75 <~ float_of_num (pl.quantile (3 # 4) series) ;;
    Ok {| ns_min := Some mn; ns_max := Some mx; ns_mean := Some mean;
          ns_std := Some sd; ns_p25 := Some p25; ns_p50 := Some p50;
          ns_p75 := Some p75 |}.

(** One [{"value": ..., "count": ...}] pair. *)
Record TopEntry : Type := {
  te_value : cell;
  te_count : Z
}.

Record CategoricalStats : Type := {
  top_k : list TopEntry
}.

Definition top_entry_of_row (row : list (string * cell)) : outcome TopEntry :=
  v <~ dict_get row "values" ;;
  c <~ dict_get row "count" ;;
  n <~ py_int c ;;
  Ok {| te_value := v; te_count := n |}.

Definition _profile_categorical (run : Run) (series : pl.Series) (top_k : Z)
  : outcome CategoricalStats :=
  if (pl.len series =? 0)%nat then Ok {| top_k := [] |}
  else
    counted <~ pl.value_counts run series ;;
    sorted <~ pl.sort_descending run "count" counted ;;
    let vc := pl.df_head top_k sorted in
    top_values <~ mapM top_entry_of_row (pl.iter_rows_named vc) ;;
    Ok {| top_k := top_values |}.

Definition _sample_values (run : Run) (series : pl.Series) (max_samples : Z)
  : list cell :=
  pl.to_list (pl.head max_samples (pl.unique run (pl.drop_nulls series))).

(** The [datetime_stats] dict.  A field holds the instant whose [str()] the
    code stores, or null. *)
Record DatetimeStats : Type := {
  dt_min : cell;
  dt_max : cell
}.

(** One entry of ["columns"].  A typed block that is [None] is a key the
    dict does not have. *)
Record ColumnProfile : Type := {
  position : nat;
  dtype : string;
  non_null_count : Z;
  null_count : Z;
  completeness : pyfloat;
  distinct_count : Z;
  uniqueness : pyfloat;
  sample_values : list cell;
  numeric_stats : option NumericStats;
  datetime_stats : option DatetimeStats;
  categorical_stats : option CategoricalStats
}.

Record DatasetProfile : Type := {
  dataset_name : string;
  path : string;
  row_count : Z;
  column_count : nat;
  columns : list (string * ColumnProfile)
}.

(** [float(a / b)] for two ints, [b] not zero. *)
Definition true_div (a b : Z) : pyfloat :=
  FRat (Q2Qc (inject_Z a) / Q2Qc (inject_Z b))%Qc.

(** The body of the loop over [enumerate(df.columns)]. *)
Definition profile_column (cfg : Config) (run : Run) (row_count : Z)
  (idx : nat) (s : pl.Series) : outcome ColumnProfile :=
  let dtype := pl.dtype s in
  let non_null_count := (row_count - Z.of_nat (pl.null_count s))%Z in
  let null_count := Z.of_nat (pl.null_count s) in
  let completeness :=
    if (0 <? row_count)%Z then true_div non_null_count row_count
    else FRat (Q2Qc 0) in
  let distinct_count := Z.of_nat (pl.n_unique s) in
  let uniqueness :=
    if (0 <? non_null_count)%Z then true_div distinct_count non_null_count
    else FRat (Q2Qc 0) in
  let col_profile :=
    {| position := idx; dtype := dtype;
       non_null_count := non_null_count; null_count := null_count;
       completeness := completeness; distinct_count := distinct_count;
       uniqueness := uniqueness; sample_values := _sample_values run s 5;
       numeric_stats := None; datetime_stats := None;
       categorical_stats := None |} in
  let set_blocks n d c :=
    {| position := position col_profile; dtype := dtype;
       non_null_count := non_null_count; null_count := null_count;
       completeness := completeness; distinct_count := distinct_count;
       uniqueness := uniqueness; sample_values := sample_values col_profile;
       numeric_stats := n; datetime_stats := d; categorical_stats := c |} in
  if _is_numeric_dtype dtype then
    ns <~ _profile_numeric s ;;
    Ok (set_blocks (Some ns) None None)
  else if _is_datetime_dtype dtype then
    if (0 <? non_null_count)%Z then
      Ok (set_blocks None
            (Some {| dt_min := pl.min s; dt_max := pl.max s |}) None)
    else
      Ok (set_blocks None (Some {| dt_min := None; dt_max := None |}) None)
  else if _is_categorical_dtype dtype then
    cs <~ _profile_categorical run s (MAX_TOP_K cfg) ;;
    Ok (set_blocks None None (Some cs))
  else Ok col_profile.

Fixpoint profile_columns (cfg : Config) (run : Run) (df : pl.DataFrame)
  (row_count : Z) (todo : list (nat * string))
  (acc : list (string * ColumnProfile))
  : outcome (list (string * ColumnProfile)) :=
  match todo with
  | [] => Ok acc
  | (idx, col) :: rest =>
      s <~ pl.getitem df col ;;
      col_profile <~ profile_column cfg run row_count idx s ;;
      profile_columns cfg run df row_count rest (dict_set acc col col_profile)
  end.

Definition enumerate {A} (l : list A) : list (nat * A) :=
  combine (seq 0 (List.length l)) l.

Definition profile_dataset (cfg : Config) (run : Run) (fs : FileSystem)
  (path : string) : M DatasetProfile :=
  lf <- lift (_load_lazy path) ;;
  lf_limited <- lift (lazy_head lf (MAX_ROWS_PROFILE cfg)) ;;
  counted <- collect fs (lf_select_len lf_limited) ;;
  row_count <- lift (c <~ item counted ;; py_int c) ;;
  df <- collect fs lf_limited ;;
  cols <- lift (profile_columns cfg run df row_count
                  (enumerate (pl.columns df)) []) ;;
  ret {| dataset_name := PyStr.basename path;
         path := path;
         row_count := row_count;
         column_count := List.length (pl.columns df);
         columns := cols |}.

(** ** Two runs *)

Section InsertionSort.

Variable A : Type.
Variable key : A -> Z.

Fixpoint insert_desc (x : A) (l : list A) : list A :=
  match l with
  | [] => [x]
  | y :: r =>
      if (key y <=? key x)%Z then x :: l else y :: insert_desc x r
  end.

Definition isort_desc (l : list A) : list A :=
  fold_right insert_desc [] l.

Lemma insert_desc_perm x l : Permutation (insert_desc x l) (x :: l).
Proof.
  induction l as [|y r IH]; simpl.
  - apply Permutation_refl.
  - destruct (key y <=? key x)%Z.
    + apply Permutation_refl.
    + eapply perm_trans; [apply perm_skip, IH | apply perm_swap].
Qed.

Lemma isort_desc_perm l : Permutation (isort_desc l) l.
Proof.
  induction l as [|x r IH]; simpl.
  - constructor.
  - eapply perm_trans; [apply insert_desc_perm | apply perm_skip, IH].
Qed.

Let ge_key (a b : A) : Prop := (key b <= key a)%Z.

Lemma insert_desc_sorted x l :
  StronglySorted ge_key l -> StronglySorted ge_key (insert_desc x l).
Proof.
  induction 1 as [|y r Hs IH Hall]; simpl.
  - repeat constructor.
  - destruct (key y <=? key x)%Z eqn:E.
    + apply Z.leb_le in E. constructor.
      * constructor; assumption.
      * constructor; [exact E|].
        eapply Forall_impl; [|exact Hall].
        unfold ge_key; intros; lia.
    + apply Z.leb_gt in E. constructor; [exact IH|].
      eapply Permutation_Forall.
      * apply Permutation_sym, insert_desc_perm.
      * constructor; [unfold ge_key; lia | exact Hall].
Qed.

Lemma isort_desc_sorted l : StronglySorted ge_key (isort_desc l).
Proof.
  induction l as [|x r IH]; simpl.
  - constructor.
  - apply insert_desc_sorted, IH.
Qed.

End InsertionSort.
Arguments insert_desc {A} key x l.
Arguments isort_desc {A} key l.

(** Every order is kept as the input gives it: first-seen order, and ties
    of a sort in their order of arrival. *)
Definition run_first_seen : Run.
Proof.
  refine {| unique_order := first_seen;
            group_order := group_counts;
            sort_desc := @isort_desc |}.
  - intro; apply Permutation_refl.
  - intro; apply Permutation_refl.
  - intros; apply isort_desc_perm.
  - intros; apply isort_desc_sorted.
Defined.

(** The cells are integers or null. *)
Definition all_ints (l : list cell) : bool :=
  forallb (fun c => match c with
                    | Some (VInt _) | None => true
                    | _ => false
                    end) l.

(** The distinct values in ascending order of [pl.int_key]. *)
Definition ascending (l : list cell) : list cell :=
  isort_desc (fun c => (- pl.int_key c)%Z) (first_seen l).

(** The orders of another process.  The distinct values of an integer
    column come back ascending, as Polars returns them in every process;
    those of any other column come back in an order that depends on the
    process, here last-seen first, and so do the groups of [value_counts]
    and the ties of a sort. *)
Definition run_second : Run.
Proof.
  refine {| unique_order :=
              fun l => if all_ints l then ascending l else rev (first_seen l);
            group_order := fun l => rev (group_counts l);
            sort_desc := fun A key l => isort_desc key (rev l) |}.
  - intro l. destruct (all_ints l).
    + apply isort_desc_perm.
    + apply Permutation_sym, Permutation_rev.
  - intro; apply Permutation_sym, Permutation_rev.
  - intros. eapply perm_trans; [apply isort_desc_perm|].
    apply Permutation_sym, Permutation_rev.
  - intros; apply isort_desc_sorted.
Defined.

(** * Properties *)

(** ** Strings *)

Section StringFacts.

Lemma length_app (a b : string) :
  String.length (a ++ b) = (String.length a + String.length b)%nat.
Proof. induction a as [|c a IH]; simpl; [reflexivity | now rewrite IH]. Qed.

Lemma substring_all (s : string) : substring 0 (String.length s) s = s.
Proof. induction s as [|c s IH]; simpl; [reflexivity | now rewrite IH]. Qed.

Lemma substring_skip (a b : string) :
  substring (String.length a) (String.length b) (a ++ b) = b.
Proof. induction a as [|c a IH]; simpl; [apply substring_all | exact IH]. Qed.

Lemma substring_split (s : string) (k : nat) :
  (k <= String.length s)%nat ->
  s = (substring 0 k s ++ substring k (String.length s - k) s)%string.
Proof.
  revert k; induction s as [|c s IH]; intros k Hk; simpl in *.
  - destruct k; reflexivity.
  - destruct k as [|k]; simpl.
    + now rewrite substring_all.
    + f_equal. apply IH. lia.
Qed.

(** [endswith] holds exactly of the strings that are something followed
    by the suffix. *)
Lemma endswith_spec (s suf : string) :
  PyStr.endswith s suf = true <-> exists pre, s = (pre ++ suf)%string.
Proof.
  unfold PyStr.endswith; split.
  - intro H. apply andb_true_iff in H as [Hle Heq].
    apply Nat.leb_le in Hle. apply String.eqb_eq in Heq.
    exists (substring 0 (String.length s - String.length suf)%nat s).
    pose proof (substring_split s (String.length s - String.length suf)%nat) as E.
    replace (String.length s - (String.length s - String.length suf))%nat
      with (String.length suf) in E by lia.
    rewrite Heq in E. apply E. lia.
  - intros [pre ->]. rewrite length_app.
    replace (String.length pre + String.length suf - String.length suf)%nat
      with (String.length pre) by lia.
    rewrite substring_skip, String.eqb_refl, andb_true_r.
    apply Nat.leb_le. lia.
Qed.

Lemma lower_app (a b : string) :
  PyStr.lower (a ++ b) = (PyStr.lower a ++ PyStr.lower b)%string.
Proof. induction a as [|c a IH]; simpl; [reflexivity | now rewrite IH]. Qed.

Lemma lower_split (s a b : string) :
  PyStr.lower s = (a ++ b)%string ->
  exists s1 s2, s = (s1 ++ s2)%string /\ PyStr.lower s1 = a /\ PyStr.lower s2 = b.
Proof.
  revert s; induction a as [|c a IH]; intros s H; simpl in *.
  - exists EmptyString, s. repeat split; assumption.
  - destruct s as [|d s]; simpl in H; [discriminate|].
    injection H as Hc Hs. destruct (IH _ Hs) as (s1 & s2 & -> & <- & <-).
    exists (String d s1), s2. simpl. rewrite Hc. repeat split.
Qed.

End StringFacts.

(** A path has extension [ext] when it ends with [ext] written in any mix
    of upper and lower case. *)
Definition has_extension (path ext : string) : Prop :=
  exists stem e, path = (stem ++ e)%string /\ PyStr.lower e = ext.

Lemma endswith_lower_extension (path ext : string) :
  PyStr.endswith (PyStr.lower path) ext = true <-> has_extension path ext.
Proof.
  rewrite endswith_spec. split.
  - intros [pre H]. destruct (lower_split _ _ _ H) as (s1 & s2 & -> & _ & Hl).
    exists s1, s2. split; [reflexivity | exact Hl].
  - intros (stem & e & -> & <-). exists (PyStr.lower stem). apply lower_app.
Qed.

(** The formats the loader knows. *)
Definition supported (path : string) : Prop :=
  has_extension path ".csv" \/ has_extension path ".parquet"
  \/ has_extension path ".pq".

Lemma load_lazy_ok (path : string) :
  supported path ->
  _load_lazy path = Ok (scan_parquet path)
  \/ _load_lazy path = Ok (scan_csv path 10000).
Proof.
  intro H. unfold _load_lazy, PyStr.endswith_any; simpl.
  destruct (PyStr.endswith (PyStr.lower path) ".parquet") eqn:E1; [now left|].
  destruct (PyStr.endswith (PyStr.lower path) ".pq") eqn:E2; [now left|].
  simpl. destruct (PyStr.endswith (PyStr.lower path) ".csv") eqn:E3; [now right|].
  exfalso. destruct H as [H | [H | H]];
    apply endswith_lower_extension in H; congruence.
Qed.

Lemma load_lazy_unsupported (path : string) :
  ~ supported path -> _load_lazy path = Raise (unsupported path).
Proof.
  intro H. unfold _load_lazy, PyStr.endswith_any; simpl.
  destruct (PyStr.endswith (PyStr.lower path) ".parquet") eqn:E1.
  { exfalso; apply H; right; left; now apply endswith_lower_extension. }
  destruct (PyStr.endswith (PyStr.lower path) ".pq") eqn:E2.
  { exfalso; apply H; right; right; now apply endswith_lower_extension. }
  simpl. destruct (PyStr.endswith (PyStr.lower path) ".csv") eqn:E3.
  { exfalso; apply H; left; now apply endswith_lower_extension. }
  reflexivity.
Qed.

(** ** Which exceptions the statistics raise *)

(** The exceptions that come out of deriving a statistic. *)
Definition stat_exn (e : exn) : Prop :=
  match e with
  | TypeError _ | KeyError _ | DuplicateError _ => True
  | ValueError _ | ReadError _ => False
  end.

Lemma float_of_obj_exn c e : float_of_obj c = Raise e -> stat_exn e.
Proof.
  destruct c as [[]|]; simpl; intro H; try discriminate H;
    injection H as <-; exact I.
Qed.

Lemma float_of_num_exn x e : float_of_num x = Raise e -> stat_exn e.
Proof. destruct x; simpl; intro H; [discriminate H | injection H as <-; exact I]. Qed.

Lemma py_int_exn c e : py_int c = Raise e -> stat_exn e.
Proof.
  destruct c as [[]|]; simpl; intro H; try discriminate H;
    injection H as <-; exact I.
Qed.

Lemma dict_get_exn {V} (d : list (string * V)) k e :
  dict_get d k = Raise e -> stat_exn e.
Proof.
  induction d as [|[k' v] r IH]; simpl; intro H.
  - injection H as <-; exact I.
  - destruct (String.eqb k' k); [discriminate H | exact (IH H)].
Qed.

Lemma mapM_exn {A B} (f : A -> outcome B) (P : exn -> Prop) l e :
  (forall a e', f a = Raise e' -> P e') -> mapM f l = Raise e -> P e.
Proof.
  intro Hf. induction l as [|a r IH]; simpl; intro H; [discriminate H|].
  destruct (f a) eqn:Ea; simpl in H.
  - destruct (mapM f r); simpl in H; [discriminate H|].
    injection H as <-. now apply IH.
  - injection H as <-. eapply Hf, Ea.
Qed.

Lemma profile_numeric_exn s e : _profile_numeric s = Raise e -> stat_exn e.
Proof.
  unfold _profile_numeric. intro H.
  destruct (pl.len s =? 0)%nat; [discriminate H|].
  repeat match type of H with
  | obind ?o _ = Raise _ =>
      let E := fresh "E" in
      destruct o eqn:E; simpl in H;
      [| injection H as <-;
         first [ eapply float_of_obj_exn, E | eapply float_of_num_exn, E
               | destruct (1 <? pl.len s)%nat;
                 [eapply float_of_num_exn, E | discriminate E] ] ]
  end.
  discriminate H.
Qed.

Lemma top_entry_of_row_exn row e : top_entry_of_row row = Raise e -> stat_exn e.
Proof.
  unfold top_entry_of_row. intro H.
  destruct (dict_get row "values") eqn:E1; simpl in H;
    [| injection H as <-; eapply dict_get_exn, E1].
  destruct (dict_get row "count") eqn:E2; simpl in H;
    [| injection H as <-; eapply dict_get_exn, E2].
  destruct (py_int a0) eqn:E3; simpl in H;
    [discriminate H | injection H as <-; eapply py_int_exn, E3].
Qed.

Lemma profile_categorical_exn run s k e :
  _profile_categorical run s k = Raise e -> stat_exn e.
Proof.
  unfold _profile_categorical. intro H.
  destruct (pl.len s =? 0)%nat; [discriminate H|].
  destruct (pl.value_counts run s) eqn:E1; simpl in H.
  - destruct (pl.sort_descending run "count" a) eqn:E2; simpl in H.
    + destruct (mapM top_entry_of_row _) eqn:E3; simpl in H; [discriminate H|].
      injection H as <-. eapply mapM_exn; [|exact E3].
      apply top_entry_of_row_exn.
    + injection H as <-. unfold pl.sort_descending in E2.
      destruct (pl.index_of "count" (pl.schema a)) as [[i d]|];
        [discriminate E2 | injection E2 as <-; exact I].
  - injection H as <-. unfold pl.value_counts in E1.
    destruct (String.eqb (pl.name s) "count");
      [injection E1 as <-; exact I | discriminate E1].
Qed.

Lemma profile_column_exn cfg run rc idx s e :
  profile_column cfg run rc idx s = Raise e -> stat_exn e.
Proof.
  unfold profile_column. intro H.
  destruct (_is_numeric_dtype (pl.dtype s)).
  { destruct (_profile_numeric s) eqn:E; simpl in H; [discriminate H|].
    injection H as <-. eapply profile_numeric_exn, E. }
  destruct (_is_datetime_dtype (pl.dtype s)).
  { destruct (0 <? rc - Z.of_nat (pl.null_count s))%Z; discriminate H. }
  destruct (_is_categorical_dtype (pl.dtype s)); [|discriminate H].
  destruct (_profile_categorical run s (MAX_TOP_K cfg)) eqn:E; simpl in H;
    [discriminate H|].
  injection H as <-. eapply profile_categorical_exn, E.
Qed.

Lemma profile_columns_exn cfg run df rc todo acc e :
  profile_columns cfg run df rc todo acc = Raise e -> stat_exn e.
Proof.
  revert acc; induction todo as [|[idx col] rest IH]; intros acc H; simpl in H.
  - discriminate H.
  - destruct (pl.getitem df col) eqn:E1; simpl in H.
    + destruct (profile_column cfg run rc idx a) eqn:E2; simpl in H.
      * eapply IH, H.
      * injection H as <-. eapply profile_column_exn, E2.
    + injection H as <-. unfold pl.getitem in E1.
      destruct (pl.index_of col (pl.schema df)) as [[i d]|];
        [discriminate E1 | injection E1 as <-; exact I].
Qed.

(** ** The shape of a request *)

(** The rows a request materializes: the first [cap] of the file. *)
Definition limited (cap : Z) (df : pl.DataFrame) : pl.DataFrame :=
  {| pl.schema := pl.schema df;
     pl.rows := firstn (Z.to_nat cap) (pl.rows df) |}.

(** What is computed from the materialized table. *)
Definition assemble (cfg : Config) (run : Run) (path : string)
  (df : pl.DataFrame) : outcome DatasetProfile :=
  cols <~ profile_columns cfg run df (Z.of_nat (pl.height df))
            (enumerate (pl.columns df)) [] ;;
  Ok {| dataset_name := PyStr.basename path;
        path := path;
        row_count := Z.of_nat (pl.height df);
        column_count := List.length (pl.columns df);
        columns := cols |}.

Lemma negative_cap_message n p : negative_slice n <> unsupported p.
Proof. intro H. discriminate H. Qed.

Lemma profile_dataset_unsupported cfg run fs path :
  ~ supported path ->
  profile_dataset cfg run fs path = ([], Raise (unsupported path)).
Proof.
  intro H. unfold profile_dataset. rewrite (load_lazy_unsupported path H).
  reflexivity.
Qed.

Lemma profile_dataset_negative_cap cfg run fs path :
  supported path -> (MAX_ROWS_PROFILE cfg < 0)%Z ->
  profile_dataset cfg run fs path
  = ([], Raise (negative_slice (MAX_ROWS_PROFILE cfg))).
Proof.
  intros H Hc. unfold profile_dataset, lazy_head.
  apply Z.ltb_lt in Hc.
  destruct (load_lazy_ok path H) as [-> | ->]; simpl; rewrite Hc; reflexivity.
Qed.

Lemma profile_dataset_missing cfg run fs path :
  supported path -> (0 <= MAX_ROWS_PROFILE cfg)%Z -> fs path = None ->
  profile_dataset cfg run fs path = ([Read path], Raise (ReadError path)).
Proof.
  intros H Hc Hf. unfold profile_dataset, lazy_head.
  apply Z.ltb_ge in Hc.
  destruct (load_lazy_ok path H) as [-> | ->]; simpl; rewrite Hc; simpl;
    unfold read_file; rewrite Hf; reflexivity.
Qed.

Lemma profile_dataset_read cfg run fs path df :
  supported path -> (0 <= MAX_ROWS_PROFILE cfg)%Z -> fs path = Some df ->
  profile_dataset cfg run fs path
  = ([Read path; Read path],
     assemble cfg run path (limited (MAX_ROWS_PROFILE cfg) df)).
Proof.
  intros H Hc Hf. unfold profile_dataset, lazy_head, assemble, limited.
  apply Z.ltb_ge in Hc.
  destruct (load_lazy_ok path H) as [-> | ->]; simpl; rewrite Hc; simpl;
    unfold read_file; rewrite Hf; simpl; unfold pl.height; simpl;
    match goal with
    | |- context [profile_columns ?a ?b ?c ?d ?e ?f] =>
        destruct (profile_columns a b c d e f)
    end; reflexivity.
Qed.

Lemma assemble_exn cfg run path df e :
  assemble cfg run path df = Raise e -> stat_exn e.
Proof.
  unfold assemble. intro H.
  destruct (profile_columns _ _ _ _ _ _) eqn:E; simpl in H; [discriminate H|].
  injection H as <-. eapply profile_columns_exn, E.
Qed.

(** ** The loader *)

(** C7. A path whose extension is neither [.csv] nor [.parquet] nor [.pq]
    (in any letter case) makes the request fail with the unsupported-format
    error; no file has been read by then, and no profile comes out. *)
Theorem unsupported_format_fails_before_read cfg run fs path :
  ~ supported path ->
  trace (profile_dataset cfg run fs path) = []
  /\ result (profile_dataset cfg run fs path) = Raise (unsupported path)
  /\ forall p, result (profile_dataset cfg run fs path) <> Ok p.
Proof.
  intro H. rewrite (profile_dataset_unsupported cfg run fs path H).
  repeat split. intros p Hp. discriminate Hp.
Qed.

Lemma xlsx_not_supported : ~ supported "report.xlsx".
Proof.
  intros [H | [H | H]]; apply endswith_lower_extension in H; discriminate H.
Qed.

Lemma unsupported_format_fails_before_read_witness :
  trace (profile_dataset default_config run_first_seen (fun _ => None)
           "report.xlsx") = []
  /\ result (profile_dataset default_config run_first_seen (fun _ => None)
               "report.xlsx") = Raise (unsupported "report.xlsx")
  /\ forall p, result (profile_dataset default_config run_first_seen
                         (fun _ => None) "report.xlsx") <> Ok p.
Proof.
  exact (unsupported_format_fails_before_read default_config run_first_seen
           (fun _ => None) "report.xlsx" xlsx_not_supported).
Defined.

(** C10. The extension is matched without regard to letter case: a path
    ending in any case variant of [.csv], [.parquet] or [.pq] is accepted by
    the loader, the request does not end with the unsupported-format error,
    and (the row cap not being negative) it goes on to read the file. *)
Theorem extension_match_ignores_case (stem ext : string) :
  In (PyStr.lower ext) [".csv"; ".parquet"; ".pq"] ->
  (exists lf, _load_lazy (stem ++ ext) = Ok lf)
  /\ forall cfg run fs,
       result (profile_dataset cfg run fs (stem ++ ext))
         <> Raise (unsupported (stem ++ ext))
       /\ ((0 <= MAX_ROWS_PROFILE cfg)%Z ->
           exists rest,
             trace (profile_dataset cfg run fs (stem ++ ext))
             = Read (stem ++ ext)%string :: rest).
Proof.
  intro Hext.
  assert (Hs : supported (stem ++ ext)).
  { simpl in Hext. destruct Hext as [H | [H | [H | []]]].
    - left. now exists stem, ext.
    - right; left. now exists stem, ext.
    - right; right. now exists stem, ext. }
  split.
  { destruct (load_lazy_ok _ Hs) as [-> | ->]; eauto. }
  intros cfg run fs.
  destruct (Z.lt_ge_cases (MAX_ROWS_PROFILE cfg) 0) as [Hneg | Hpos].
  { rewrite (profile_dataset_negative_cap cfg run fs _ Hs Hneg). split.
    - simpl. intro H. discriminate H.
    - intro. lia. }
  destruct (fs (stem ++ ext)%string) as [df|] eqn:Hf.
  - rewrite (profile_dataset_read cfg run fs _ df Hs Hpos Hf). split.
    + simpl. intro H. apply assemble_exn in H. exact H.
    + intros _. eexists. reflexivity.
  - rewrite (profile_dataset_missing cfg run fs _ Hs Hpos Hf). split.
    + simpl. intro H. discriminate H.
    + intros _. eexists. reflexivity.
Qed.

Lemma extension_match_ignores_case_witness :
  (exists lf, _load_lazy ("data/raw/Sales" ++ ".CSV") = Ok lf)
  /\ forall cfg run fs,
       result (profile_dataset cfg run fs ("data/raw/Sales" ++ ".CSV"))
         <> Raise (unsupported ("data/raw/Sales" ++ ".CSV"))
       /\ ((0 <= MAX_ROWS_PROFILE cfg)%Z ->
           exists rest,
             trace (profile_dataset cfg run fs ("data/raw/Sales" ++ ".CSV"))
             = Read ("data/raw/Sales" ++ ".CSV")%string :: rest).
Proof.
  apply (extension_match_ignores_case "data/raw/Sales" ".CSV").
  simpl. left. reflexivity.
Defined.

Lemma supported_dec (path : string) : supported path \/ ~ supported path.
Proof.
  unfold supported.
  destruct (PyStr.endswith (PyStr.lower path) ".csv") eqn:E1;
    [left; left; now apply endswith_lower_extension|].
  destruct (PyStr.endswith (PyStr.lower path) ".parquet") eqn:E2;
    [left; right; left; now apply endswith_lower_extension|].
  destruct (PyStr.endswith (PyStr.lower path) ".pq") eqn:E3;
    [left; right; right; now apply endswith_lower_extension|].
  right. intros [H | [H | H]]; apply endswith_lower_extension in H; congruence.
Qed.

Lemma assemble_row_count cfg run path df p :
  assemble cfg run path df = Ok p -> row_count p = Z.of_nat (pl.height df).
Proof.
  unfold assemble. destruct (profile_columns _ _ _ _ _ _); simpl; intro H;
    [injection H as <-; reflexivity | discriminate H].
Qed.

Lemma limited_height cap df :
  (0 <= cap)%Z ->
  Z.of_nat (pl.height (limited cap df)) = Z.min cap (Z.of_nat (pl.height df)).
Proof.
  intro H. unfold limited, pl.height; simpl. rewrite length_firstn. lia.
Qed.

(** ** The row cap *)

(** The loop returns a dict when its body succeeds on every column. *)
Lemma profile_columns_total cfg run df rc todo acc :
  (forall idx col,
     In (idx, col) todo ->
     exists s cp, pl.getitem df col = Ok s
                  /\ profile_column cfg run rc idx s = Ok cp) ->
  exists res, profile_columns cfg run df rc todo acc = Ok res.
Proof.
  revert acc. induction todo as [|[idx col] rest IH]; intros acc H; simpl.
  - eauto.
  - destruct (H idx col (or_introl eq_refl)) as (s & cp & -> & Hcp).
    cbn [obind]. rewrite Hcp. cbn [obind].
    apply IH. intros i c Hin. apply H. now right.
Qed.

(** A column of a type that has no typed block: the loop body never
    fails on it. *)
Lemma profile_column_unclassified cfg run rc idx s :
  _is_numeric_dtype (pl.dtype s) = false ->
  _is_datetime_dtype (pl.dtype s) = false ->
  _is_categorical_dtype (pl.dtype s) = false ->
  exists cp, profile_column cfg run rc idx s = Ok cp.
Proof.
  intros Hn Hd Hc. unfold profile_column. rewrite Hn, Hd, Hc. eauto.
Qed.

(** C8. With a row cap [MAX_ROWS_PROFILE] (100,000 unless configured), a
    request on a file whose columns can all be profiled returns a profile
    computed from the first [cap] rows of the file alone: it is what the
    statistics give on the table of those rows, its [row_count] is the
    number of rows kept, the smaller of the cap and the file's height (so a
    file of 200,000 rows under a cap of 100,000 reports 100,000), and any
    file with the same first [cap] rows gives the same outcome. *)
Theorem row_cap_truncates_from_start cfg run fs path df :
  supported path ->
  (0 <= MAX_ROWS_PROFILE cfg)%Z -> fs path = Some df ->
  (forall idx col,
     In (idx, col) (enumerate (pl.columns df)) ->
     exists s cp,
       pl.getitem (limited (MAX_ROWS_PROFILE cfg) df) col = Ok s
       /\ profile_column cfg run
            (Z.of_nat (pl.height (limited (MAX_ROWS_PROFILE cfg) df)))
            idx s = Ok cp) ->
  MAX_ROWS_PROFILE default_config = 100000%Z
  /\ (exists p,
        result (profile_dataset cfg run fs path) = Ok p
        /\ assemble cfg run path (limited (MAX_ROWS_PROFILE cfg) df) = Ok p
        /\ row_count p = Z.of_nat (pl.height (limited (MAX_ROWS_PROFILE cfg) df))
        /\ row_count p = Z.min (MAX_ROWS_PROFILE cfg) (Z.of_nat (pl.height df))
        /\ (MAX_ROWS_PROFILE cfg = 100000%Z ->
            Z.of_nat (pl.height df) = 200000%Z ->
            row_count p = 100000%Z))
  /\ (forall fs' df',
        fs' path = Some df' ->
        limited (MAX_ROWS_PROFILE cfg) df' = limited (MAX_ROWS_PROFILE cfg) df ->
        profile_dataset cfg run fs' path = profile_dataset cfg run fs path).
Proof.
  intros Hs Hc Hf Hbodies. split; [reflexivity|].
  rewrite (profile_dataset_read cfg run fs path df Hs Hc Hf). split.
  - destruct (profile_columns_total cfg run
                (limited (MAX_ROWS_PROFILE cfg) df)
                (Z.of_nat (pl.height (limited (MAX_ROWS_PROFILE cfg) df)))
                (enumerate (pl.columns df)) [] Hbodies) as (cols & Hcols).
    assert (Ha : exists p,
               assemble cfg run path (limited (MAX_ROWS_PROFILE cfg) df)
               = Ok p).
    { unfold assemble.
      change (pl.columns (limited (MAX_ROWS_PROFILE cfg) df))
        with (pl.columns df).
      rewrite Hcols. cbn [obind]. eauto. }
    destruct Ha as (p & Hp). exists p.
    pose proof (assemble_row_count _ _ _ _ _ Hp) as Hrc.
    pose proof (limited_height (MAX_ROWS_PROFILE cfg) df Hc) as Hh.
    split; [exact Hp|]. split; [exact Hp|].
    repeat split; [exact Hrc | lia | lia].
  - intros fs' df' Hf' Heq.
    rewrite (profile_dataset_read cfg run fs' path df' Hs Hc Hf').
    now rewrite Heq.
Qed.

(** Scenario D: a parquet file of 200,000 rows under the default cap. *)
Definition many_rows : pl.DataFrame :=
  {| pl.schema := [("flag", "Boolean")];
     pl.rows := repeat [Some (VBool true)] (Z.to_nat 200000) |}.

Lemma big_parquet_supported : supported "big.parquet".
Proof. right; left. exists "big", ".parquet". split; reflexivity. Qed.

Lemma row_cap_truncates_from_start_witness :
  (exists p,
     result (profile_dataset default_config run_first_seen
               (fun _ => Some many_rows) "big.parquet") = Ok p
     /\ row_count p = 100000%Z)
  /\ (forall fs' df',
        fs' "big.parquet" = Some df' ->
        limited 100000 df' = limited 100000 many_rows ->
        profile_dataset default_config run_first_seen fs' "big.parquet"
        = profile_dataset default_config run_first_seen
            (fun _ => Some many_rows) "big.parquet").
Proof.
  destruct (row_cap_truncates_from_start default_config run_first_seen
              (fun _ => Some many_rows) "big.parquet" many_rows
              big_parquet_supported)
    as (_ & (p & Hp & _ & _ & _ & H) & Hsame).
  - simpl. lia.
  - reflexivity.
  - intros idx col Hin. simpl in Hin. destruct Hin as [Hin | []].
    injection Hin as <- <-.
    destruct (profile_column_unclassified default_config run_first_seen
                (Z.of_nat (pl.height
                             (limited (MAX_ROWS_PROFILE default_config)
                                many_rows))) 0
                {| pl.name := "flag"; pl.dtype := "Boolean";
                   pl.cells := map (fun r => nth 0 r None)
                                 (pl.rows (limited
                                            (MAX_ROWS_PROFILE default_config)
                                            many_rows)) |}
                eq_refl eq_refl eq_refl) as (cp & Hcp).
    eexists. exists cp. split; [reflexivity | exact Hcp].
  - split; [|exact Hsame].
    exists p. split; [exact Hp|]. apply H; [reflexivity|].
    vm_compute. reflexivity.
Defined.

(** Scenario D, run: the profile of the 200,000-row file counts 100,000
    rows, all of them non-null. *)
Example scenario_D :
  exists p,
    result (profile_dataset default_config run_first_seen
              (fun _ => Some many_rows) "big.parquet") = Ok p
    /\ row_count p = 100000%Z
    /\ map (fun c => non_null_count (snd c)) (columns p) = [100000%Z].
Proof.
  eexists. split; [vm_compute; reflexivity|]. split; reflexivity.
Qed.

(** A file of three rows read under a cap of two: two rows are counted,
    one of them null. *)
Definition three_rows : pl.DataFrame :=
  {| pl.schema := [("flag", "Boolean")];
     pl.rows := [[Some (VBool true)]; [None]; [Some (VBool false)]] |}.

Definition cap_two : Config := {| MAX_ROWS_PROFILE := 2; MAX_TOP_K := 5 |}.

Example three_rows_under_cap_two :
  exists p,
    result (profile_dataset cap_two run_first_seen
              (fun _ => Some three_rows) "t.pq") = Ok p
    /\ row_count p = 2%Z
    /\ map (fun c => (non_null_count (snd c), null_count (snd c)))
         (columns p) = [(1%Z, 1%Z)].
Proof.
  eexists. split; [vm_compute; reflexivity|]. split; reflexivity.
Qed.

(** ** The numeric block on degenerate columns *)

Definition all_null_block : NumericStats :=
  {| ns_min := None; ns_max := None; ns_mean := None; ns_std := None;
     ns_p25 := None; ns_p50 := None; ns_p75 := None |}.

(** A table of one column. *)
Definition one_column (name dtype : string) (l : list cell) : pl.DataFrame :=
  {| pl.schema := [(name, dtype)]; pl.rows := map (fun c => [c]) l |}.

(** The guard of [_profile_numeric] is on the number of rows: a column of
    no rows gets the block of nulls. *)
Lemma profile_numeric_no_rows s :
  pl.cells s = [] -> _profile_numeric s = Ok all_null_block.
Proof. intro H. unfold _profile_numeric, pl.len. rewrite H. reflexivity. Qed.

(** A column that has rows, all of them null, passes the guard, and
    [float(series.min())] is [float(None)]. *)
Lemma profile_numeric_null_rows s :
  pl.cells s <> [] -> pl.non_null s = [] ->
  _profile_numeric s = Raise float_type_error.
Proof.
  intros Hrows Hnull. unfold _profile_numeric, pl.len.
  destruct (pl.cells s) eqn:E; [contradiction|]. simpl.
  unfold pl.min. rewrite Hnull. reflexivity.
Qed.

(** C1 (the code departs from it). A parquet file whose only column is an
    [Int64] column of two nulls: the column has zero non-null values, yet
    the request ends with a [TypeError] instead of a profile holding the
    block of nulls. *)
Theorem numeric_all_null_column_raises run :
  profile_dataset default_config run
    (fun _ => Some (one_column "amount" "Int64" [None; None])) "d.parquet"
  = ([Read "d.parquet"; Read "d.parquet"], Raise float_type_error).
Proof. reflexivity. Qed.

(** One row, not null: the floor [0.0] is reported. *)
Lemma profile_numeric_single_row s v q :
  pl.cells s = [Some v] -> pl.num_of v = Some q ->
  exists ns, _profile_numeric s = Ok ns /\ ns_std ns = Some (FRat (Q2Qc 0)).
Proof.
  intros Hc Hv. unfold _profile_numeric, pl.len, pl.min, pl.max, pl.mean,
    pl.quantile, pl.nums, pl.non_null.
  rewrite Hc. simpl. rewrite Hv. simpl.
  destruct v; try discriminate Hv; simpl; eexists; split; reflexivity.
Qed.

(** One non-null value among nulls: the guard [series.len() > 1] passes,
    [series.std()] is null over a single value, and [float(None)] raises. *)
Lemma profile_numeric_one_value_among_nulls s v q :
  pl.non_null s = [v] -> pl.num_of v = Some q -> (1 < pl.len s)%nat ->
  _profile_numeric s = Raise float_type_error.
Proof.
  intros Hn Hv Hlen. unfold _profile_numeric.
  destruct (pl.len s =? 0)%nat eqn:E0; [apply Nat.eqb_eq in E0; lia|].
  apply Nat.ltb_lt in Hlen. rewrite Hlen.
  unfold pl.min, pl.max, pl.mean, pl.std, pl.nums. rewrite Hn. simpl.
  rewrite Hv. simpl.
  destruct v; try discriminate Hv; reflexivity.
Qed.

(** C3 (the code departs from it). A parquet file whose only column is an
    [Int64] column holding 5 and a null: exactly one value is non-null, yet
    no [std = 0.0] is reported; the request ends with a [TypeError]. *)
Theorem numeric_one_value_among_nulls_raises run :
  profile_dataset default_config run
    (fun _ => Some (one_column "amount" "Int64" [Some (VInt 5); None]))
    "d.parquet"
  = ([Read "d.parquet"; Read "d.parquet"], Raise float_type_error).
Proof. reflexivity. Qed.

(** ** Distinct values *)

Lemma cell_eqb_eq x y : cell_eqb x y = true <-> x = y.
Proof.
  unfold cell_eqb. destruct (cell_eq_dec x y); split; intro H;
    try reflexivity; try assumption; try discriminate H; contradiction.
Qed.

Lemma cell_eqb_neq x y : negb (cell_eqb x y) = true <-> x <> y.
Proof.
  rewrite negb_true_iff. unfold cell_eqb.
  destruct (cell_eq_dec x y); split; intro H;
    try reflexivity; try assumption; try discriminate H; contradiction.
Qed.

Lemma first_seen_In l x : In x (first_seen l) <-> In x l.
Proof.
  induction l as [|y r IH]; simpl; [reflexivity|].
  rewrite filter_In, cell_eqb_neq, IH.
  destruct (cell_eq_dec y x) as [-> | Hne]; intuition.
Qed.

Lemma first_seen_NoDup l : NoDup (first_seen l).
Proof.
  induction l as [|y r IH]; simpl; constructor.
  - rewrite filter_In, cell_eqb_neq. intros [_ H]. now apply H.
  - now apply NoDup_filter.
Qed.

Lemma first_seen_nonempty l : l <> [] -> first_seen l <> [].
Proof. destruct l; [contradiction | discriminate]. Qed.

Definition not_null (c : cell) : bool := negb (pl.is_null c).

Lemma null_split (l : list cell) :
  List.length l
  = (List.length (filter pl.is_null l) + List.length (filter not_null l))%nat.
Proof.
  induction l as [|[v|] r IH]; simpl; [reflexivity | |]; rewrite IH; lia.
Qed.

(** Null counts as one more distinct value: the distinct values number at
    most the non-null cells plus one, and at most the non-null cells when
    no cell is null. *)
Lemma n_unique_bound s :
  (pl.n_unique s <= S (pl.len s - pl.null_count s))%nat
  /\ (pl.null_count s = 0 -> pl.n_unique s <= pl.len s - pl.null_count s)%nat.
Proof.
  unfold pl.n_unique, pl.len, pl.null_count.
  pose proof (null_split (pl.cells s)) as Hs.
  split.
  - replace (S (List.length (pl.cells s)
                - List.length (filter pl.is_null (pl.cells s))))
      with (@List.length cell (None :: filter not_null (pl.cells s)))
      by (cbn [List.length]; lia).
    apply NoDup_incl_length; [apply first_seen_NoDup|].
    intros x Hx. apply (proj1 (first_seen_In _ _)) in Hx.
    destruct x as [v|]; [right | left; reflexivity].
    apply filter_In. split; [exact Hx | reflexivity].
  - intro H0. rewrite H0, Nat.sub_0_r.
    apply NoDup_incl_length; [apply first_seen_NoDup|].
    intros x Hx. exact (proj1 (first_seen_In _ _) Hx).
Qed.

(** ** Base metrics *)

(** The base fields of a column profile are the ones the loop body
    computes, whatever typed block follows. *)
Lemma base_fields cfg run rc idx s cp :
  profile_column cfg run rc idx s = Ok cp ->
  position cp = idx
  /\ dtype cp = pl.dtype s
  /\ non_null_count cp = (rc - Z.of_nat (pl.null_count s))%Z
  /\ null_count cp = Z.of_nat (pl.null_count s)
  /\ completeness cp
     = (if (0 <? rc)%Z
        then true_div (rc - Z.of_nat (pl.null_count s)) rc
        else FRat (Q2Qc 0))
  /\ distinct_count cp = Z.of_nat (pl.n_unique s)
  /\ uniqueness cp
     = (if (0 <? rc - Z.of_nat (pl.null_count s))%Z
        then true_div (Z.of_nat (pl.n_unique s))
               (rc - Z.of_nat (pl.null_count s))
        else FRat (Q2Qc 0)).
Proof.
  unfold profile_column. intro H.
  destruct (_is_numeric_dtype (pl.dtype s)).
  { destruct (_profile_numeric s); simpl in H; [|discriminate H].
    injection H as <-. repeat split. }
  destruct (_is_datetime_dtype (pl.dtype s)).
  { destruct (0 <? rc - Z.of_nat (pl.null_count s))%Z eqn:E;
      injection H as <-; cbn; rewrite ?E; repeat split. }
  destruct (_is_categorical_dtype (pl.dtype s)).
  { destruct (_profile_categorical run s (MAX_TOP_K cfg)); simpl in H;
      [|discriminate H].
    injection H as <-. repeat split. }
  injection H as <-. repeat split.
Qed.

Lemma true_div_nonzero (a b : Z) :
  (0 < a)%Z -> (0 < b)%Z -> true_div a b <> FRat (Q2Qc 0).
Proof.
  intros Ha Hb H0. unfold true_div in H0.
  assert (H : (Q2Qc (inject_Z a) / Q2Qc (inject_Z b))%Qc = Q2Qc 0)
    by congruence.
  clear H0.
  assert (Hnz : forall z, (0 < z)%Z -> Q2Qc (inject_Z z) <> Q2Qc 0).
  { intros z Hz Heq. apply Q2Qc_eq_iff in Heq.
    unfold Qeq, inject_Z in Heq; simpl in Heq. lia. }
  unfold Qcdiv in H. apply Qcmult_integral in H as [H | H].
  - exact (Hnz a Ha H).
  - pose proof (Qcmult_inv_r (Q2Qc (inject_Z b)) (Hnz b Hb)) as Hinv.
    rewrite H, Qcmult_0_r in Hinv. discriminate Hinv.
Qed.

(** What holds of the base metrics of every profiled column: the two
    counts partition the rows, the distinct values exceed the non-null
    cells by at most one (the null), and uniqueness is zero exactly when no
    cell is non-null. *)
Lemma base_metrics cfg run idx s cp :
  profile_column cfg run (Z.of_nat (pl.len s)) idx s = Ok cp ->
  (non_null_count cp + null_count cp = Z.of_nat (pl.len s))%Z
  /\ (0 <= non_null_count cp)%Z
  /\ (distinct_count cp <= non_null_count cp + 1)%Z
  /\ (null_count cp = 0%Z -> distinct_count cp <= non_null_count cp)%Z
  /\ (uniqueness cp = FRat (Q2Qc 0) <-> non_null_count cp = 0%Z).
Proof.
  intro H.
  destruct (base_fields _ _ _ _ _ _ H)
    as (_ & _ & -> & -> & _ & -> & ->).
  destruct (n_unique_bound s) as [Hb1 Hb2].
  assert (Hle : (pl.null_count s <= pl.len s)%nat)
    by apply filter_length_le.
  split; [lia|]. split; [lia|]. split; [lia|]. split; [lia|].
  destruct (0 <? Z.of_nat (pl.len s) - Z.of_nat (pl.null_count s))%Z eqn:E.
  - apply Z.ltb_lt in E. split; [|lia]. intro Hu. exfalso.
    apply true_div_nonzero in Hu; [exact Hu | | exact E].
    assert (pl.cells s <> []).
    { unfold pl.len in *. destruct (pl.cells s); [simpl in *; lia | discriminate]. }
    pose proof (first_seen_nonempty _ H0) as Hne.
    unfold pl.n_unique. destruct (first_seen (pl.cells s));
      [contradiction | simpl; lia].
  - apply Z.ltb_ge in E. split; [lia | reflexivity].
Qed.

Definition has_null_file : FileSystem :=
  fun _ => Some (one_column "amount" "Int64"
                   [Some (VInt 1); Some (VInt 2); None]).

(** C2 (the code departs from it). A parquet file whose only column is an
    [Int64] column holding 1, 2 and a null is profiled, and its column
    reports 3 distinct values against 2 non-null ones, hence a uniqueness
    of 3/2, above 1. *)
Theorem distinct_count_counts_null run :
  exists p cp,
    result (profile_dataset default_config run has_null_file "d.parquet") = Ok p
    /\ columns p = [("amount", cp)]
    /\ non_null_count cp = 2%Z
    /\ distinct_count cp = 3%Z
    /\ Rof (uniqueness cp) = (3 / 2)%R
    /\ (1 < Rof (uniqueness cp))%R.
Proof.
  eexists. eexists. split; [cbv; reflexivity|].
  split; [reflexivity|]. split; [reflexivity|]. split; [reflexivity|].
  simpl. unfold Q2R; simpl. split; lra.
Qed.

(** ** Scenario A *)

Lemma sqrt_between (a b x : R) :
  (0 <= a)%R -> (0 <= b)%R -> (a * a < x)%R -> (x < b * b)%R ->
  (a < sqrt x < b)%R.
Proof.
  intros Ha Hb Hax Hxb. split.
  - rewrite <- (sqrt_square a Ha). apply sqrt_lt_1_alt. nra.
  - rewrite <- (sqrt_square b Hb). apply sqrt_lt_1_alt. nra.
Qed.

Lemma sqrt_50_bounds : (7.07105 < sqrt 50 < 7.07115)%R.
Proof. apply sqrt_between; lra. Qed.

(** The column of scenario A. *)
Definition scenario_A_cells : list cell :=
  [Some (VInt 10); Some (VInt 20); None].

Definition scenario_A_column (name dtype : string) : pl.Series :=
  {| pl.name := name; pl.dtype := dtype; pl.cells := scenario_A_cells |}.

(** [x] is [c] to four decimal places. *)
Definition approx4 (x c : R) : Prop := (Rabs (x - c) <= 0.00005)%R.

Lemma scenario_A_numeric_block name dtype :
  exists mean var,
    _profile_numeric (scenario_A_column name dtype)
    = Ok {| ns_min := Some (FRat (Q2Qc 10)); ns_max := Some (FRat (Q2Qc 20));
            ns_mean := Some (FRat mean); ns_std := Some (FSqrt var);
            ns_p25 := Some (FRat (Q2Qc 10)); ns_p50 := Some (FRat (Q2Qc 20));
            ns_p75 := Some (FRat (Q2Qc 20)) |}
    /\ this mean = 15 /\ this var = 50.
Proof. eexists. eexists. split; [cbv; reflexivity|]. split; reflexivity. Qed.

(** A float field is present and the number it stands for satisfies [P]. *)
Definition float_is (x : option pyfloat) (P : R -> Prop) : Prop :=
  match x with
  | Some f => P (Rof f)
  | None => False
  end.

Lemma Q2R_of_this (q : Qc) (n : Z) (d : positive) :
  this q = (n # d) -> Q2R q = (IZR n / IZR (Zpos d))%R.
Proof. intro H. unfold Q2R. rewrite H. reflexivity. Qed.

(** What the loop body yields for the column of scenario A. *)
Lemma scenario_A_column_profile cfg run idx name dtype :
  _is_numeric_dtype dtype = true ->
  exists cp ns,
    profile_column cfg run 3 idx (scenario_A_column name dtype) = Ok cp
    /\ non_null_count cp = 2%Z
    /\ null_count cp = 1%Z
    /\ approx4 (Rof (completeness cp)) 0.6667
    /\ numeric_stats cp = Some ns
    /\ float_is (ns_min ns) (eq 10%R)
    /\ float_is (ns_max ns) (eq 20%R)
    /\ float_is (ns_mean ns) (eq 15%R)
    /\ float_is (ns_std ns) (eq (sqrt 50)).
Proof.
  intro Hnum.
  destruct (scenario_A_numeric_block name dtype) as (mean & var & Hns & Hm & Hv).
  unfold profile_column. cbn [pl.dtype scenario_A_column].
  rewrite Hnum, Hns. cbn [obind].
  eexists. eexists. split; [reflexivity|].
  cbn [non_null_count null_count completeness numeric_stats
       ns_min ns_max ns_mean ns_std float_is Rof].
  split; [reflexivity|]. split; [reflexivity|]. split.
  { unfold approx4.
    assert (Hc : this (Q2Qc (inject_Z 2) / Q2Qc (inject_Z 3))%Qc = (2 # 3))
      by reflexivity.
    change (Rabs (Q2R (Q2Qc (inject_Z 2) / Q2Qc (inject_Z 3))%Qc - 0.6667)
            <= 0.00005)%R.
    rewrite (Q2R_of_this _ 2 3 Hc). apply Rabs_le. lra. }
  split; [reflexivity|].
  cbn [ns_min ns_max ns_mean ns_std float_is Rof].
  split; [rewrite (Q2R_of_this (Q2Qc 10) 10 1 eq_refl); lra|].
  split; [rewrite (Q2R_of_this (Q2Qc 20) 20 1 eq_refl); lra|].
  split; [rewrite (Q2R_of_this mean 15 1 Hm); lra|].
  rewrite (Q2R_of_this var 50 1 Hv). f_equal. lra.
Qed.

(** A request on a file of one column that fits under the cap runs the
    loop body once, on that column. *)
Lemma one_column_request cfg run fs path name dtype l :
  supported path ->
  (Z.of_nat (List.length l) <= MAX_ROWS_PROFILE cfg)%Z ->
  fs path = Some (one_column name dtype l) ->
  result (profile_dataset cfg run fs path)
  = (cp <~ profile_column cfg run (Z.of_nat (List.length l)) 0
             {| pl.name := name; pl.dtype := dtype; pl.cells := l |} ;;
     Ok {| dataset_name := PyStr.basename path;
           path := path;
           row_count := Z.of_nat (List.length l);
           column_count := 1;
           columns := [(name, cp)] |}).
Proof.
  intros Hs Hc Hf.
  rewrite (profile_dataset_read cfg run fs path _ Hs ltac:(lia) Hf).
  unfold result, snd, assemble, limited, one_column, pl.height, pl.columns.
  cbn [pl.rows pl.schema map fst].
  rewrite firstn_all2 by (rewrite length_map; lia).
  rewrite length_map.
  cbn [enumerate List.length seq combine profile_columns].
  unfold pl.getitem. cbn [pl.schema pl.index_of pl.rows].
  rewrite String.eqb_refl. cbn [obind].
  rewrite map_map. cbn [nth]. rewrite map_id.
  destruct (profile_column _ _ _ _ _); reflexivity.
Qed.

Definition scenario_A_file : FileSystem :=
  fun _ => Some (one_column "x" "Int64" scenario_A_cells).

(** C4, as the spec states it, fails: the [std] reported for [10, 20, null]
    is not 5.0 to one decimal place. *)
Lemma scenario_A_std_is_not_5 :
  ~ exists p cp ns,
      result (profile_dataset default_config run_first_seen
                scenario_A_file "a.csv") = Ok p
      /\ columns p = [("x", cp)]
      /\ non_null_count cp = 2%Z
      /\ null_count cp = 1%Z
      /\ approx4 (Rof (completeness cp)) 0.6667
      /\ numeric_stats cp = Some ns
      /\ float_is (ns_min ns) (eq 10%R)
      /\ float_is (ns_max ns) (eq 20%R)
      /\ float_is (ns_mean ns) (eq 15%R)
      /\ float_is (ns_std ns) (fun x => Rabs (x - 5) <= 0.05)%R.
Proof.
  intros (p & cp & ns & Hp & Hcols & _ & _ & _ & Hns & _ & _ & _ & Hstd).
  destruct (scenario_A_column_profile default_config run_first_seen 0
              "x" "Int64" eq_refl)
    as (cp' & ns' & Hcp' & _ & _ & _ & Hns' & _ & _ & _ & Hstd').
  rewrite (one_column_request default_config run_first_seen scenario_A_file
             "a.csv" "x" "Int64" scenario_A_cells) in Hp.
  - change (Z.of_nat (List.length scenario_A_cells)) with 3%Z in Hp.
    change {| pl.name := "x"; pl.dtype := "Int64"; pl.cells := scenario_A_cells |}
      with (scenario_A_column "x" "Int64") in Hp.
    rewrite Hcp' in Hp. cbn [obind] in Hp. injection Hp as <-.
    cbn [columns] in Hcols. injection Hcols as <-.
    rewrite Hns' in Hns. injection Hns as <-.
    destruct (ns_std ns') as [sd|]; [|exact Hstd].
    cbn [float_is] in Hstd, Hstd'. rewrite <- Hstd' in Hstd.
    pose proof sqrt_50_bounds. unfold Rabs in Hstd.
    destruct (Rcase_abs (sqrt 50 - 5)); lra.
  - left. exists "a", ".csv". split; reflexivity.
  - simpl. lia.
  - reflexivity.
Qed.

(** C4, amended. A file whose only column is a numeric column holding
    10, 20 and a null is profiled with [non_null_count = 2],
    [null_count = 1], completeness 0.6667 to four places, [min = 10],
    [max = 20], [mean = 15], and [std] the square root of 50, that is 7.0711
    to four places: the sample standard deviation of the two non-null
    values. *)
Theorem scenario_A_sample_std cfg run fs path name dtype :
  supported path ->
  (3 <= MAX_ROWS_PROFILE cfg)%Z ->
  _is_numeric_dtype dtype = true ->
  fs path = Some (one_column name dtype scenario_A_cells) ->
  exists p cp ns,
    result (profile_dataset cfg run fs path) = Ok p
    /\ columns p = [(name, cp)]
    /\ non_null_count cp = 2%Z
    /\ null_count cp = 1%Z
    /\ approx4 (Rof (completeness cp)) 0.6667
    /\ numeric_stats cp = Some ns
    /\ float_is (ns_min ns) (eq 10%R)
    /\ float_is (ns_max ns) (eq 20%R)
    /\ float_is (ns_mean ns) (eq 15%R)
    /\ float_is (ns_std ns) (fun x => x = sqrt 50 /\ approx4 x 7.0711).
Proof.
  intros Hs Hc Hnum Hf.
  destruct (scenario_A_column_profile cfg run 0 name dtype Hnum)
    as (cp & ns & Hcp & Hnn & Hn & Hcompl & Hns & Hmin & Hmax & Hmean & Hstd).
  rewrite (one_column_request cfg run fs path name dtype scenario_A_cells
             Hs Hc Hf).
  change (Z.of_nat (List.length scenario_A_cells)) with 3%Z.
  change {| pl.name := name; pl.dtype := dtype; pl.cells := scenario_A_cells |}
    with (scenario_A_column name dtype).
  rewrite Hcp. cbn [obind].
  eexists. exists cp, ns. split; [reflexivity|].
  repeat (split; [first [reflexivity | assumption]|]).
  destruct (ns_std ns) as [sd|]; [|exact Hstd].
  cbn [float_is] in *. split; [now symmetry|].
  rewrite <- Hstd. unfold approx4. pose proof sqrt_50_bounds.
  apply Rabs_le. lra.
Qed.

Lemma csv_supported : supported "a.csv".
Proof. left. exists "a", ".csv". split; reflexivity. Qed.

Lemma scenario_A_sample_std_witness :
  exists p cp ns,
    result (profile_dataset default_config run_first_seen
              scenario_A_file "a.csv") = Ok p
    /\ columns p = [("x", cp)]
    /\ non_null_count cp = 2%Z
    /\ null_count cp = 1%Z
    /\ approx4 (Rof (completeness cp)) 0.6667
    /\ numeric_stats cp = Some ns
    /\ float_is (ns_min ns) (eq 10%R)
    /\ float_is (ns_max ns) (eq 20%R)
    /\ float_is (ns_mean ns) (eq 15%R)
    /\ float_is (ns_std ns) (fun x => x = sqrt 50 /\ approx4 x 7.0711).
Proof.
  apply (scenario_A_sample_std default_config run_first_seen scenario_A_file
           "a.csv" "x" "Int64" csv_supported).
  - simpl. lia.
  - reflexivity.
  - reflexivity.
Defined.

(** ** Sample values *)

Lemma firstn_incl {A} (n : nat) (l : list A) x : In x (firstn n l) -> In x l.
Proof.
  revert n; induction l as [|a r IH]; intros [|n] H; simpl in *;
    try contradiction.
  destruct H as [-> | H]; [now left | right; eapply IH, H].
Qed.

Lemma firstn_NoDup {A} (n : nat) (l : list A) : NoDup l -> NoDup (firstn n l).
Proof.
  revert n; induction l as [|a r IH]; intros [|n] H; simpl;
    try constructor.
  - inversion H; subst. intro Hin. apply firstn_incl in Hin. contradiction.
  - inversion H; subst. now apply IH.
Qed.

(** The non-null cells of a column, in the order of the rows. *)
Definition observed (s : pl.Series) : list cell := filter not_null (pl.cells s).

(** [_sample_values] takes the first five of whatever order [unique()]
    gives the distinct non-null values in. *)
Lemma sample_values_unfold run s :
  _sample_values run s 5 = firstn 5 (unique_order run (observed s)).
Proof. reflexivity. Qed.

Lemma sample_values_of_profile cfg run rc idx s cp :
  profile_column cfg run rc idx s = Ok cp ->
  sample_values cp = _sample_values run s 5.
Proof.
  unfold profile_column. intro H.
  destruct (_is_numeric_dtype (pl.dtype s)).
  { destruct (_profile_numeric s); simpl in H; [|discriminate H].
    injection H as <-. reflexivity. }
  destruct (_is_datetime_dtype (pl.dtype s)).
  { destruct (0 <? rc - Z.of_nat (pl.null_count s))%Z;
      injection H as <-; reflexivity. }
  destruct (_is_categorical_dtype (pl.dtype s)).
  { destruct (_profile_categorical run s (MAX_TOP_K cfg)); simpl in H;
      [|discriminate H].
    injection H as <-. reflexivity. }
  injection H as <-. reflexivity.
Qed.

(** With first-seen order kept, the samples are the first five distinct
    non-null values met. *)
Lemma sample_values_first_seen s :
  _sample_values run_first_seen s 5 = firstn 5 (first_seen (observed s)).
Proof. reflexivity. Qed.

(** A file whose only column is the integer column 2, 1. *)
Definition descending_file : FileSystem :=
  fun _ => Some (one_column "x" "Int64" [Some (VInt 2); Some (VInt 1)]).

(** C5, as the spec states it, fails: [unique()] returns the distinct
    values of an integer column ascending, so the column 2, 1 is sampled as
    1, 2, which is not the order its values are first seen in. *)
Lemma sample_values_not_first_seen :
  exists p cp,
    result (profile_dataset default_config run_second descending_file
              "d.csv") = Ok p
    /\ columns p = [("x", cp)]
    /\ sample_values cp = [Some (VInt 1); Some (VInt 2)]
    /\ first_seen [Some (VInt 2); Some (VInt 1)]
       = [Some (VInt 2); Some (VInt 1)]
    /\ sample_values cp
       <> firstn 5 (first_seen [Some (VInt 2); Some (VInt 1)]).
Proof.
  eexists. eexists. split; [vm_compute; reflexivity|].
  split; [reflexivity|]. split; [reflexivity|]. split; [reflexivity|].
  intro H. discriminate H.
Qed.

(** C5, amended. The samples of a column are at most five, pairwise
    distinct, non-null and present in the column; they are the first five
    of the column's distinct non-null values in the order [unique()]
    returns them, which need not be first-seen order; a column with at most
    five distinct non-null values has all of them sampled. *)
Theorem sample_values_properties run s :
  (List.length (_sample_values run s 5) <= 5)%nat
  /\ NoDup (_sample_values run s 5)
  /\ (forall c, In c (_sample_values run s 5) ->
                c <> None /\ In c (pl.cells s))
  /\ (exists order,
        Permutation order (first_seen (observed s))
        /\ _sample_values run s 5 = firstn 5 order)
  /\ ((List.length (first_seen (observed s)) <= 5)%nat ->
      Permutation (_sample_values run s 5) (first_seen (observed s)))
  /\ (forall cfg rc idx cp,
        profile_column cfg run rc idx s = Ok cp ->
        sample_values cp = _sample_values run s 5).
Proof.
  rewrite sample_values_unfold.
  pose proof (unique_order_perm run (observed s)) as Hperm.
  split; [rewrite length_firstn; lia|].
  split.
  { apply firstn_NoDup.
    eapply Permutation_NoDup; [apply Permutation_sym, Hperm|].
    apply first_seen_NoDup. }
  split.
  { intros c Hc. apply firstn_incl in Hc.
    apply (Permutation_in _ Hperm) in Hc.
    apply (proj1 (first_seen_In _ _)) in Hc.
    unfold observed in Hc. apply filter_In in Hc as [Hin Hnn].
    split; [|exact Hin]. intros ->. discriminate Hnn. }
  split; [exists (unique_order run (observed s)); split; [exact Hperm | reflexivity]|].
  split.
  { intro Hlen. rewrite firstn_all2; [exact Hperm|].
    rewrite (Permutation_length Hperm). exact Hlen. }
  intros cfg rc idx cp Hcp.
  rewrite (sample_values_of_profile cfg run rc idx s cp Hcp).
  apply sample_values_unfold.
Qed.

(** ** Top-K of a categorical column *)

Section ListFacts.

Context {A B : Type}.

Lemma head_list_map (f : A -> B) (n : Z) (l : list A) :
  head_list n (map f l) = map f (head_list n l).
Proof.
  unfold head_list. rewrite length_map.
  destruct (n <? 0)%Z; apply firstn_map.
Qed.

Lemma head_list_length (n : Z) (l : list A) :
  (0 <= n)%Z -> (Z.of_nat (List.length (head_list n l)) <= n)%Z.
Proof.
  intro H. unfold head_list.
  destruct (n <? 0)%Z eqn:E; [apply Z.ltb_lt in E; lia|].
  rewrite length_firstn. lia.
Qed.

Lemma StronglySorted_firstn (R : A -> A -> Prop) (n : nat) (l : list A) :
  StronglySorted R l -> StronglySorted R (firstn n l).
Proof.
  revert n; induction l as [|a r IH]; intros [|n] H; simpl;
    try constructor.
  - inversion H; subst. now apply IH.
  - inversion H; subst. apply Forall_forall. intros x Hx.
    apply firstn_incl in Hx.
    match goal with Hall : Forall _ r |- _ =>
      exact (proj1 (Forall_forall _ _) Hall x Hx) end.
Qed.

Lemma StronglySorted_head_list (R : A -> A -> Prop) (n : Z) (l : list A) :
  StronglySorted R l -> StronglySorted R (head_list n l).
Proof. unfold head_list. destruct (n <? 0)%Z; apply StronglySorted_firstn. Qed.

Lemma StronglySorted_map (R : B -> B -> Prop) (f : A -> B) (l : list A) :
  StronglySorted (fun a b => R (f a) (f b)) l -> StronglySorted R (map f l).
Proof.
  induction 1 as [|a r Hs IH Hall]; simpl; constructor; [exact IH|].
  apply Forall_map. exact Hall.
Qed.

(** A permutation of an image is the image of a permutation. *)
Lemma perm_of_image (f : A -> B) (g : B -> A) (l : list A) (l' : list B) :
  (forall a, g (f a) = a) ->
  Permutation l' (map f l) ->
  l' = map f (map g l') /\ Permutation (map g l') l.
Proof.
  intros Hgf Hperm. split.
  - assert (Himg : Forall (fun b => f (g b) = b) l').
    { apply Forall_forall. intros b Hb.
      apply (Permutation_in _ Hperm) in Hb.
      apply in_map_iff in Hb as (a & <- & _). now rewrite Hgf. }
    clear Hperm. induction Himg as [|b r Hb _ IH]; simpl; [reflexivity|].
    f_equal; [symmetry; exact Hb | exact IH].
  - apply (Permutation_map g) in Hperm.
    rewrite map_map in Hperm.
    rewrite (map_ext _ (fun a => a) Hgf), map_id in Hperm. exact Hperm.
Qed.

End ListFacts.

(** The row [value_counts] writes for a group, and back. *)
Definition row_of_group (g : cell * nat) : list cell :=
  [fst g; Some (VInt (Z.of_nat (snd g)))].

Definition group_of_row (r : list cell) : cell * nat :=
  (nth 0 r None, Z.to_nat (pl.int_key (nth 1 r None))).

Lemma group_of_row_of_group g : group_of_row (row_of_group g) = g.
Proof.
  destruct g as [v n]. unfold group_of_row, row_of_group; simpl.
  now rewrite Nat2Z.id.
Qed.

(** The [{"value", "count"}] pair of a group. *)
Definition entry_of_group (g : cell * nat) : TopEntry :=
  {| te_value := fst g; te_count := Z.of_nat (snd g) |}.

(** Reading the rows back: on a frame that has rows it succeeds only when
    the value column is called ["values"], and then yields one pair per
    row. *)
Lemma top_entries_eval name (groups : list (cell * nat)) :
  mapM top_entry_of_row
    (map (fun r => combine [name; "count"] r) (map row_of_group groups))
  = if String.eqb name "values" then Ok (map entry_of_group groups)
    else match groups with
         | [] => Ok []
         | _ :: _ => Raise (KeyError "values")
         end.
Proof.
  destruct (String.eqb name "values") eqn:En.
  - apply String.eqb_eq in En. subst name.
    induction groups as [|[v n] r IH]; [reflexivity|].
    change (mapM top_entry_of_row
              (map (fun r => combine ["values"; "count"] r)
                   (map row_of_group ((v, n) :: r))))
      with (b <~ top_entry_of_row
                   [("values", v); ("count", Some (VInt (Z.of_nat n)))] ;;
            bs <~ mapM top_entry_of_row
                    (map (fun r => combine ["values"; "count"] r)
                         (map row_of_group r)) ;;
            Ok (b :: bs)).
    rewrite IH. reflexivity.
  - destruct groups as [|[v n] r]; [reflexivity|].
    cbn [map mapM combine row_of_group fst snd].
    unfold top_entry_of_row at 1. cbn [dict_get]. rewrite En. reflexivity.
Qed.

Lemma StronglySorted_map_inv {A B} (R : B -> B -> Prop) (f : A -> B) l :
  StronglySorted R (map f l) -> StronglySorted (fun a b => R (f a) (f b)) l.
Proof.
  induction l as [|a r IH]; simpl; intro H; [constructor|].
  apply StronglySorted_inv in H as [Hs Hall].
  constructor; [now apply IH|].
  apply Forall_forall. intros x Hx.
  apply (proj1 (Forall_forall _ _) Hall). now apply in_map.
Qed.

Lemma head_list_nil {A} (n : Z) : head_list n (@nil A) = [].
Proof. unfold head_list. destruct (n <? 0)%Z; apply firstn_nil. Qed.

(** What [_profile_categorical] evaluates to on a column that has rows and
    is not called ["count"]: the groups of its cells (null forming a group)
    are put in some order of descending count, and the head of them is read
    back. *)
Lemma profile_categorical_eval run s K :
  pl.cells s <> [] -> pl.name s <> "count" ->
  exists groups,
    Permutation groups (group_counts (pl.cells s))
    /\ StronglySorted (fun a b => (snd b <= snd a)%nat) groups
    /\ _profile_categorical run s K
       = if String.eqb (pl.name s) "values"
         then Ok {| top_k := map entry_of_group (head_list K groups) |}
         else match head_list K groups with
              | [] => Ok {| top_k := [] |}
              | _ :: _ => Raise (KeyError "values")
              end.
Proof.
  intros Hcells Hname. unfold _profile_categorical, pl.len.
  destruct (List.length (pl.cells s) =? 0)%nat eqn:Elen.
  { apply Nat.eqb_eq in Elen. destruct (pl.cells s); [contradiction|].
    discriminate Elen. }
  unfold pl.value_counts.
  apply String.eqb_neq in Hname. rewrite Hname. cbn [obind].
  unfold pl.sort_descending. cbn [pl.schema pl.index_of]. rewrite Hname.
  change (String.eqb "count" "count") with true.
  cbn [obind pl.rows pl.schema].
  change (map (fun g : option value * nat =>
                 [fst g; Some (VInt (Z.of_nat (snd g)))])
              (group_order run (pl.cells s)))
    with (map row_of_group (group_order run (pl.cells s))).
  set (rows0 := map row_of_group (group_order run (pl.cells s))).
  set (key := fun r : list (option value) => pl.int_key (nth 1 r None)).
  pose proof (sort_desc_perm run key rows0) as Hperm.
  pose proof (sort_desc_sorted run key rows0) as Hsorted.
  destruct (perm_of_image row_of_group group_of_row
              (group_order run (pl.cells s)) (sort_desc run key rows0)
              group_of_row_of_group Hperm) as [Himg Hgroups].
  rewrite Himg in Hsorted |- *.
  set (groups := map group_of_row (sort_desc run key rows0)) in *.
  clearbody groups. clear Himg Hperm. subst rows0.
  exists groups. split; [|split].
  - eapply perm_trans; [exact Hgroups | apply group_order_perm].
  - apply StronglySorted_map_inv in Hsorted.
    eapply StronglySorted_ind with (P := StronglySorted _);
      [constructor | | exact Hsorted].
    intros a l _ IH Hall. constructor; [exact IH|].
    eapply Forall_impl; [|exact Hall].
    intros b Hb. unfold key, row_of_group in Hb; simpl in Hb. lia.
  - unfold pl.iter_rows_named, pl.df_head, pl.columns.
    cbn [pl.rows pl.schema map fst].
    rewrite head_list_map, top_entries_eval.
    destruct (String.eqb (pl.name s) "values"); [reflexivity|].
    destruct (head_list K groups); reflexivity.
Qed.

(** Whenever [_profile_categorical] returns a block, its [top_k] is the
    head of the groups of the column's cells (null forming a group) put in
    some order of descending count. *)
Lemma profile_categorical_ok run s K cs :
  _profile_categorical run s K = Ok cs ->
  exists groups,
    Permutation groups (group_counts (pl.cells s))
    /\ StronglySorted (fun a b => (snd b <= snd a)%nat) groups
    /\ top_k cs = map entry_of_group (head_list K groups).
Proof.
  intro H.
  destruct (pl.cells s) as [|c0 rest] eqn:Ec.
  { unfold _profile_categorical, pl.len in H. rewrite Ec in H.
    injection H as <-. exists [].
    repeat split; [constructor | constructor | now rewrite head_list_nil]. }
  destruct (String.eqb (pl.name s) "count") eqn:Ename.
  { unfold _profile_categorical, pl.len, pl.value_counts in H.
    rewrite Ec, Ename in H. discriminate H. }
  apply String.eqb_neq in Ename.
  destruct (profile_categorical_eval run s K) as (groups & Hp & Hs & He);
    [rewrite Ec; discriminate | exact Ename |].
  rewrite Ec in Hp. exists groups. split; [exact Hp|]. split; [exact Hs|].
  rewrite H in He. destruct (String.eqb (pl.name s) "values").
  - injection He as ->. reflexivity.
  - destruct (head_list K groups); [|discriminate He].
    injection He as ->. reflexivity.
Qed.

Lemma categorical_of_profile cfg run rc idx s cp cs :
  profile_column cfg run rc idx s = Ok cp ->
  categorical_stats cp = Some cs ->
  _is_categorical_dtype (pl.dtype s) = true
  /\ _profile_categorical run s (MAX_TOP_K cfg) = Ok cs.
Proof.
  unfold profile_column. intros H Hcs.
  destruct (_is_numeric_dtype (pl.dtype s)).
  { destruct (_profile_numeric s); simpl in H; [|discriminate H].
    injection H as <-. discriminate Hcs. }
  destruct (_is_datetime_dtype (pl.dtype s)).
  { destruct (0 <? rc - Z.of_nat (pl.null_count s))%Z;
      injection H as <-; discriminate Hcs. }
  destruct (_is_categorical_dtype (pl.dtype s)).
  - destruct (_profile_categorical run s (MAX_TOP_K cfg)); simpl in H;
      [|discriminate H].
    injection H as <-. simpl in Hcs. injection Hcs as ->. now split.
  - injection H as <-. discriminate Hcs.
Qed.

(** The slip in reading the rows back: the value column of the frame
    [value_counts] returns bears the series' name, so [row["values"]] finds
    no such key unless the column itself is called ["values"]. *)
Lemma profile_categorical_key_error run s K :
  pl.cells s <> [] -> (0 < K)%Z ->
  pl.name s <> "values" -> pl.name s <> "count" ->
  _profile_categorical run s K = Raise (KeyError "values").
Proof.
  intros Hcells HK Hv Hc.
  destruct (profile_categorical_eval run s K Hcells Hc)
    as (groups & Hp & _ & ->).
  apply String.eqb_neq in Hv. rewrite Hv.
  destruct groups as [|g gs].
  { apply Permutation_nil in Hp.
    unfold group_counts in Hp. apply map_eq_nil in Hp.
    now apply first_seen_nonempty in Hp. }
  unfold head_list. destruct (K <? 0)%Z eqn:EK; [apply Z.ltb_lt in EK; lia|].
  destruct (Z.to_nat K) as [|k] eqn:Ek; [lia|]. reflexivity.
Qed.

Definition null_text_cells : list cell :=
  [None; None; Some (VStr "a")].

Definition null_text_file : FileSystem :=
  fun _ => Some (one_column "values" "Categorical" null_text_cells).

(** A file whose only column is the Categorical column [city]. *)
Definition city_file : FileSystem :=
  fun _ => Some (one_column "city" "Categorical"
                   [Some (VStr "a"); Some (VStr "a"); Some (VStr "b")]).

(** C6 (the code departs from it). A parquet file whose only column is the
    Categorical column [city] holding ["a"], ["a"], ["b"]: the groups are
    counted and sorted, but the pairs are read back with [row["values"]]
    from rows whose keys are ["city"] and ["count"], so the request ends
    with [KeyError('values')] and no [top_k] is produced.  So it is for
    every Categorical column that has rows and is not itself called
    ["values"] or ["count"] ([profile_categorical_key_error]). *)
Theorem categorical_top_k_raises_key_error run :
  profile_dataset default_config run city_file "d.parquet"
  = ([Read "d.parquet"; Read "d.parquet"], Raise (KeyError "values")).
Proof.
  assert (Hs : supported "d.parquet").
  { right; left. exists "d", ".parquet". split; reflexivity. }
  assert (Ht : trace (profile_dataset default_config run city_file "d.parquet")
               = [Read "d.parquet"; Read "d.parquet"]).
  { rewrite (profile_dataset_read default_config run city_file "d.parquet" _
               Hs ltac:(simpl; lia) eq_refl). reflexivity. }
  assert (Hr : result (profile_dataset default_config run city_file "d.parquet")
               = Raise (KeyError "values")).
  { rewrite (one_column_request default_config run city_file "d.parquet"
               "city" "Categorical"
               [Some (VStr "a"); Some (VStr "a"); Some (VStr "b")] Hs
               ltac:(simpl; lia) eq_refl).
    unfold profile_column. cbn [pl.dtype].
    change (_is_numeric_dtype "Categorical") with false.
    change (_is_datetime_dtype "Categorical") with false.
    change (_is_categorical_dtype "Categorical") with true.
    cbn iota.
    rewrite profile_categorical_key_error;
      [reflexivity | discriminate | reflexivity | discriminate | discriminate]. }
  destruct (profile_dataset default_config run city_file "d.parquet")
    as [t r]. simpl in Ht, Hr. now subst.
Qed.

(** On a Categorical column that is called ["values"] the pairs are read
    back; null is then counted as a group like any value: with two nulls
    and one ["a"], the null group is at the top of [top_k], which is not
    the head of any ordering of the groups of the non-null values. *)
Lemma top_k_counts_the_null_group :
  exists p cp cs,
    result (profile_dataset default_config run_first_seen null_text_file
              "d.parquet") = Ok p
    /\ columns p = [("values", cp)]
    /\ categorical_stats cp = Some cs
    /\ top_k cs = [ {| te_value := None; te_count := 2 |};
                    {| te_value := Some (VStr "a"); te_count := 1 |} ]
    /\ ~ exists groups,
           Permutation groups
             (group_counts (filter not_null null_text_cells))
           /\ top_k cs = map entry_of_group (head_list 5 groups).
Proof.
  eexists. eexists. eexists. split; [vm_compute; reflexivity|].
  split; [reflexivity|]. split; [reflexivity|]. split; [reflexivity|].
  intros (groups & Hperm & Htop).
  assert (Hin : In (None, 2%nat) groups).
  { destruct groups as [|[v n] gs]; [discriminate Htop|].
    unfold head_list in Htop; simpl in Htop.
    assert (He : {| te_value := None; te_count := 2 |}
                 = entry_of_group (v, n)) by congruence.
    unfold entry_of_group in He; simpl in He.
    injection He as Hv Hn. left. f_equal; [now symmetry | lia]. }
  apply (Permutation_in _ Hperm) in Hin.
  vm_compute in Hin. destruct Hin as [Hin | []]. discriminate Hin.
Qed.

(** What [top_k] holds when it is produced.  Whenever a column's profile
    carries a categorical block,
    the column is Categorical and [top_k] is obtained by grouping the
    column's values by exact value, null forming a group of its own,
    counting each group, ordering the groups by descending count, and
    keeping the head of [K] = [MAX_TOP_K] (5 unless configured) groups as
    [{value, count}] pairs; the counts are non-increasing, and for [K] not
    negative there are at most [K] pairs. *)
Theorem top_k_properties cfg run rc idx s cp cs :
  profile_column cfg run rc idx s = Ok cp ->
  categorical_stats cp = Some cs ->
  MAX_TOP_K default_config = 5%Z
  /\ _is_categorical_dtype (pl.dtype s) = true
  /\ (exists groups,
        Permutation groups (group_counts (pl.cells s))
        /\ StronglySorted (fun a b => (snd b <= snd a)%nat) groups
        /\ top_k cs = map entry_of_group (head_list (MAX_TOP_K cfg) groups))
  /\ ((0 <= MAX_TOP_K cfg)%Z ->
      (Z.of_nat (List.length (top_k cs)) <= MAX_TOP_K cfg)%Z)
  /\ StronglySorted (fun a b => (te_count b <= te_count a)%Z) (top_k cs).
Proof.
  intros Hcp Hcs.
  destruct (categorical_of_profile cfg run rc idx s cp cs Hcp Hcs)
    as [Hcat Hok].
  destruct (profile_categorical_ok run s (MAX_TOP_K cfg) cs Hok)
    as (groups & Hperm & Hsorted & Htop).
  split; [reflexivity|]. split; [exact Hcat|].
  split; [exists groups; now repeat split|].
  rewrite Htop. split.
  - intro HK. rewrite length_map. now apply head_list_length.
  - apply StronglySorted_map, StronglySorted_head_list.
    eapply StronglySorted_ind with (P := StronglySorted _);
      [constructor | | exact Hsorted].
    intros a l _ IH Hall. constructor; [exact IH|].
    eapply Forall_impl; [|exact Hall].
    intros b Hb. unfold entry_of_group; simpl in *. lia.
Qed.

(** Scenario C: the column ["a", "a", "b", "c"], called ["values"]. *)
Definition scenario_C_column : pl.Series :=
  {| pl.name := "values"; pl.dtype := "Categorical";
     pl.cells := [Some (VStr "a"); Some (VStr "a"); Some (VStr "b");
                  Some (VStr "c")] |}.

Lemma top_k_properties_witness :
  exists cp cs,
    profile_column default_config run_first_seen 4 0 scenario_C_column = Ok cp
    /\ categorical_stats cp = Some cs
    /\ top_k cs = [ {| te_value := Some (VStr "a"); te_count := 2 |};
                    {| te_value := Some (VStr "b"); te_count := 1 |};
                    {| te_value := Some (VStr "c"); te_count := 1 |} ]
    /\ MAX_TOP_K default_config = 5%Z
    /\ _is_categorical_dtype (pl.dtype scenario_C_column) = true
    /\ (exists groups,
          Permutation groups (group_counts (pl.cells scenario_C_column))
          /\ StronglySorted (fun a b => (snd b <= snd a)%nat) groups
          /\ top_k cs
             = map entry_of_group
                 (head_list (MAX_TOP_K default_config) groups))
    /\ ((0 <= MAX_TOP_K default_config)%Z ->
        (Z.of_nat (List.length (top_k cs)) <= MAX_TOP_K default_config)%Z)
    /\ StronglySorted (fun a b => (te_count b <= te_count a)%Z) (top_k cs).
Proof.
  eexists. eexists. split; [vm_compute; reflexivity|].
  split; [reflexivity|]. split; [reflexivity|].
  eapply (top_k_properties default_config run_first_seen 4 0 scenario_C_column).
  - vm_compute. reflexivity.
  - reflexivity.
Defined.

(** ** Two runs of one request *)

(** Two outcomes are alike: the same exception, or values related by [R]. *)
Definition agree_outcome {A} (R : A -> A -> Prop) (x y : outcome A) : Prop :=
  match x, y with
  | Ok a, Ok b => R a b
  | Raise e1, Raise e2 => e1 = e2
  | _, _ => False
  end.

(** The counts of a [top_k], in the order of its pairs. *)
Definition top_k_counts (c : option CategoricalStats) : option (list Z) :=
  option_map (fun cs => map te_count (top_k cs)) c.

(** Two column profiles agree on every field but the contents of
    [sample_values] and the values of [top_k].  Their samples are as many,
    and the same up to order when there are fewer than five; their [top_k]
    carry the same counts in the same order. *)
Definition agree_column (a b : ColumnProfile) : Prop :=
  position a = position b
  /\ dtype a = dtype b
  /\ non_null_count a = non_null_count b
  /\ null_count a = null_count b
  /\ completeness a = completeness b
  /\ distinct_count a = distinct_count b
  /\ uniqueness a = uniqueness b
  /\ numeric_stats a = numeric_stats b
  /\ datetime_stats a = datetime_stats b
  /\ List.length (sample_values a) = List.length (sample_values b)
  /\ ((List.length (sample_values a) < 5)%nat ->
      Permutation (sample_values a) (sample_values b))
  /\ top_k_counts (categorical_stats a) = top_k_counts (categorical_stats b).

Definition agree_entry (x y : string * ColumnProfile) : Prop :=
  fst x = fst y /\ agree_column (snd x) (snd y).

Definition agree_profile (p q : DatasetProfile) : Prop :=
  dataset_name p = dataset_name q
  /\ path p = path q
  /\ row_count p = row_count q
  /\ column_count p = column_count q
  /\ Forall2 agree_entry (columns p) (columns q).

Lemma head_list_same_length {A B} (n : Z) (l : list A) (l' : list B) :
  List.length l = List.length l' ->
  List.length (head_list n l) = List.length (head_list n l').
Proof.
  intro H. unfold head_list. destruct (n <? 0)%Z;
    rewrite !length_firstn, H; reflexivity.
Qed.

(** A list of counts has one descending arrangement. *)
Lemma descending_unique (l l' : list nat) :
  StronglySorted (fun a b => (b <= a)%nat) l ->
  StronglySorted (fun a b => (b <= a)%nat) l' ->
  Permutation l l' -> l = l'.
Proof.
  intro Hl. revert l'. induction Hl as [|a r Hr IH Ha]; intros l' Hl' Hp.
  - apply Permutation_nil in Hp. now subst.
  - destruct Hl' as [|b r' Hr' Hb].
    { apply Permutation_sym, Permutation_nil in Hp. discriminate Hp. }
    assert (Hab : a = b).
    { assert (Hin1 : In a (b :: r'))
        by (apply (Permutation_in _ Hp); now left).
      assert (Hin2 : In b (a :: r))
        by (apply (Permutation_in _ (Permutation_sym Hp)); now left).
      destruct Hin1 as [-> | Hin1]; [reflexivity|].
      destruct Hin2 as [-> | Hin2]; [reflexivity|].
      pose proof (proj1 (Forall_forall _ _) Hb a Hin1) as H1.
      pose proof (proj1 (Forall_forall _ _) Ha b Hin2) as H2.
      cbv beta in H1, H2. lia. }
    subst b. f_equal. apply IH; [exact Hr'|].
    eapply Permutation_cons_inv, Hp.
Qed.

(** The counts of the groups, in descending order, do not depend on the
    order the groups were sorted from. *)
Lemma sorted_counts_agree (g1 g2 l : list (cell * nat)) :
  Permutation g1 l -> Permutation g2 l ->
  StronglySorted (fun a b => (snd b <= snd a)%nat) g1 ->
  StronglySorted (fun a b => (snd b <= snd a)%nat) g2 ->
  map snd g1 = map snd g2.
Proof.
  intros Hp1 Hp2 Hs1 Hs2. apply descending_unique.
  - now apply (StronglySorted_map (fun a b => (b <= a)%nat) snd).
  - now apply (StronglySorted_map (fun a b => (b <= a)%nat) snd).
  - apply Permutation_map.
    eapply perm_trans; [exact Hp1 | apply Permutation_sym, Hp2].
Qed.

Lemma entry_counts (K : Z) (g : list (cell * nat)) :
  map te_count (map entry_of_group (head_list K g))
  = map Z.of_nat (head_list K (map snd g)).
Proof. rewrite head_list_map, !map_map. reflexivity. Qed.

Lemma sample_values_agree run1 run2 s :
  List.length (_sample_values run1 s 5) = List.length (_sample_values run2 s 5).
Proof.
  rewrite !sample_values_unfold, !length_firstn.
  now rewrite (Permutation_length (unique_order_perm run1 _)),
              (Permutation_length (unique_order_perm run2 _)).
Qed.

Lemma sample_values_permuted run1 run2 s :
  (List.length (_sample_values run1 s 5) < 5)%nat ->
  Permutation (_sample_values run1 s 5) (_sample_values run2 s 5).
Proof.
  rewrite !sample_values_unfold, length_firstn. intro H.
  pose proof (unique_order_perm run1 (observed s)) as H1.
  pose proof (unique_order_perm run2 (observed s)) as H2.
  pose proof (Permutation_length H1) as L1.
  pose proof (Permutation_length H2) as L2.
  rewrite !firstn_all2 by lia.
  eapply perm_trans; [exact H1 | apply Permutation_sym, H2].
Qed.

Lemma profile_categorical_agree run1 run2 s K :
  agree_outcome
    (fun a b => map te_count (top_k a) = map te_count (top_k b))
    (_profile_categorical run1 s K) (_profile_categorical run2 s K).
Proof.
  destruct (pl.cells s) as [|c0 rest] eqn:Ec.
  { unfold _profile_categorical, pl.len. rewrite Ec. reflexivity. }
  destruct (String.eqb (pl.name s) "count") eqn:Ename.
  { unfold _profile_categorical, pl.len, pl.value_counts.
    rewrite Ec, Ename. reflexivity. }
  apply String.eqb_neq in Ename.
  assert (Hcells : pl.cells s <> []) by (rewrite Ec; discriminate).
  destruct (profile_categorical_eval run1 s K Hcells Ename)
    as (g1 & Hp1 & Hs1 & ->).
  destruct (profile_categorical_eval run2 s K Hcells Ename)
    as (g2 & Hp2 & Hs2 & ->).
  assert (Hlen : List.length (head_list K g1) = List.length (head_list K g2)).
  { apply head_list_same_length.
    now rewrite (Permutation_length Hp1), (Permutation_length Hp2). }
  destruct (String.eqb (pl.name s) "values").
  - cbn [agree_outcome top_k]. rewrite !entry_counts.
    now rewrite (sorted_counts_agree g1 g2 _ Hp1 Hp2 Hs1 Hs2).
  - destruct (head_list K g1), (head_list K g2); try discriminate Hlen;
      reflexivity.
Qed.

Ltac agree_fields Hlen Hperm :=
  repeat match goal with |- _ /\ _ => split end;
  first [reflexivity | exact Hlen | exact Hperm | idtac].

Lemma profile_column_agree cfg run1 run2 rc idx s :
  agree_outcome agree_column
    (profile_column cfg run1 rc idx s) (profile_column cfg run2 rc idx s).
Proof.
  pose proof (sample_values_agree run1 run2 s) as Hsv.
  pose proof (sample_values_permuted run1 run2 s) as Hsp.
  unfold profile_column.
  destruct (_is_numeric_dtype (pl.dtype s)).
  { destruct (_profile_numeric s); cbn [obind agree_outcome];
      [|reflexivity].
    unfold agree_column; cbn -[_sample_values]. agree_fields Hsv Hsp. }
  destruct (_is_datetime_dtype (pl.dtype s)).
  { destruct (0 <? rc - Z.of_nat (pl.null_count s))%Z;
      unfold agree_outcome, agree_column; cbn -[_sample_values];
      agree_fields Hsv Hsp. }
  destruct (_is_categorical_dtype (pl.dtype s)).
  - pose proof (profile_categorical_agree run1 run2 s (MAX_TOP_K cfg)) as Hc.
    destruct (_profile_categorical run1 s (MAX_TOP_K cfg)),
             (_profile_categorical run2 s (MAX_TOP_K cfg));
      cbn [obind agree_outcome] in *; try contradiction; [|exact Hc].
    unfold agree_column; cbn -[_sample_values]. agree_fields Hsv Hsp.
    now rewrite Hc.
  - unfold agree_outcome, agree_column; cbn -[_sample_values].
    agree_fields Hsv Hsp.
Qed.

Lemma dict_set_agree acc1 acc2 col cp1 cp2 :
  Forall2 agree_entry acc1 acc2 -> agree_column cp1 cp2 ->
  Forall2 agree_entry (dict_set acc1 col cp1) (dict_set acc2 col cp2).
Proof.
  intros Hacc Hcp. induction Hacc as [|[k1 v1] [k2 v2] r1 r2 [Hk Hv] Hr IH];
    simpl.
  - constructor; [split; [reflexivity | exact Hcp] | constructor].
  - simpl in Hk. subst k2. destruct (String.eqb k1 col).
    + constructor; [split; [reflexivity | exact Hcp] | exact Hr].
    + constructor; [split; [reflexivity | exact Hv] | exact IH].
Qed.

Lemma profile_columns_agree cfg run1 run2 df rc todo acc1 acc2 :
  Forall2 agree_entry acc1 acc2 ->
  agree_outcome (Forall2 agree_entry)
    (profile_columns cfg run1 df rc todo acc1)
    (profile_columns cfg run2 df rc todo acc2).
Proof.
  revert acc1 acc2; induction todo as [|[idx col] rest IH];
    intros acc1 acc2 Hacc; simpl; [exact Hacc|].
  destruct (pl.getitem df col) as [s|e]; simpl; [|reflexivity].
  pose proof (profile_column_agree cfg run1 run2 rc idx s) as Hc.
  destruct (profile_column cfg run1 rc idx s),
           (profile_column cfg run2 rc idx s);
    simpl in *; try contradiction; [|exact Hc].
  apply IH, dict_set_agree; assumption.
Qed.

Lemma assemble_agree cfg run1 run2 path df :
  agree_outcome agree_profile
    (assemble cfg run1 path df) (assemble cfg run2 path df).
Proof.
  unfold assemble.
  pose proof (profile_columns_agree cfg run1 run2 df
                (Z.of_nat (pl.height df)) (enumerate (pl.columns df))
                [] [] (Forall2_nil _)) as Hc.
  destruct (profile_columns cfg run1 _ _ _ _),
           (profile_columns cfg run2 _ _ _ _);
    simpl in *; try contradiction; [|exact Hc].
  repeat split. exact Hc.
Qed.

(** A file whose only column is the text column ["a"], ["b"]. *)
Definition text_file : FileSystem :=
  fun _ => Some (one_column "city" "String"
                   [Some (VStr "a"); Some (VStr "b")]).

(** C9, as the spec states it, fails: [unique()] returns the distinct
    values of a text column in an order that changes from one process to
    the next, so the same file and configuration are profiled with the
    samples ["a"], ["b"] in one run and ["b"], ["a"] in another, and the two
    outputs differ. *)
Lemma two_runs_differ :
  (exists p1 p2 cp1 cp2,
     result (profile_dataset default_config run_first_seen text_file "d.csv")
     = Ok p1
     /\ result (profile_dataset default_config run_second text_file "d.csv")
        = Ok p2
     /\ columns p1 = [("city", cp1)]
     /\ columns p2 = [("city", cp2)]
     /\ sample_values cp1 = [Some (VStr "a"); Some (VStr "b")]
     /\ sample_values cp2 = [Some (VStr "b"); Some (VStr "a")])
  /\ profile_dataset default_config run_first_seen text_file "d.csv"
     <> profile_dataset default_config run_second text_file "d.csv".
Proof.
  split.
  { do 4 eexists. split; [vm_compute; reflexivity|].
    split; [vm_compute; reflexivity|]. repeat split. }
  intro H.
  assert (Hs : forall m : M DatasetProfile,
             m = profile_dataset default_config run_second
                   text_file "d.csv" ->
             match result m with
             | Ok p => map (fun c => sample_values (snd c)) (columns p)
             | Raise _ => []
             end = [[Some (VStr "b"); Some (VStr "a")]]).
  { intros m ->. vm_compute. reflexivity. }
  specialize (Hs _ H). vm_compute in Hs. discriminate Hs.
Qed.

(** C9, amended. Two runs on the same path, file system and configuration
    read the same files and end alike: with the same exception, or with two
    profiles that agree on every field except the contents of
    [sample_values] and the values of the categorical [top_k].  Of these,
    [sample_values] has as many entries in both runs, the same ones up to
    order when they are fewer than five, and [top_k] carries the same
    counts in the same order. *)
Theorem two_runs_agree cfg fs path run1 run2 :
  trace (profile_dataset cfg run1 fs path)
  = trace (profile_dataset cfg run2 fs path)
  /\ agree_outcome agree_profile
       (result (profile_dataset cfg run1 fs path))
       (result (profile_dataset cfg run2 fs path)).
Proof.
  destruct (supported_dec path) as [Hs | Hs].
  2:{ rewrite !(profile_dataset_unsupported _ _ _ _ Hs). now split. }
  destruct (Z.lt_ge_cases (MAX_ROWS_PROFILE cfg) 0) as [Hneg | Hpos].
  { rewrite !(profile_dataset_negative_cap _ _ _ _ Hs Hneg). now split. }
  destruct (fs path) as [df|] eqn:Hf.
  - rewrite !(profile_dataset_read _ _ _ _ df Hs Hpos Hf).
    split; [reflexivity | apply assemble_agree].
  - rewrite !(profile_dataset_missing _ _ _ _ Hs Hpos Hf). now split.
Qed.


(** * Further properties of the profiler *)

(** ** A request that returns a profile *)

Lemma profile_dataset_ok_inv cfg run fs path p :
  result (profile_dataset cfg run fs path) = Ok p ->
  supported path
  /\ (0 <= MAX_ROWS_PROFILE cfg)%Z
  /\ exists df,
       fs path = Some df
       /\ assemble cfg run path (limited (MAX_ROWS_PROFILE cfg) df) = Ok p.
Proof.
  intro H.
  destruct (supported_dec path) as [Hs | Hs].
  2:{ rewrite (profile_dataset_unsupported cfg run fs path Hs) in H.
      discriminate H. }
  destruct (Z.lt_ge_cases (MAX_ROWS_PROFILE cfg) 0) as [Hneg | Hpos].
  { rewrite (profile_dataset_negative_cap cfg run fs path Hs Hneg) in H.
    discriminate H. }
  destruct (fs path) as [df|] eqn:Hf.
  - rewrite (profile_dataset_read cfg run fs path df Hs Hpos Hf) in H.
    split; [exact Hs|]. split; [exact Hpos|]. now exists df.
  - rewrite (profile_dataset_missing cfg run fs path Hs Hpos Hf) in H.
    discriminate H.
Qed.

(** The dict the loop builds from the profiles of the columns, stored one
    after the other under their names. *)
Definition store_all (acc : list (string * ColumnProfile))
  (names : list string) (cps : list ColumnProfile)
  : list (string * ColumnProfile) :=
  fold_left (fun d kc => dict_set d (fst kc) (snd kc)) (combine names cps) acc.

(** The loop body on the column called [col], at position [idx]. *)
Definition column_body (cfg : Config) (run : Run) (df : pl.DataFrame)
  (rc : Z) (t : nat * string) (cp : ColumnProfile) : Prop :=
  exists s, pl.getitem df (snd t) = Ok s
            /\ profile_column cfg run rc (fst t) s = Ok cp.

(** The loop returns a dict exactly when every body does, and the dict
    stores their profiles in turn. *)
Lemma profile_columns_iff cfg run df rc todo acc res :
  profile_columns cfg run df rc todo acc = Ok res
  <-> exists cps,
        Forall2 (column_body cfg run df rc) todo cps
        /\ res = store_all acc (map snd todo) cps.
Proof.
  revert acc; induction todo as [|[idx col] rest IH]; intro acc; simpl.
  - split.
    + intro H. injection H as <-. exists []. split; [constructor | reflexivity].
    + intros (cps & HF & ->). inversion HF; subst. reflexivity.
  - split.
    + intro H. destruct (pl.getitem df col) as [s|e] eqn:Eg; simpl in H;
        [|discriminate H].
      destruct (profile_column cfg run rc idx s) as [cp|e] eqn:Ec;
        simpl in H; [|discriminate H].
      apply IH in H as (cps & HF & ->).
      exists (cp :: cps). split; [|reflexivity].
      constructor; [|exact HF]. exists s. now split.
    + intros (cps & HF & ->). inversion HF as [|t cp r cs Hb HF']; subst.
      destruct Hb as (s & Hg & Hc). simpl in Hg, Hc.
      rewrite Hg. simpl. rewrite Hc. simpl.
      apply IH. exists cs. split; [exact HF' | reflexivity].
Qed.

Lemma dict_set_Forall {V} (P : V -> Prop) (d : list (string * V)) k v :
  Forall (fun e => P (snd e)) d -> P v ->
  Forall (fun e => P (snd e)) (dict_set d k v).
Proof.
  intros Hd Hv. induction Hd as [|[k' v'] r He Hr IH]; simpl.
  - repeat constructor. exact Hv.
  - destruct (String.eqb k' k); constructor; assumption.
Qed.

Lemma store_all_Forall (P : ColumnProfile -> Prop) acc names cps :
  Forall (fun e => P (snd e)) acc -> Forall P cps ->
  Forall (fun e => P (snd e)) (store_all acc names cps).
Proof.
  unfold store_all. revert acc cps; induction names as [|n r IH];
    intros acc cps Hacc Hcps; [exact Hacc|].
  destruct cps as [|c cs]; [exact Hacc|]. simpl.
  inversion Hcps; subst. apply IH; [|assumption].
  now apply dict_set_Forall.
Qed.

Lemma dict_set_fresh {V} (d : list (string * V)) k v :
  ~ In k (map fst d) -> dict_set d k v = d ++ [(k, v)].
Proof.
  induction d as [|[k' v'] r IH]; simpl; intro H; [reflexivity|].
  destruct (String.eqb k' k) eqn:E.
  - apply String.eqb_eq in E. subst. exfalso. apply H. now left.
  - f_equal. apply IH. intro Hin. apply H. now right.
Qed.

(** With names that are all different, storing is appending. *)
Lemma store_all_fresh acc names cps :
  NoDup (map fst acc ++ names) -> List.length names = List.length cps ->
  store_all acc names cps = acc ++ combine names cps.
Proof.
  unfold store_all. revert acc cps; induction names as [|n r IH];
    intros acc cps Hnd Hlen; simpl.
  - now rewrite app_nil_r.
  - destruct cps as [|c cs]; [discriminate Hlen|]. simpl.
    rewrite dict_set_fresh.
    + rewrite IH.
      * now rewrite <- app_assoc.
      * rewrite map_app, <- app_assoc. exact Hnd.
      * simpl in Hlen. lia.
    + apply NoDup_remove_2 in Hnd. intro Hin. apply Hnd.
      apply in_or_app. now left.
Qed.

(** ** Columns of a frame *)

Lemma getitem_inv df col s :
  pl.getitem df col = Ok s ->
  pl.name s = col
  /\ exists i, pl.index_of col (pl.schema df) = Some (i, pl.dtype s)
               /\ pl.cells s = map (fun r => nth i r None) (pl.rows df).
Proof.
  unfold pl.getitem. destruct (pl.index_of col (pl.schema df)) as [[i d]|];
    intro H; [|discriminate H].
  injection H as <-. split; [reflexivity|]. exists i. now split.
Qed.

(** A column has as many cells as the frame has rows. *)
Lemma getitem_len df col s :
  pl.getitem df col = Ok s -> pl.len s = pl.height df.
Proof.
  intro H. destruct (getitem_inv df col s H) as (_ & i & _ & Hc).
  unfold pl.len, pl.height. rewrite Hc. apply length_map.
Qed.

Lemma index_of_in col schema :
  In col (map fst schema) -> exists i d, pl.index_of col schema = Some (i, d).
Proof.
  induction schema as [|[c d] r IH]; simpl; intro H; [contradiction|].
  destruct (String.eqb c col) eqn:E; [eauto|].
  destruct H as [H | H]; [subst; rewrite String.eqb_refl in E; discriminate E|].
  destruct (IH H) as (i & d' & ->). eauto.
Qed.

(** [df[col]] finds every column the frame lists. *)
Lemma getitem_listed df col :
  In col (pl.columns df) -> exists s, pl.getitem df col = Ok s.
Proof.
  intro H. unfold pl.getitem.
  destruct (index_of_in col (pl.schema df) H) as (i & d & ->). eauto.
Qed.

Lemma enumerate_snd {A} (l : list A) : map snd (enumerate l) = l.
Proof.
  unfold enumerate. generalize 0%nat.
  induction l as [|a r IH]; intro n; simpl; [reflexivity|].
  now rewrite IH.
Qed.

Lemma enumerate_fst {A} (l : list A) :
  map fst (enumerate l) = seq 0 (List.length l).
Proof.
  unfold enumerate. generalize 0%nat.
  induction l as [|a r IH]; intro n; simpl; [reflexivity|].
  now rewrite IH.
Qed.

(** ** The dtype classes *)

Lemma str_in_In x l : PyStr.str_in x l = true <-> In x l.
Proof.
  unfold PyStr.str_in. rewrite existsb_exists. split.
  - intros (y & Hy & E). apply String.eqb_eq in E. now subst.
  - intro H. exists x. split; [exact H | apply String.eqb_refl].
Qed.

(** No dtype name falls in two classes, so the order of the tests in the
    loop body does not matter. *)
Lemma dtype_classes_disjoint d :
  (_is_numeric_dtype d = true ->
   _is_datetime_dtype d = false /\ _is_categorical_dtype d = false)
  /\ (_is_datetime_dtype d = true -> _is_categorical_dtype d = false).
Proof.
  split.
  - intro H. apply str_in_In in H. unfold NUMERIC_DTYPES in H. simpl in H.
    repeat (destruct H as [<- | H]; [split; reflexivity|]). contradiction.
  - intro H. destruct (_is_categorical_dtype d) eqn:Ec; [|reflexivity].
    apply str_in_In in Ec. simpl in Ec.
    destruct Ec as [<- | [<- | []]]; discriminate H.
Qed.

(** X1. A column profile carries the numeric block exactly for a Numeric
    dtype, the datetime block exactly for a Datetime dtype and the
    categorical block exactly for a Categorical dtype; the classes being
    disjoint, it carries at most one block, and none for any other dtype. *)
Theorem typed_block_matches_class cfg run rc idx s cp :
  profile_column cfg run rc idx s = Ok cp ->
  (numeric_stats cp <> None <-> _is_numeric_dtype (pl.dtype s) = true)
  /\ (datetime_stats cp <> None <-> _is_datetime_dtype (pl.dtype s) = true)
  /\ (categorical_stats cp <> None
      <-> _is_categorical_dtype (pl.dtype s) = true)
  /\ (numeric_stats cp = None /\ datetime_stats cp = None
      \/ numeric_stats cp = None /\ categorical_stats cp = None
      \/ datetime_stats cp = None /\ categorical_stats cp = None).
Proof.
  intro H. destruct (dtype_classes_disjoint (pl.dtype s)) as [Hn Hd].
  unfold profile_column in H.
  destruct (_is_numeric_dtype (pl.dtype s)) eqn:En.
  { destruct (Hn eq_refl) as [-> ->].
    destruct (_profile_numeric s); simpl in H; [|discriminate H].
    injection H as <-. simpl.
    repeat split; try discriminate; try congruence.
    right; right. now split. }
  destruct (_is_datetime_dtype (pl.dtype s)) eqn:Ed.
  { rewrite (Hd eq_refl).
    destruct (0 <? rc - Z.of_nat (pl.null_count s))%Z;
      injection H as <-; simpl;
      (repeat split; try discriminate; try congruence);
      right; left; now split. }
  destruct (_is_categorical_dtype (pl.dtype s)) eqn:Ec.
  { destruct (_profile_categorical run s (MAX_TOP_K cfg)); simpl in H;
      [|discriminate H].
    injection H as <-. simpl.
    repeat split; try discriminate; try congruence.
    left. now split. }
  injection H as <-. simpl.
  repeat split; try discriminate; try congruence.
  left. now split.
Qed.

Definition date_column : pl.Series :=
  {| pl.name := "day"; pl.dtype := "Date";
     pl.cells := [Some (VTime 3); None; Some (VTime 1)] |}.

Lemma typed_block_matches_class_witness :
  exists cp,
    profile_column default_config run_first_seen 3 0 date_column = Ok cp
    /\ (numeric_stats cp <> None
        <-> _is_numeric_dtype (pl.dtype date_column) = true)
    /\ (datetime_stats cp <> None
        <-> _is_datetime_dtype (pl.dtype date_column) = true)
    /\ (categorical_stats cp <> None
        <-> _is_categorical_dtype (pl.dtype date_column) = true)
    /\ (numeric_stats cp = None /\ datetime_stats cp = None
        \/ numeric_stats cp = None /\ categorical_stats cp = None
        \/ datetime_stats cp = None /\ categorical_stats cp = None).
Proof.
  eexists. split; [vm_compute; reflexivity|].
  apply (typed_block_matches_class default_config run_first_seen 3 0
           date_column).
  vm_compute. reflexivity.
Defined.

(** ** Every column of a profile *)

Lemma assemble_inv cfg run path df p :
  assemble cfg run path df = Ok p ->
  exists cols,
    profile_columns cfg run df (Z.of_nat (pl.height df))
      (enumerate (pl.columns df)) [] = Ok cols
    /\ p = {| dataset_name := PyStr.basename path;
              path := path;
              row_count := Z.of_nat (pl.height df);
              column_count := List.length (pl.columns df);
              columns := cols |}.
Proof.
  unfold assemble. destruct (profile_columns _ _ _ _ _ _) as [cols|e];
    simpl; intro H; [|discriminate H].
  injection H as <-. now exists cols.
Qed.

Lemma column_bodies_Forall (P : Z -> ColumnProfile -> Prop) cfg run df
  todo cps :
  (forall idx s cp,
      profile_column cfg run (Z.of_nat (pl.len s)) idx s = Ok cp ->
      P (Z.of_nat (pl.len s)) cp) ->
  Forall2 (column_body cfg run df (Z.of_nat (pl.height df))) todo cps ->
  Forall (P (Z.of_nat (pl.height df))) cps.
Proof.
  intros HP HF. induction HF as [|t cp r cs (s & Hg & Hb) _ IH];
    constructor; [|exact IH].
  rewrite <- (getitem_len _ _ _ Hg) in *. now apply (HP (fst t) s).
Qed.

(** What holds of the loop body on every column of matching length holds
    of every column of every profile. *)
Lemma every_column (P : Z -> ColumnProfile -> Prop) cfg run :
  (forall idx s cp,
      profile_column cfg run (Z.of_nat (pl.len s)) idx s = Ok cp ->
      P (Z.of_nat (pl.len s)) cp) ->
  forall fs path p,
    result (profile_dataset cfg run fs path) = Ok p ->
    Forall (fun e => P (row_count p) (snd e)) (columns p).
Proof.
  intros HP fs path p H.
  destruct (profile_dataset_ok_inv cfg run fs path p H)
    as (_ & _ & df & _ & Ha).
  destruct (assemble_inv _ _ _ _ _ Ha) as (cols & Hc & ->). simpl.
  apply profile_columns_iff in Hc as (cps & HF & ->).
  apply store_all_Forall; [constructor|].
  eapply column_bodies_Forall; eassumption.
Qed.

Lemma Q2R_Q2Qc (q : Q) : Q2R (Q2Qc q) = Q2R q.
Proof. apply Qeq_eqR. simpl. apply Qred_correct. Qed.

Lemma Q2R_inject_Z (z : Z) : Q2R (inject_Z z) = IZR z.
Proof. unfold Q2R, inject_Z; simpl. lra. Qed.

(** [true_div] is the quotient of its arguments. *)
Lemma Rof_true_div (a b : Z) :
  b <> 0%Z -> Rof (true_div a b) = (IZR a / IZR b)%R.
Proof.
  intro Hb. unfold true_div, Rof, Qcdiv, Qcmult, Qcinv.
  rewrite Q2R_Q2Qc, Q2R_mult, !Q2R_Q2Qc.
  rewrite Q2R_inv.
  - now rewrite !Q2R_Q2Qc, !Q2R_inject_Z.
  - intro H.
    assert (H0 : inject_Z b == 0).
    { rewrite <- (Qred_correct (inject_Z b)). exact H. }
    unfold Qeq, inject_Z in H0; simpl in H0. lia.
Qed.

Lemma Rof_zero : Rof (FRat (Q2Qc 0)) = 0%R.
Proof. unfold Rof. rewrite Q2R_Q2Qc. unfold Q2R; simpl. lra. Qed.

(** The counts of a column against the number of rows [rc]. *)
Definition counts_ok (rc : Z) (c : ColumnProfile) : Prop :=
  (non_null_count c + null_count c = rc)%Z
  /\ (0 <= non_null_count c)%Z
  /\ (0 <= null_count c)%Z
  /\ (0 <= Rof (completeness c) <= 1)%R
  /\ (Rof (completeness c) * IZR rc = IZR (non_null_count c))%R
  /\ (Rof (completeness c) = 0%R <-> non_null_count c = 0%Z).

Lemma counts_ok_body cfg run idx s cp :
  profile_column cfg run (Z.of_nat (pl.len s)) idx s = Ok cp ->
  counts_ok (Z.of_nat (pl.len s)) cp.
Proof.
  intro H.
  destruct (base_fields _ _ _ _ _ _ H) as (_ & _ & Hnn & Hn & Hc & _ & _).
  assert (Hle : (pl.null_count s <= pl.len s)%nat) by apply filter_length_le.
  unfold counts_ok. rewrite Hnn, Hn, Hc.
  set (rc := Z.of_nat (pl.len s)) in *.
  set (nulls := Z.of_nat (pl.null_count s)) in *.
  assert (Hr : (0 <= nulls <= rc)%Z) by (unfold rc, nulls; lia).
  split; [lia|]. split; [lia|]. split; [lia|].
  destruct (0 <? rc)%Z eqn:E.
  - apply Z.ltb_lt in E. rewrite Rof_true_div by lia.
    assert (Hrc : (0 < IZR rc)%R) by (apply IZR_lt; exact E).
    assert (Hnum : (0 <= IZR (rc - nulls) <= IZR rc)%R)
      by (split; apply IZR_le; lia).
    split.
    { split.
      - apply Rmult_le_pos; [lra | left; now apply Rinv_0_lt_compat].
      - apply (Rmult_le_reg_r (IZR rc)); [exact Hrc|].
        unfold Rdiv. rewrite Rmult_assoc, Rinv_l by lra. lra. }
    split; [unfold Rdiv; rewrite Rmult_assoc, Rinv_l by lra; lra|].
    split.
    + intro H0. apply eq_IZR.
      apply (f_equal (fun x => (x * IZR rc)%R)) in H0.
      unfold Rdiv in H0. rewrite Rmult_assoc, Rinv_l in H0 by lra. lra.
    + intro H0. rewrite H0. unfold Rdiv. lra.
  - apply Z.ltb_ge in E. rewrite Rof_zero.
    assert (rc = 0%Z) by lia. assert (nulls = 0%Z) by lia.
    replace (rc - nulls)%Z with 0%Z by lia.
    split; [lra|]. split; [lra|]. split; intro; [reflexivity | reflexivity].
Qed.

(** X2. In every profile, the two counts of each column are not negative
    and add up to [row_count], and completeness is the share of non-null
    cells: between 0 and 1, and 0 exactly when no cell is non-null. *)
Theorem counts_partition_rows cfg run fs path p :
  result (profile_dataset cfg run fs path) = Ok p ->
  Forall (fun e => counts_ok (row_count p) (snd e)) (columns p).
Proof.
  apply (every_column counts_ok cfg run). intros idx s cp.
  apply counts_ok_body.
Qed.

Definition mixed_table : pl.DataFrame :=
  {| pl.schema := [("id", "Int64"); ("day", "Date"); ("flag", "Boolean")];
     pl.rows := [ [Some (VInt 1); Some (VTime 3); None];
                  [Some (VInt 2); None; Some (VBool true)];
                  [Some (VInt 2); Some (VTime 1); None] ] |}.

Definition mixed_file : FileSystem := fun _ => Some mixed_table.

Lemma counts_partition_rows_witness :
  exists p,
    result (profile_dataset default_config run_first_seen mixed_file
              "m.parquet") = Ok p
    /\ row_count p = 3%Z
    /\ Forall (fun e => counts_ok (row_count p) (snd e)) (columns p).
Proof.
  eexists. split; [vm_compute; reflexivity|]. split; [reflexivity|].
  apply (counts_partition_rows default_config run_first_seen mixed_file
           "m.parquet").
  vm_compute. reflexivity.
Defined.

(** The distinct count and uniqueness of a column. *)
Definition distinct_ok (c : ColumnProfile) : Prop :=
  (0 <= distinct_count c <= non_null_count c + 1)%Z
  /\ (0 < non_null_count c -> 1 <= distinct_count c)%Z
  /\ (0 <= Rof (uniqueness c) <= 2)%R
  /\ (Rof (uniqueness c) * IZR (non_null_count c)
      = IZR (if (0 <? non_null_count c)%Z then distinct_count c else 0))%R
  /\ (Rof (uniqueness c) = 0%R <-> non_null_count c = 0%Z)
  /\ (null_count c = 0%Z ->
      (distinct_count c <= non_null_count c)%Z
      /\ (Rof (uniqueness c) <= 1)%R).

Lemma distinct_ok_body cfg run idx s cp :
  profile_column cfg run (Z.of_nat (pl.len s)) idx s = Ok cp ->
  distinct_ok cp.
Proof.
  intro H.
  destruct (base_metrics cfg run idx s cp H) as (_ & Hnn & Hd1 & Hd0 & Hu0).
  destruct (base_fields _ _ _ _ _ _ H) as (_ & _ & Enn & En & _ & Ed & Eu).
  rewrite <- Enn, <- Ed in Eu.
  assert (Hdpos : (0 <= distinct_count cp)%Z) by (rewrite Ed; lia).
  assert (Hd1' : (0 < non_null_count cp -> 1 <= distinct_count cp)%Z).
  { intro Hpos. rewrite Ed, Enn in *.
    assert (pl.cells s <> []).
    { unfold pl.len in *. destruct (pl.cells s); [simpl in *; lia | discriminate]. }
    pose proof (first_seen_nonempty _ H0) as Hne. unfold pl.n_unique.
    destruct (first_seen (pl.cells s)); [contradiction | simpl; lia]. }
  unfold distinct_ok. rewrite Eu.
  split; [lia|]. split; [exact Hd1'|].
  destruct (0 <? non_null_count cp)%Z eqn:E.
  - apply Z.ltb_lt in E. rewrite Rof_true_div by lia.
    set (d := distinct_count cp) in *. set (n := non_null_count cp) in *.
    assert (Hn : (1 <= IZR n)%R) by (apply IZR_le; lia).
    assert (Hd : (1 <= IZR d <= IZR n + 1)%R).
    { split; [apply IZR_le; lia|]. rewrite <- plus_IZR. apply IZR_le; lia. }
    assert (Hq : (IZR d / IZR n * IZR n = IZR d)%R)
      by (unfold Rdiv; rewrite Rmult_assoc, Rinv_l by lra; lra).
    assert (Hinv : (0 < / IZR n <= 1)%R).
    { split; [apply Rinv_0_lt_compat; lra|].
      rewrite <- Rinv_1. apply Rinv_le_contravar; lra. }
    split.
    { split; [apply Rmult_le_pos; lra|].
      apply (Rmult_le_reg_r (IZR n)); [lra|]. rewrite Hq. nra. }
    split; [exact Hq|]. split.
    { split; [intro H0; rewrite H0 in Hq; lra | intro; lia]. }
    intro Hz. pose proof (Hd0 Hz) as Hle. split; [exact Hle|].
    apply (Rmult_le_reg_r (IZR n)); [lra|]. rewrite Hq.
    rewrite Rmult_1_l. apply IZR_le. exact Hle.
  - apply Z.ltb_ge in E. assert (Hz : non_null_count cp = 0%Z) by lia.
    rewrite Rof_zero, Hz. split; [lra|]. split; [lra|].
    split; [split; reflexivity|].
    intro Hn0. pose proof (Hd0 Hn0). split; [lia | lra].
Qed.

(** X3. In every profile, each column's [distinct_count] is at most its
    [non_null_count] plus one (the null counts as a value), and at least 1
    when some cell is non-null; uniqueness is [distinct_count] over
    [non_null_count], between 0 and 2, and 0 exactly when no cell is
    non-null; a column without nulls has [distinct_count <=
    non_null_count] and uniqueness at most 1. *)
Theorem distinct_and_uniqueness_bounds cfg run fs path p :
  result (profile_dataset cfg run fs path) = Ok p ->
  Forall (fun e => distinct_ok (snd e)) (columns p).
Proof.
  apply (every_column (fun _ => distinct_ok) cfg run). intros idx s cp.
  apply distinct_ok_body.
Qed.

Lemma distinct_and_uniqueness_bounds_witness :
  exists p,
    result (profile_dataset default_config run_first_seen mixed_file
              "m.parquet") = Ok p
    /\ map (fun e => distinct_count (snd e)) (columns p) = [2%Z; 3%Z; 2%Z]
    /\ Forall (fun e => distinct_ok (snd e)) (columns p).
Proof.
  eexists. split; [vm_compute; reflexivity|]. split; [reflexivity|].
  apply (distinct_and_uniqueness_bounds default_config run_first_seen
           mixed_file "m.parquet").
  vm_compute. reflexivity.
Defined.

(** ** Order of the columns *)

Lemma index_of_nodup col d schema :
  NoDup (map fst schema) -> In (col, d) schema ->
  exists i, pl.index_of col schema = Some (i, d).
Proof.
  induction schema as [|[c d'] r IH]; simpl; intros Hnd Hin; [contradiction|].
  inversion Hnd as [|? ? Hnotin Hnd']; subst.
  destruct Hin as [Heq | Hin].
  - injection Heq as -> ->. rewrite String.eqb_refl. eauto.
  - destruct (String.eqb c col) eqn:E.
    + apply String.eqb_eq in E. subst c. exfalso. apply Hnotin.
      apply in_map_iff. exists (col, d). now split.
    + destruct (IH Hnd' Hin) as (i & ->). eauto.
Qed.

Lemma combine_fst {A B} (l : list A) (l' : list B) :
  List.length l = List.length l' -> map fst (combine l l') = l.
Proof.
  revert l'; induction l as [|a r IH]; intros [|b r'] H; simpl in *;
    try reflexivity; try discriminate H.
  f_equal. apply IH. lia.
Qed.

Lemma combine_snd {A B} (l : list A) (l' : list B) :
  List.length l = List.length l' -> map snd (combine l l') = l'.
Proof.
  revert l'; induction l as [|a r IH]; intros [|b r'] H; simpl in *;
    try reflexivity; try discriminate H.
  f_equal. apply IH. lia.
Qed.

Lemma bodies_positions cfg run df rc todo cps :
  Forall2 (column_body cfg run df rc) todo cps ->
  map position cps = map fst todo.
Proof.
  induction 1 as [|t cp r cs (s & _ & Hb) _ IH]; simpl; [reflexivity|].
  destruct (base_fields _ _ _ _ _ _ Hb) as (-> & _). now rewrite IH.
Qed.

Lemma bodies_dtypes cfg run df rc todo cps :
  NoDup (pl.columns df) ->
  Forall2 (column_body cfg run df rc) todo cps ->
  forall sub,
    incl sub (pl.schema df) -> map snd todo = map fst sub ->
    map dtype cps = map snd sub.
Proof.
  intros Hnd HF.
  induction HF as [|t cp r cs (s & Hg & Hb) _ IH]; intros sub Hincl Hmap.
  - destruct sub; [reflexivity | discriminate].
  - destruct sub as [|[c d] sub']; [discriminate|].
    simpl in Hmap. injection Hmap as Hc Hrest. simpl. f_equal.
    + destruct (base_fields _ _ _ _ _ _ Hb) as (_ & -> & _).
      destruct (getitem_inv _ _ _ Hg) as (_ & i & Hi & _).
      destruct (index_of_nodup c d (pl.schema df) Hnd) as (j & Hj).
      { apply Hincl. now left. }
      rewrite Hc, Hj in Hi. now injection Hi as _ ->.
    + apply IH; [|exact Hrest].
      intros x Hx. apply Hincl. now right.
Qed.

(** X4. When the column names of the file are all different, the profile
    lists the columns in the file's order under their names, each with its
    0-based position and its dtype, and [column_count] is their number. *)
Theorem columns_in_physical_order cfg run fs path df p :
  fs path = Some df -> NoDup (pl.columns df) ->
  result (profile_dataset cfg run fs path) = Ok p ->
  map fst (columns p) = pl.columns df
  /\ map (fun e => position (snd e)) (columns p)
     = seq 0 (List.length (pl.columns df))
  /\ map (fun e => dtype (snd e)) (columns p) = map snd (pl.schema df)
  /\ column_count p = List.length (columns p).
Proof.
  intros Hf Hnd H.
  destruct (profile_dataset_ok_inv cfg run fs path p H)
    as (_ & _ & df' & Hf' & Ha).
  rewrite Hf in Hf'. injection Hf' as <-.
  destruct (assemble_inv _ _ _ _ _ Ha) as (cols & Hc & ->). simpl.
  change (pl.columns (limited (MAX_ROWS_PROFILE cfg) df))
    with (pl.columns df) in *.
  apply profile_columns_iff in Hc as (cps & HF & ->).
  pose proof (Forall2_length HF) as Hlen.
  rewrite enumerate_snd in *.
  assert (Hlen' : List.length (pl.columns df) = List.length cps).
  { rewrite <- Hlen. unfold enumerate. rewrite length_combine, length_seq. lia. }
  rewrite store_all_fresh by (simpl; assumption). simpl.
  rewrite <- (map_map snd position), <- (map_map snd dtype).
  rewrite combine_fst, combine_snd by exact Hlen'.
  split; [reflexivity|]. split.
  { rewrite (bodies_positions _ _ _ _ _ _ HF). apply enumerate_fst. }
  split.
  { apply (bodies_dtypes cfg run
             (limited (MAX_ROWS_PROFILE cfg) df) _ _ cps Hnd HF
             (pl.schema df)).
    - apply incl_refl.
    - apply enumerate_snd. }
  rewrite length_combine. lia.
Qed.

Lemma columns_in_physical_order_witness :
  exists p,
    result (profile_dataset default_config run_first_seen mixed_file
              "m.parquet") = Ok p
    /\ map fst (columns p) = pl.columns mixed_table
    /\ map (fun e => position (snd e)) (columns p)
       = seq 0 (List.length (pl.columns mixed_table))
    /\ map (fun e => dtype (snd e)) (columns p) = map snd (pl.schema mixed_table)
    /\ column_count p = List.length (columns p).
Proof.
  eexists. split; [vm_compute; reflexivity|].
  apply (columns_in_physical_order default_config run_first_seen mixed_file
           "m.parquet" mixed_table).
  - reflexivity.
  - repeat constructor; simpl; intuition discriminate.
  - vm_compute. reflexivity.
Defined.

(** ** A table without rows *)

(** The profile of a column that has no cell. *)
Definition degenerate (c : ColumnProfile) : Prop :=
  non_null_count c = 0%Z
  /\ null_count c = 0%Z
  /\ completeness c = FRat (Q2Qc 0)
  /\ distinct_count c = 0%Z
  /\ uniqueness c = FRat (Q2Qc 0)
  /\ sample_values c = []
  /\ (forall ns, numeric_stats c = Some ns -> ns = all_null_block)
  /\ (forall d, datetime_stats c = Some d ->
                d = {| dt_min := None; dt_max := None |})
  /\ (forall cs, categorical_stats c = Some cs -> top_k cs = []).

Lemma sample_values_no_cells run s :
  pl.cells s = [] -> _sample_values run s 5 = [].
Proof.
  intro H. rewrite sample_values_unfold. unfold observed. rewrite H. simpl.
  pose proof (unique_order_perm run []) as Hp. simpl in Hp.
  apply Permutation_sym, Permutation_nil in Hp. now rewrite Hp.
Qed.

Lemma profile_column_no_cells cfg run idx s :
  pl.cells s = [] ->
  exists cp, profile_column cfg run 0 idx s = Ok cp /\ degenerate cp.
Proof.
  intro Hc. unfold profile_column.
  rewrite (sample_values_no_cells run s Hc).
  unfold _profile_numeric, _profile_categorical, pl.len, pl.null_count,
    pl.n_unique.
  rewrite Hc. simpl.
  destruct (_is_numeric_dtype (pl.dtype s)).
  { eexists. split; [reflexivity|]. unfold degenerate; simpl.
    repeat split; try discriminate. intros ns E. now injection E as <-. }
  destruct (_is_datetime_dtype (pl.dtype s)).
  { eexists. split; [reflexivity|]. unfold degenerate; simpl.
    repeat split; try discriminate. intros d E. now injection E as <-. }
  destruct (_is_categorical_dtype (pl.dtype s)).
  { eexists. split; [reflexivity|]. unfold degenerate; simpl.
    repeat split; try discriminate. intros cs E. now injection E as <-. }
  eexists. split; [reflexivity|]. unfold degenerate; simpl.
  repeat split; discriminate.
Qed.

Lemma bodies_no_rows cfg run df todo :
  pl.rows df = [] -> incl (map snd todo) (pl.columns df) ->
  exists cps,
    Forall2 (column_body cfg run df 0) todo cps /\ Forall degenerate cps.
Proof.
  intros Hr. induction todo as [|[idx col] rest IH]; intro Hincl.
  - exists []. split; constructor.
  - destruct IH as (cps & HF & Hd).
    { intros x Hx. apply Hincl. now right. }
    destruct (getitem_listed df col) as (s & Hg).
    { apply Hincl. now left. }
    destruct (getitem_inv _ _ _ Hg) as (_ & i & _ & Hcells).
    rewrite Hr in Hcells. simpl in Hcells.
    destruct (profile_column_no_cells cfg run idx s Hcells) as (cp & Hb & Hdeg).
    exists (cp :: cps). split; constructor; try assumption.
    exists s. now split.
Qed.

(** X5. A file without rows, or read under a row cap of 0, is always
    profiled: [row_count] is 0 and every column has zero counts, zero
    completeness and uniqueness, no sample, and a typed block (if its dtype
    has one) of nulls, or an empty [top_k]. *)
Theorem empty_table_never_fails cfg run fs path df :
  supported path -> (0 <= MAX_ROWS_PROFILE cfg)%Z -> fs path = Some df ->
  pl.rows df = [] \/ MAX_ROWS_PROFILE cfg = 0%Z ->
  exists p,
    result (profile_dataset cfg run fs path) = Ok p
    /\ row_count p = 0%Z
    /\ column_count p = List.length (pl.columns df)
    /\ Forall (fun e => degenerate (snd e)) (columns p).
Proof.
  intros Hs Hc Hf Hempty.
  rewrite (profile_dataset_read cfg run fs path df Hs Hc Hf). simpl.
  set (df0 := limited (MAX_ROWS_PROFILE cfg) df).
  assert (Hr : pl.rows df0 = []).
  { unfold df0, limited; simpl. destruct Hempty as [-> | ->];
      [apply firstn_nil | reflexivity]. }
  destruct (bodies_no_rows cfg run df0 (enumerate (pl.columns df0)) Hr)
    as (cps & HF & Hd).
  { rewrite enumerate_snd. apply incl_refl. }
  unfold assemble, pl.height. rewrite Hr. simpl.
  assert (Hcols : profile_columns cfg run df0 0 (enumerate (pl.columns df0)) []
                  = Ok (store_all [] (map snd (enumerate (pl.columns df0))) cps)).
  { apply profile_columns_iff. exists cps. now split. }
  rewrite Hcols. simpl. eexists. split; [reflexivity|]. simpl.
  split; [reflexivity|]. split; [reflexivity|].
  apply store_all_Forall; [constructor | exact Hd].
Qed.

Definition no_rows_table : pl.DataFrame :=
  {| pl.schema := [("id", "Int64"); ("city", "Categorical"); ("day", "Date")];
     pl.rows := [] |}.

Lemma parquet_supported : supported "m.parquet".
Proof. right; left. exists "m", ".parquet". split; reflexivity. Qed.

Lemma empty_table_never_fails_witness :
  exists p,
    result (profile_dataset default_config run_second
              (fun _ => Some no_rows_table) "m.parquet") = Ok p
    /\ row_count p = 0%Z
    /\ column_count p = List.length (pl.columns no_rows_table)
    /\ Forall (fun e => degenerate (snd e)) (columns p).
Proof.
  apply (empty_table_never_fails default_config run_second
           (fun _ => Some no_rows_table) "m.parquet" no_rows_table
           parquet_supported).
  - simpl. lia.
  - reflexivity.
  - left. reflexivity.
Defined.

(** ** The datetime block *)

Lemma non_null_In s v : In v (pl.non_null s) <-> In (Some v) (pl.cells s).
Proof.
  unfold pl.non_null. rewrite in_flat_map. split.
  - intros ([w|] & Hin & Hv); simpl in Hv; [|contradiction].
    destruct Hv as [<- | []]. exact Hin.
  - intro H. exists (Some v). split; [exact H | now left].
Qed.

Lemma non_null_length s :
  List.length (pl.non_null s) = (pl.len s - pl.null_count s)%nat.
Proof.
  unfold pl.non_null, pl.len, pl.null_count.
  assert (H : forall l : list cell,
             (List.length
                (flat_map (fun c : cell =>
                             match c with Some v => [v] | None => [] end) l)
              + List.length (filter pl.is_null l) = List.length l)%nat).
  { induction l as [|[v|] r IH]; simpl; [reflexivity | |]; rewrite <- IH; lia. }
  symmetry. apply Nat.add_sub_eq_r. exact (H (pl.cells s)).
Qed.

Lemma fold_pick_In (f : value -> value -> value) r x :
  (forall a b, f a b = a \/ f a b = b) -> In (fold_left f r x) (x :: r).
Proof.
  intro Hf. revert x; induction r as [|y r IH]; intro x; simpl;
    [now left|].
  destruct (IH (f x y)) as [H | H]; [|now right; right].
  rewrite <- H. destruct (Hf x y) as [-> | ->]; [now left | now right; left].
Qed.

Lemma least_pick a b : pl.least a b = a \/ pl.least a b = b.
Proof. unfold pl.least. destruct (pl.value_ltb b a); auto. Qed.

Lemma greatest_pick a b : pl.greatest a b = a \/ pl.greatest a b = b.
Proof. unfold pl.greatest. destruct (pl.value_ltb a b); auto. Qed.

Definition is_time (v : value) : Prop := exists t, v = VTime t.

Lemma least_time r : forall x,
  Forall is_time (x :: r) ->
  exists a, fold_left pl.least r x = VTime a
            /\ forall t, In (VTime t) (x :: r) -> (a <= t)%Z.
Proof.
  induction r as [|y r IH]; intros x H.
  - inversion H as [|? ? [a ->] _]; subst. exists a. split; [reflexivity|].
    intros t [Ht | []]. injection Ht as <-. lia.
  - inversion H as [|? ? [a ->] H']; subst.
    inversion H' as [|? ? [b ->] H'']; subst. simpl.
    destruct (IH (pl.least (VTime a) (VTime b))) as (m & Hm & Hle).
    { constructor; [|exact H''].
      unfold pl.least; simpl. destruct (b <? a)%Z; [now exists b | now exists a]. }
    exists m. split; [exact Hm|].
    intros t Ht.
    assert (Hab : (m <= a /\ m <= b)%Z).
    { unfold pl.least in Hle; simpl in Hle.
      destruct (b <? a)%Z eqn:E;
        [apply Z.ltb_lt in E | apply Z.ltb_ge in E];
        pose proof (Hle _ (or_introl eq_refl)); lia. }
    destruct Ht as [Ht | [Ht | Ht]].
    + injection Ht as <-. lia.
    + injection Ht as <-. lia.
    + apply Hle. now right.
Qed.

Lemma greatest_time r : forall x,
  Forall is_time (x :: r) ->
  exists b, fold_left pl.greatest r x = VTime b
            /\ forall t, In (VTime t) (x :: r) -> (t <= b)%Z.
Proof.
  induction r as [|y r IH]; intros x H.
  - inversion H as [|? ? [a ->] _]; subst. exists a. split; [reflexivity|].
    intros t [Ht | []]. injection Ht as <-. lia.
  - inversion H as [|? ? [a ->] H']; subst.
    inversion H' as [|? ? [b ->] H'']; subst. simpl.
    destruct (IH (pl.greatest (VTime a) (VTime b))) as (m & Hm & Hle).
    { constructor; [|exact H''].
      unfold pl.greatest; simpl. destruct (a <? b)%Z; [now exists b | now exists a]. }
    exists m. split; [exact Hm|].
    intros t Ht.
    assert (Hab : (a <= m /\ b <= m)%Z).
    { unfold pl.greatest in Hle; simpl in Hle.
      destruct (a <? b)%Z eqn:E;
        [apply Z.ltb_lt in E | apply Z.ltb_ge in E];
        pose proof (Hle _ (or_introl eq_refl)); lia. }
    destruct Ht as [Ht | [Ht | Ht]].
    + injection Ht as <-. lia.
    + injection Ht as <-. lia.
    + apply Hle. now right.
Qed.

(** X6. A Datetime column never makes the loop body fail.  Its block holds
    two nulls exactly when the column has no non-null cell; otherwise [min]
    and [max] are instants of the column, and every instant of the column
    lies between them. *)
Theorem datetime_block_total cfg run idx s :
  _is_datetime_dtype (pl.dtype s) = true ->
  Forall is_time (pl.non_null s) ->
  exists cp d,
    profile_column cfg run (Z.of_nat (pl.len s)) idx s = Ok cp
    /\ datetime_stats cp = Some d
    /\ (pl.non_null s = [] -> dt_min d = None /\ dt_max d = None)
    /\ (pl.non_null s <> [] ->
        exists a b,
          dt_min d = Some (VTime a) /\ dt_max d = Some (VTime b)
          /\ In (Some (VTime a)) (pl.cells s)
          /\ In (Some (VTime b)) (pl.cells s)
          /\ forall t, In (Some (VTime t)) (pl.cells s) -> (a <= t <= b)%Z).
Proof.
  intros Hd Htime.
  destruct (dtype_classes_disjoint (pl.dtype s)) as [Hn _].
  unfold profile_column.
  destruct (_is_numeric_dtype (pl.dtype s)) eqn:En.
  { destruct (Hn eq_refl) as [Hc _]. congruence. }
  rewrite Hd.
  pose proof (non_null_length s) as Hlen.
  assert (Hle : (pl.null_count s <= pl.len s)%nat) by apply filter_length_le.
  destruct (pl.non_null s) as [|x r] eqn:Enn.
  - simpl in Hlen.
    destruct (0 <? Z.of_nat (pl.len s) - Z.of_nat (pl.null_count s))%Z eqn:E;
      [apply Z.ltb_lt in E; lia|].
    eexists. eexists. split; [reflexivity|]. simpl.
    split; [reflexivity|]. split; [now split | intro H; now contradiction H].
  - simpl in Hlen.
    destruct (0 <? Z.of_nat (pl.len s) - Z.of_nat (pl.null_count s))%Z eqn:E;
      [|apply Z.ltb_ge in E; lia].
    eexists. eexists. split; [reflexivity|]. simpl.
    split; [reflexivity|]. split; [discriminate|]. intros _.
    unfold pl.min, pl.max. rewrite Enn.
    destruct (least_time r x Htime) as (a & Ha & Hmin).
    destruct (greatest_time r x Htime) as (b & Hb & Hmax).
    exists a, b. rewrite Ha, Hb. split; [reflexivity|]. split; [reflexivity|].
    assert (Hin : forall v, In v (x :: r) -> In (Some v) (pl.cells s)).
    { intros v Hv. apply non_null_In. now rewrite Enn. }
    split; [apply Hin; rewrite <- Ha; apply fold_pick_In, least_pick|].
    split; [apply Hin; rewrite <- Hb; apply fold_pick_In, greatest_pick|].
    intros t Ht. apply non_null_In in Ht. rewrite Enn in Ht.
    split; [now apply Hmin | now apply Hmax].
Qed.

Lemma datetime_block_total_witness :
  exists cp d,
    profile_column default_config run_first_seen
      (Z.of_nat (pl.len date_column)) 0 date_column = Ok cp
    /\ datetime_stats cp = Some d
    /\ (pl.non_null date_column = [] -> dt_min d = None /\ dt_max d = None)
    /\ (pl.non_null date_column <> [] ->
        exists a b,
          dt_min d = Some (VTime a) /\ dt_max d = Some (VTime b)
          /\ In (Some (VTime a)) (pl.cells date_column)
          /\ In (Some (VTime b)) (pl.cells date_column)
          /\ forall t, In (Some (VTime t)) (pl.cells date_column) ->
                       (a <= t <= b)%Z).
Proof.
  apply (datetime_block_total default_config run_first_seen 0 date_column).
  - reflexivity.
  - repeat constructor; eexists; reflexivity.
Defined.

(** ** The numeric block *)

Definition is_number (v : value) : Prop := pl.num_of v <> None.

Lemma insert_sorted_In x y l :
  In x (pl.insert_sorted y l) <-> x = y \/ In x l.
Proof.
  induction l as [|z r IH]; simpl; [intuition|].
  destruct (y ?= z)%Qc; simpl; rewrite ?IH; intuition.
Qed.

Lemma sorted_nums_In x l : In x (pl.sorted_nums l) <-> In x l.
Proof.
  unfold pl.sorted_nums. induction l as [|y r IH]; simpl; [reflexivity|].
  rewrite insert_sorted_In, IH. intuition.
Qed.

Lemma quantile_observed q s f :
  pl.quantile q s = Some f -> exists x, f = FRat x /\ In x (pl.nums s).
Proof.
  unfold pl.quantile.
  destruct (pl.sorted_nums (pl.nums s)) as [|x r] eqn:E; [discriminate|].
  intro H. injection H as <-. eexists. split; [reflexivity|].
  apply sorted_nums_In. rewrite E.
  destruct (pl.nearest_rank q (S (List.length r))) as [|m]; [now left|].
  destruct (nth_in_or_default m r x) as [H | H];
    [now right | rewrite H; now left].
Qed.

Lemma quantile_some q s :
  pl.nums s <> [] -> exists f, pl.quantile q s = Some f.
Proof.
  intro H. unfold pl.quantile.
  destruct (pl.sorted_nums (pl.nums s)) as [|x r] eqn:E; [|eauto].
  exfalso. destruct (pl.nums s) as [|y l]; [now apply H|].
  assert (Hin : In y (pl.sorted_nums (y :: l)))
    by (apply sorted_nums_In; now left).
  rewrite E in Hin. exact Hin.
Qed.

(** In a column of numbers, every non-null cell counts in [nums]. *)
Lemma nums_of_numbers s :
  Forall is_number (pl.non_null s) ->
  List.length (pl.nums s) = List.length (pl.non_null s)
  /\ forall v, In v (pl.non_null s) ->
               exists q, pl.num_of v = Some q /\ In q (pl.nums s)
                         /\ float_of_obj (Some v) = Ok (FRat q).
Proof.
  unfold pl.nums. induction 1 as [|v r Hv _ [IHlen IHin]]; simpl.
  - split; [reflexivity | intros v []].
  - unfold is_number in Hv. destruct (pl.num_of v) as [q|] eqn:E;
      [|now contradiction Hv]. simpl. split; [now rewrite IHlen|].
    intros w [<- | Hw].
    + exists q. split; [exact E|]. split; [now left|].
      destruct v; simpl in E; try discriminate E;
        injection E as <-; reflexivity.
    + destruct (IHin w Hw) as (q' & Hq & Hin & Hf).
      exists q'. split; [exact Hq|]. split; [now right | exact Hf].
Qed.

(** The seven fields are present; [min], [max] and the three percentiles
    are each the double of a value of the column ([pl.nums] holds these
    doubles); [std] is the floor 0.0 when the column has a single row.
    Nothing is said of the value of [mean], nor of [std] otherwise: the
    code gets them from sums of doubles. *)
Definition block_of_column (s : pl.Series) (ns : NumericStats) : Prop :=
  (exists q, ns_min ns = Some (FRat q) /\ In q (pl.nums s))
  /\ (exists q, ns_max ns = Some (FRat q) /\ In q (pl.nums s))
  /\ ns_mean ns <> None
  /\ ns_std ns <> None
  /\ (pl.len s = 1%nat -> ns_std ns = Some (FRat (Q2Qc 0)))
  /\ (exists q, ns_p25 ns = Some (FRat q) /\ In q (pl.nums s))
  /\ (exists q, ns_p50 ns = Some (FRat q) /\ In q (pl.nums s))
  /\ (exists q, ns_p75 ns = Some (FRat q) /\ In q (pl.nums s)).

Lemma min_max_of_numbers s :
  Forall is_number (pl.non_null s) -> pl.non_null s <> [] ->
  (exists q, float_of_obj (pl.min s) = Ok (FRat q) /\ In q (pl.nums s))
  /\ (exists q, float_of_obj (pl.max s) = Ok (FRat q) /\ In q (pl.nums s)).
Proof.
  intros Hnum Hne. destruct (nums_of_numbers s Hnum) as [_ Hin].
  unfold pl.min, pl.max. destruct (pl.non_null s) as [|x r]; [now contradiction Hne|].
  split.
  - destruct (Hin (fold_left pl.least r x)) as (q & _ & Hq & Hf);
      [apply fold_pick_In, least_pick | eauto].
  - destruct (Hin (fold_left pl.greatest r x)) as (q & _ & Hq & Hf);
      [apply fold_pick_In, greatest_pick | eauto].
Qed.

(** X7. How [_profile_numeric] ends on a column of numbers.  Without rows:
    the block of nulls.  With rows but no non-null value, or with a single
    non-null value among nulls: a [TypeError].  Otherwise (one row that is
    not null, or at least two non-null values) a block with all seven
    fields present, where [min], [max] and the three percentiles are each
    the double of a value of the column, and [std] is 0.0 for the single
    row. *)
Theorem numeric_block_outcome s :
  Forall is_number (pl.non_null s) ->
  (pl.len s = 0%nat -> _profile_numeric s = Ok all_null_block)
  /\ (pl.len s <> 0%nat ->
      List.length (pl.non_null s) = 0%nat
      \/ (List.length (pl.non_null s) = 1%nat /\ (1 < pl.len s)%nat) ->
      _profile_numeric s = Raise float_type_error)
  /\ (pl.len s <> 0%nat ->
      (2 <= List.length (pl.non_null s))%nat
      \/ (List.length (pl.non_null s) = 1%nat /\ pl.len s = 1%nat) ->
      exists ns, _profile_numeric s = Ok ns /\ block_of_column s ns).
Proof.
  intro Hnum.
  destruct (nums_of_numbers s Hnum) as [Hlen _].
  pose proof (non_null_length s) as Hnn.
  split; [|split].
  - intro H0. unfold _profile_numeric. rewrite H0. reflexivity.
  - intros Hrows [H0 | [H1 Hgt]].
    + apply profile_numeric_null_rows.
      * unfold pl.len in Hrows. intro E. rewrite E in Hrows. now apply Hrows.
      * destruct (pl.non_null s); [reflexivity | discriminate H0].
    + destruct (pl.non_null s) as [|v [|w r]] eqn:E; try discriminate H1.
      inversion Hnum as [|? ? Hv _]; subst. unfold is_number in Hv.
      destruct (pl.num_of v) as [q|] eqn:Eq; [|now contradiction Hv].
      exact (profile_numeric_one_value_among_nulls s v q E Eq Hgt).
  - intros Hrows Hcase.
    assert (Hne : pl.non_null s <> []).
    { intro E. rewrite E in Hcase. simpl in Hcase. lia. }
    assert (Hnums : pl.nums s <> []).
    { intro E. rewrite E in Hlen. simpl in Hlen.
      destruct (pl.non_null s); [now apply Hne | discriminate Hlen]. }
    destruct (min_max_of_numbers s Hnum Hne)
      as [(qmin & Emin & Imin) (qmax & Emax & Imax)].
    destruct (quantile_some (1 # 4) s Hnums) as (f25 & E25).
    destruct (quantile_some (1 # 2) s Hnums) as (f50 & E50).
    destruct (quantile_some (3 # 4) s Hnums) as (f75 & E75).
    destruct (quantile_observed _ _ _ E25) as (q25 & -> & I25).
    destruct (quantile_observed _ _ _ E50) as (q50 & -> & I50).
    destruct (quantile_observed _ _ _ E75) as (q75 & -> & I75).
    assert (Emean : pl.mean s = Some (FRat (pl.mean_of (pl.nums s)))).
    { unfold pl.mean. destruct (pl.nums s); [now contradiction Hnums | reflexivity]. }
    assert (Estd :
              (if (1 <? pl.len s)%nat then float_of_num (pl.std s)
               else Ok (FRat (Q2Qc 0)))
              = Ok (if (pl.len s =? 1)%nat then FRat (Q2Qc 0)
                    else FSqrt (pl.var_of (pl.nums s)))).
    { unfold pl.std. rewrite Hlen.
      destruct Hcase as [H2 | [H1 HL]].
      - assert (HL : (2 <= pl.len s)%nat) by lia.
        destruct (1 <? pl.len s)%nat eqn:E1;
          [|apply Nat.ltb_ge in E1; lia].
        destruct (pl.len s =? 1)%nat eqn:E2;
          [apply Nat.eqb_eq in E2; lia|].
        destruct (List.length (pl.non_null s) <=? 1)%nat eqn:E3;
          [apply Nat.leb_le in E3; lia | reflexivity].
      - rewrite HL. reflexivity. }
    unfold _profile_numeric.
    destruct (pl.len s =? 0)%nat eqn:E0; [apply Nat.eqb_eq in E0; lia|].
    rewrite Emin, Emax, Emean, Estd, E25, E50, E75. cbn [obind float_of_num].
    eexists. split; [reflexivity|].
    unfold block_of_column; cbn [ns_min ns_max ns_mean ns_std ns_p25 ns_p50 ns_p75].
    split; [eauto|]. split; [eauto|]. split; [discriminate|].
    split; [discriminate|]. split; [|repeat split; eauto].
    intro H1. now rewrite H1.
Qed.

Definition amounts_column : pl.Series :=
  {| pl.name := "amount"; pl.dtype := "Float64";
     pl.cells := [Some (VFloat (Q2Qc (3 # 2))); None;
                  Some (VFloat (Q2Qc (1 # 2)))] |}.

Lemma numeric_block_outcome_witness :
  (pl.len amounts_column = 0%nat ->
   _profile_numeric amounts_column = Ok all_null_block)
  /\ (pl.len amounts_column <> 0%nat ->
      List.length (pl.non_null amounts_column) = 0%nat
      \/ (List.length (pl.non_null amounts_column) = 1%nat
          /\ (1 < pl.len amounts_column)%nat) ->
      _profile_numeric amounts_column = Raise float_type_error)
  /\ (pl.len amounts_column <> 0%nat ->
      (2 <= List.length (pl.non_null amounts_column))%nat
      \/ (List.length (pl.non_null amounts_column) = 1%nat
          /\ pl.len amounts_column = 1%nat) ->
      exists ns, _profile_numeric amounts_column = Ok ns
                 /\ block_of_column amounts_column ns).
Proof.
  apply (numeric_block_outcome amounts_column).
  repeat constructor; discriminate.
Defined.

(** ** All columns or nothing *)

Lemma Forall2_choice {A B} (R : A -> B -> Prop) (l : list A) :
  (exists l', Forall2 R l l') <-> forall x, In x l -> exists y, R x y.
Proof.
  split.
  - intros (l' & HF) x Hx. induction HF as [|a b r r' Hab _ IH];
      [contradiction|].
    destruct Hx as [<- | Hx]; [eauto | now apply IH].
  - intro H. induction l as [|a r IH]; [exists []; constructor|].
    destruct (H a (or_introl eq_refl)) as (b & Hab).
    destruct IH as (r' & HF); [intros x Hx; apply H; now right|].
    exists (b :: r'). now constructor.
Qed.

Lemma profile_columns_raise cfg run df rc todo acc e :
  profile_columns cfg run df rc todo acc = Raise e ->
  exists idx col,
    In (idx, col) todo
    /\ (pl.getitem df col = Raise e
        \/ exists s, pl.getitem df col = Ok s
                     /\ profile_column cfg run rc idx s = Raise e).
Proof.
  revert acc; induction todo as [|[idx col] rest IH]; intros acc H;
    simpl in H; [discriminate H|].
  destruct (pl.getitem df col) as [s|e'] eqn:Eg; simpl in H.
  - destruct (profile_column cfg run rc idx s) as [cp|e'] eqn:Ec; simpl in H.
    + destruct (IH _ H) as (i & c & Hin & Hr).
      exists i, c. split; [now right | exact Hr].
    + injection H as <-. exists idx, col. split; [now left|].
      right. exists s. now split.
  - injection H as <-. exists idx, col. split; [now left | now left].
Qed.

Lemma enumerate_In {A} (l : list A) idx x :
  In (idx, x) (enumerate l) -> In x l.
Proof.
  intro H. rewrite <- (enumerate_snd l). apply in_map_iff.
  exists (idx, x). now split.
Qed.

(** X8. Once the file is read, the request returns a profile exactly when
    the loop body succeeds on every column of the table; when it raises,
    the exception is the one the body raised on some column, and no profile
    is returned. *)
Theorem all_columns_or_nothing cfg run fs path df :
  supported path -> (0 <= MAX_ROWS_PROFILE cfg)%Z -> fs path = Some df ->
  ((exists p, result (profile_dataset cfg run fs path) = Ok p)
   <-> forall idx col,
         In (idx, col) (enumerate (pl.columns df)) ->
         exists s cp,
           pl.getitem (limited (MAX_ROWS_PROFILE cfg) df) col = Ok s
           /\ profile_column cfg run
                (Z.of_nat (pl.height (limited (MAX_ROWS_PROFILE cfg) df)))
                idx s = Ok cp)
  /\ (forall e,
        result (profile_dataset cfg run fs path) = Raise e ->
        exists idx col s,
          In (idx, col) (enumerate (pl.columns df))
          /\ pl.getitem (limited (MAX_ROWS_PROFILE cfg) df) col = Ok s
          /\ profile_column cfg run
               (Z.of_nat (pl.height (limited (MAX_ROWS_PROFILE cfg) df)))
               idx s = Raise e).
Proof.
  intros Hs Hc Hf.
  rewrite (profile_dataset_read cfg run fs path df Hs Hc Hf). simpl.
  set (df0 := limited (MAX_ROWS_PROFILE cfg) df).
  set (rc := Z.of_nat (pl.height df0)).
  change (pl.columns df) with (pl.columns df0).
  split.
  - split.
    + intros (p & Hp). apply assemble_inv in Hp as (cols & Hcols & _).
      apply profile_columns_iff in Hcols as (cps & HF & _).
      intros idx col Hin.
      destruct (proj1 (Forall2_choice _ _) (ex_intro _ cps HF) (idx, col) Hin)
        as (cp & s & Hg & Hb).
      exists s, cp. now split.
    + intro H.
      destruct (proj2 (Forall2_choice (column_body cfg run df0 rc)
                         (enumerate (pl.columns df0)))) as (cps & HF).
      { intros [idx col] Hin. destruct (H idx col Hin) as (s & cp & Hg & Hb).
        exists cp, s. now split. }
      unfold assemble. fold rc.
      assert (Hcols : profile_columns cfg run df0 rc
                        (enumerate (pl.columns df0)) []
                      = Ok (store_all []
                              (map snd (enumerate (pl.columns df0))) cps)).
      { apply profile_columns_iff. exists cps. now split. }
      rewrite Hcols. simpl. eauto.
  - intros e He. unfold assemble in He. fold rc in He.
    destruct (profile_columns cfg run df0 rc (enumerate (pl.columns df0)) [])
      as [cols|e'] eqn:Ecols; simpl in He; [discriminate He|].
    injection He as ->.
    destruct (profile_columns_raise _ _ _ _ _ _ _ Ecols)
      as (idx & col & Hin & [Hg | (s & Hg & Hb)]).
    + destruct (getitem_listed df0 col (enumerate_In _ _ _ Hin)) as (s & Hs').
      congruence.
    + exists idx, col, s. now repeat split.
Qed.

Lemma all_columns_or_nothing_witness :
  ((exists p, result (profile_dataset default_config run_first_seen
                        mixed_file "m.parquet") = Ok p)
   <-> forall idx col,
         In (idx, col) (enumerate (pl.columns mixed_table)) ->
         exists s cp,
           pl.getitem (limited (MAX_ROWS_PROFILE default_config) mixed_table)
             col = Ok s
           /\ profile_column default_config run_first_seen
                (Z.of_nat (pl.height
                             (limited (MAX_ROWS_PROFILE default_config)
                                mixed_table)))
                idx s = Ok cp)
  /\ (forall e,
        result (profile_dataset default_config run_first_seen
                  mixed_file "m.parquet") = Raise e ->
        exists idx col s,
          In (idx, col) (enumerate (pl.columns mixed_table))
          /\ pl.getitem (limited (MAX_ROWS_PROFILE default_config) mixed_table)
               col = Ok s
          /\ profile_column default_config run_first_seen
               (Z.of_nat (pl.height
                            (limited (MAX_ROWS_PROFILE default_config)
                               mixed_table)))
               idx s = Raise e).
Proof.
  apply (all_columns_or_nothing default_config run_first_seen mixed_file
           "m.parquet" mixed_table parquet_supported).
  - simpl. lia.
  - reflexivity.
Defined.

(** ** The stages of a request *)


(** ** The categorical block *)

(** X10. How the loop body ends on a Categorical column that has rows,
    under a positive [MAX_TOP_K]: with a [DuplicateError] when the column
    is called ["count"], with [KeyError('values')] under any other name but
    ["values"], and with a categorical block of at least one pair only when
    the column is itself called ["values"]. *)
Theorem categorical_column_outcome cfg run rc idx s :
  _is_categorical_dtype (pl.dtype s) = true ->
  pl.cells s <> [] -> (0 < MAX_TOP_K cfg)%Z ->
  (pl.name s = "count" ->
   profile_column cfg run rc idx s = Raise (DuplicateError "count"))
  /\ (pl.name s <> "count" -> pl.name s <> "values" ->
      profile_column cfg run rc idx s = Raise (KeyError "values"))
  /\ (pl.name s = "values" ->
      exists cp cs,
        profile_column cfg run rc idx s = Ok cp
        /\ categorical_stats cp = Some cs
        /\ top_k cs <> []).
Proof.
  intros Hcat Hcells HK.
  destruct (dtype_classes_disjoint (pl.dtype s)) as [Hn Hd].
  assert (En : _is_numeric_dtype (pl.dtype s) = false).
  { destruct (_is_numeric_dtype (pl.dtype s)); [|reflexivity].
    destruct (Hn eq_refl) as [_ Hc]. congruence. }
  assert (Ed : _is_datetime_dtype (pl.dtype s) = false).
  { destruct (_is_datetime_dtype (pl.dtype s)); [|reflexivity].
    pose proof (Hd eq_refl). congruence. }
  unfold profile_column. rewrite En, Ed, Hcat.
  split; [|split].
  - intro Hname. unfold _profile_categorical, pl.len, pl.value_counts.
    destruct (pl.cells s); [now contradiction Hcells|].
    rewrite Hname. reflexivity.
  - intros Hc Hv.
    now rewrite (profile_categorical_key_error run s _ Hcells HK Hv Hc).
  - intro Hname.
    destruct (profile_categorical_eval run s (MAX_TOP_K cfg) Hcells)
      as (groups & Hp & _ & ->); [rewrite Hname; discriminate|].
    rewrite Hname. cbn [String.eqb obind]. simpl.
    eexists. eexists. split; [reflexivity|]. split; [reflexivity|].
    simpl. destruct groups as [|g gs].
    { apply Permutation_nil in Hp. unfold group_counts in Hp.
      apply map_eq_nil in Hp. now apply first_seen_nonempty in Hp. }
    unfold head_list.
    destruct (MAX_TOP_K cfg <? 0)%Z eqn:EK; [apply Z.ltb_lt in EK; lia|].
    destruct (Z.to_nat (MAX_TOP_K cfg)) eqn:Ek; [lia|]. discriminate.
Qed.

Definition city_column : pl.Series :=
  {| pl.name := "city"; pl.dtype := "Categorical";
     pl.cells := [Some (VStr "Oslo"); Some (VStr "Rome")] |}.

Lemma categorical_column_outcome_witness :
  profile_column default_config run_first_seen 2 0 city_column
  = Raise (KeyError "values")
  /\ (pl.name city_column = "count" ->
      profile_column default_config run_first_seen 2 0 city_column
      = Raise (DuplicateError "count"))
  /\ (pl.name city_column <> "count" -> pl.name city_column <> "values" ->
      profile_column default_config run_first_seen 2 0 city_column
      = Raise (KeyError "values"))
  /\ (pl.name city_column = "values" ->
      exists cp cs,
        profile_column default_config run_first_seen 2 0 city_column = Ok cp
        /\ categorical_stats cp = Some cs
        /\ top_k cs <> []).
Proof.
  split; [vm_compute; reflexivity|].
  apply (categorical_column_outcome default_config run_first_seen 2 0
           city_column).
  - reflexivity.
  - discriminate.
  - simpl. lia.
Defined.

Lemma group_counts_fst l : map fst (group_counts l) = first_seen l.
Proof. unfold group_counts. rewrite map_map. simpl. apply map_id. Qed.

Lemma head_list_incl {A} (n : Z) (l : list A) x :
  In x (head_list n l) -> In x l.
Proof. unfold head_list. destruct (n <? 0)%Z; apply firstn_incl. Qed.

Lemma head_list_NoDup {A} (n : Z) (l : list A) :
  NoDup l -> NoDup (head_list n l).
Proof. unfold head_list. destruct (n <? 0)%Z; apply firstn_NoDup. Qed.

Lemma head_list_all {A} (n : Z) (l : list A) :
  (Z.of_nat (List.length l) <= n)%Z -> head_list n l = l.
Proof.
  intro H. unfold head_list.
  destruct (n <? 0)%Z eqn:E; [apply Z.ltb_lt in E; lia|].
  apply firstn_all2. lia.
Qed.

(** X11. In a categorical block, the pairs of [top_k] bear pairwise
    different values, each a value of the column (possibly null) with the
    exact number of its occurrences as count, at least 1; and when the
    column has at most [K] distinct values, every one of them has its
    pair. *)
Theorem top_k_entries_are_value_counts run s K cs :
  _profile_categorical run s K = Ok cs ->
  NoDup (map te_value (top_k cs))
  /\ Forall (fun e =>
               In (te_value e) (pl.cells s)
               /\ te_count e
                  = Z.of_nat (count_occ cell_eq_dec (pl.cells s) (te_value e))
               /\ (1 <= te_count e)%Z)
            (top_k cs)
  /\ ((Z.of_nat (pl.n_unique s) <= K)%Z ->
      forall v, In v (pl.cells s) -> In v (map te_value (top_k cs))).
Proof.
  intro H.
  destruct (profile_categorical_ok run s K cs H) as (groups & Hp & _ & ->).
  assert (Hfst : Permutation (map fst groups) (first_seen (pl.cells s))).
  { rewrite <- group_counts_fst. now apply Permutation_map. }
  rewrite map_map. cbn [te_value entry_of_group].
  split; [|split].
  - rewrite <- head_list_map. apply head_list_NoDup.
    eapply Permutation_NoDup; [apply Permutation_sym, Hfst|].
    apply first_seen_NoDup.
  - apply Forall_map, Forall_forall. intros g Hg.
    apply head_list_incl in Hg. apply (Permutation_in _ Hp) in Hg.
    unfold group_counts in Hg. apply in_map_iff in Hg as (v & <- & Hv).
    apply (proj1 (first_seen_In _ _)) in Hv. cbn.
    split; [exact Hv|]. split; [reflexivity|].
    pose proof (proj1 (count_occ_In cell_eq_dec (pl.cells s) v) Hv). lia.
  - intros HK v Hv. rewrite head_list_all.
    + apply (Permutation_in _ (Permutation_sym Hfst)).
      now apply first_seen_In.
    + rewrite (Permutation_length Hp). unfold group_counts.
      rewrite length_map. exact HK.
Qed.

Lemma top_k_entries_are_value_counts_witness :
  exists cs,
    _profile_categorical run_second scenario_C_column 5 = Ok cs
    /\ NoDup (map te_value (top_k cs))
    /\ Forall (fun e =>
                 In (te_value e) (pl.cells scenario_C_column)
                 /\ te_count e
                    = Z.of_nat (count_occ cell_eq_dec
                                  (pl.cells scenario_C_column) (te_value e))
                 /\ (1 <= te_count e)%Z)
              (top_k cs)
    /\ ((Z.of_nat (pl.n_unique scenario_C_column) <= 5)%Z ->
        forall v, In v (pl.cells scenario_C_column) ->
                  In v (map te_value (top_k cs))).
Proof.
  eexists. split; [vm_compute; reflexivity|].
  apply (top_k_entries_are_value_counts run_second scenario_C_column 5).
  vm_compute. reflexivity.
Defined.


(** * app/main.py: what [upload_dataset] decides before it profiles *)

(** ** [os.path] *)

Module os_path.

(** [s.rfind(c)] for one character: the index of its last occurrence,
    [None] standing for -1. *)
Fixpoint rfind_aux (c : ascii) (s : string) (i : nat) (last : option nat)
  : option nat :=
  match s with
  | EmptyString => last
  | String d r =>
      rfind_aux c r (S i) (if Ascii.eqb d c then Some i else last)
  end.

Definition rfind (c : ascii) (s : string) : option nat :=
  rfind_aux c s 0 None.

Fixpoint all_dots (s : string) : bool :=
  match s with
  | EmptyString => true
  | String d r => Ascii.eqb d "."%char && all_dots r
  end.

(** [os.path.splitext]: the extension starts at the last dot, provided
    that dot comes after the last [/] and after some character of the file
    name that is not a dot; otherwise there is no extension. *)
Definition splitext (p : string) : string * string :=
  match rfind "."%char p with
  | None => (p, EmptyString)
  | Some dot =>
      let start :=
        match rfind "/"%char p with
        | None => 0%nat
        | Some sep => S sep
        end in
      if (start <=? dot)%nat
         && negb (all_dots (substring start (dot - start) p))
      then (substring 0 dot p, substring dot (String.length p - dot) p)
      else (p, EmptyString)
  end.

(** [os.path.join(a, b)] *)
Definition join (a b : string) : string :=
  if PyStr.startswith b "/" then b
  else if String.eqb a "" || PyStr.endswith a "/" then (a ++ b)%string
  else (a ++ "/" ++ b)%string.

End os_path.

(** ** The gate of [upload_dataset] *)

(** The two directories of [app/config.py]. *)
Record Dirs : Type := {
  DATA_RAW_DIR : string;
  DATA_PARQUET_DIR : string
}.

(** [ext = os.path.splitext(filename)[1].lower()] *)
Definition upload_ext (filename : string) : string :=
  PyStr.lower (snd (os_path.splitext filename)).

(** The upload goes on to be saved and profiled: the file name is not
    empty and [ext] is one of the three extensions; otherwise the answer
    is a 400. *)
Definition upload_accepts (filename : string) : bool :=
  negb (String.eqb filename "")
  && PyStr.str_in (upload_ext filename) [".csv"; ".parquet"; ".pq"].

(** [stored_path]: parquet files are moved to the parquet directory, the
    others stay where they were saved. *)
Definition stored_path (dirs : Dirs) (filename : string) : string :=
  let raw_path := os_path.join (DATA_RAW_DIR dirs) filename in
  if PyStr.str_in (upload_ext filename) [".parquet"; ".pq"]
  then os_path.join (DATA_PARQUET_DIR dirs) filename
  else raw_path.

(** ** The gate against the loader *)

Lemma rfind_aux_bound c s i last n :
  os_path.rfind_aux c s i last = Some n ->
  last = Some n \/ (i <= n < i + String.length s)%nat.
Proof.
  revert i last; induction s as [|d r IH]; intros i last H; simpl in *.
  - now left.
  - destruct (IH _ _ H) as [Hl | Hb]; [|right; lia].
    destruct (Ascii.eqb d c); [|now left].
    injection Hl as <-. right. lia.
Qed.

Lemma rfind_bound c s n :
  os_path.rfind c s = Some n -> (n < String.length s)%nat.
Proof.
  intro H. destruct (rfind_aux_bound c s 0 None n H) as [Hl | Hb];
    [discriminate Hl | lia].
Qed.

(** [root + ext == p], as [os.path.splitext] documents. *)
Lemma splitext_app p :
  (fst (os_path.splitext p) ++ snd (os_path.splitext p))%string = p.
Proof.
  assert (Hnil : forall s : string, (s ++ "")%string = s).
  { induction s as [|c s IH]; simpl; [reflexivity | now rewrite IH]. }
  unfold os_path.splitext.
  destruct (os_path.rfind "."%char p) as [dot|] eqn:Ed; [|apply Hnil].
  destruct (_ && _); [|apply Hnil]. simpl.
  symmetry. apply substring_split.
  apply rfind_bound in Ed. lia.
Qed.

Lemma append_assoc (a b c : string) :
  ((a ++ b) ++ c)%string = (a ++ (b ++ c))%string.
Proof. induction a as [|x a IH]; simpl; [reflexivity | now rewrite IH]. Qed.

Lemma join_ends a b : exists pre, os_path.join a b = (pre ++ b)%string.
Proof.
  unfold os_path.join. destruct (PyStr.startswith b "/").
  - now exists "".
  - destruct (_ || _).
    + now exists a.
    + exists (a ++ "/")%string. symmetry. apply append_assoc.
Qed.

(** The extension [upload_dataset] computes is an extension of every path
    the file is stored under. *)
Lemma upload_ext_of_joined dir filename :
  has_extension (os_path.join dir filename) (upload_ext filename).
Proof.
  destruct (join_ends dir filename) as (pre & ->).
  exists (pre ++ fst (os_path.splitext filename))%string,
         (snd (os_path.splitext filename)).
  split; [|reflexivity].
  now rewrite append_assoc, splitext_app.
Qed.

Fixpoint last_char (s : string) : option ascii :=
  match s with
  | EmptyString => None
  | String c r =>
      match r with
      | EmptyString => Some c
      | String _ _ => last_char r
      end
  end.

Lemma last_char_app (a b : string) :
  b <> EmptyString -> last_char (a ++ b) = last_char b.
Proof.
  intro Hb. induction a as [|c a IH]; [reflexivity|].
  simpl. destruct (a ++ b)%string eqn:E; [|exact IH].
  destruct a; simpl in E; [now contradiction Hb | discriminate E].
Qed.

Lemma endswith_last_char s suf :
  suf <> EmptyString -> PyStr.endswith s suf = true ->
  last_char s = last_char suf.
Proof.
  intros Hne H. apply endswith_spec in H as (pre & ->).
  now apply last_char_app.
Qed.

Lemma supported_not_unsupported cfg run fs path :
  supported path ->
  result (profile_dataset cfg run fs path) <> Raise (unsupported path).
Proof.
  intro Hs.
  destruct (Z.lt_ge_cases (MAX_ROWS_PROFILE cfg) 0) as [Hneg | Hpos].
  { rewrite (profile_dataset_negative_cap cfg run fs _ Hs Hneg).
    simpl. intro H. discriminate H. }
  destruct (fs path) as [df|] eqn:Hf.
  - rewrite (profile_dataset_read cfg run fs _ df Hs Hpos Hf).
    simpl. intro H. apply assemble_exn in H. exact H.
  - rewrite (profile_dataset_missing cfg run fs _ Hs Hpos Hf).
    simpl. intro H. discriminate H.
Qed.

(** X12. Every upload that passes the extension gate of [upload_dataset]
    is stored under a path the profiler's loader accepts, so profiling it
    never ends with the unsupported-format error; and the loader reads it
    in the format the gate sorted it by: as parquet exactly when it was
    moved to the parquet directory, as CSV when it stayed in the raw
    directory.  The gate is the narrower of the two: a file called [.csv]
    is refused by the gate though the loader would take it. *)
Theorem accepted_upload_is_loadable dirs filename :
  upload_accepts filename = true ->
  supported (stored_path dirs filename)
  /\ (forall cfg run fs,
        result (profile_dataset cfg run fs (stored_path dirs filename))
        <> Raise (unsupported (stored_path dirs filename)))
  /\ (PyStr.str_in (upload_ext filename) [".parquet"; ".pq"] = true ->
      stored_path dirs filename
      = os_path.join (DATA_PARQUET_DIR dirs) filename
      /\ _load_lazy (stored_path dirs filename)
         = Ok (scan_parquet (stored_path dirs filename)))
  /\ (PyStr.str_in (upload_ext filename) [".parquet"; ".pq"] = false ->
      upload_ext filename = ".csv"
      /\ stored_path dirs filename = os_path.join (DATA_RAW_DIR dirs) filename
      /\ _load_lazy (stored_path dirs filename)
         = Ok (scan_csv (stored_path dirs filename) 10000))
  /\ (upload_accepts ".csv" = false /\ supported (stored_path dirs ".csv")).
Proof.
  intro H. unfold upload_accepts in H.
  apply andb_true_iff in H as [_ Hext]. apply str_in_In in Hext.
  assert (Hpq : PyStr.str_in (upload_ext filename) [".parquet"; ".pq"] = true
                -> has_extension (stored_path dirs filename) ".parquet"
                   \/ has_extension (stored_path dirs filename) ".pq").
  { intro E. unfold stored_path. rewrite E. apply str_in_In in E.
    destruct E as [E | [E | []]]; [left | right]; rewrite E;
      apply upload_ext_of_joined. }
  assert (Hcsv : PyStr.str_in (upload_ext filename) [".parquet"; ".pq"] = false
                 -> upload_ext filename = ".csv"
                    /\ stored_path dirs filename
                       = os_path.join (DATA_RAW_DIR dirs) filename
                    /\ has_extension (stored_path dirs filename) ".csv").
  { intro E. unfold stored_path. rewrite E.
    assert (Ec : upload_ext filename = ".csv").
    { destruct Hext as [E' | [E' | [E' | []]]]; [now symmetry | |];
        rewrite <- E' in E; discriminate E. }
    split; [exact Ec|]. split; [reflexivity|].
    rewrite <- Ec. apply upload_ext_of_joined. }
  assert (Hs : supported (stored_path dirs filename)).
  { destruct (PyStr.str_in (upload_ext filename) [".parquet"; ".pq"]) eqn:E.
    - destruct (Hpq eq_refl) as [Hp | Hp]; [right; left | right; right];
        exact Hp.
    - left. apply (Hcsv eq_refl). }
  split; [exact Hs|].
  split; [intros cfg run fs; now apply supported_not_unsupported|].
  split; [|split].
  - intro E. split; [unfold stored_path; now rewrite E|].
    unfold _load_lazy, PyStr.endswith_any. cbn [existsb].
    destruct (Hpq E) as [Hp | Hp]; apply endswith_lower_extension in Hp;
      rewrite Hp; [reflexivity | now rewrite orb_true_r].
  - intro E. destruct (Hcsv E) as (Ec & Hpath & Hp).
    split; [exact Ec|]. split; [exact Hpath|].
    apply endswith_lower_extension in Hp.
    unfold _load_lazy, PyStr.endswith_any. cbn [existsb].
    pose proof (endswith_last_char _ ".csv" ltac:(discriminate) Hp) as Hlast.
    destruct (PyStr.endswith (PyStr.lower (stored_path dirs filename))
                ".parquet") eqn:E1.
    { apply endswith_last_char in E1; [|discriminate].
      rewrite E1 in Hlast. discriminate Hlast. }
    destruct (PyStr.endswith (PyStr.lower (stored_path dirs filename))
                ".pq") eqn:E2.
    { apply endswith_last_char in E2; [|discriminate].
      rewrite E2 in Hlast. discriminate Hlast. }
    simpl. now rewrite Hp.
  - split; [reflexivity|]. left.
    unfold stored_path. change (upload_ext ".csv") with "".
    cbn [PyStr.str_in existsb String.eqb orb].
    destruct (join_ends (DATA_RAW_DIR dirs) ".csv") as (pre & ->).
    exists pre, ".csv". now split.
Qed.

Definition default_dirs : Dirs :=
  {| DATA_RAW_DIR := "data/raw"; DATA_PARQUET_DIR := "data/parquet" |}.

Lemma accepted_upload_is_loadable_witness :
  stored_path default_dirs "Sales.2024.PQ" = "data/parquet/Sales.2024.PQ"
  /\ supported (stored_path default_dirs "Sales.2024.PQ")
  /\ (forall cfg run fs,
        result (profile_dataset cfg run fs
                  (stored_path default_dirs "Sales.2024.PQ"))
        <> Raise (unsupported (stored_path default_dirs "Sales.2024.PQ")))
  /\ (PyStr.str_in (upload_ext "Sales.2024.PQ") [".parquet"; ".pq"] = true ->
      stored_path default_dirs "Sales.2024.PQ"
      = os_path.join (DATA_PARQUET_DIR default_dirs) "Sales.2024.PQ"
      /\ _load_lazy (stored_path default_dirs "Sales.2024.PQ")
         = Ok (scan_parquet (stored_path default_dirs "Sales.2024.PQ")))
  /\ (PyStr.str_in (upload_ext "Sales.2024.PQ") [".parquet"; ".pq"] = false ->
      upload_ext "Sales.2024.PQ" = ".csv"
      /\ stored_path default_dirs "Sales.2024.PQ"
         = os_path.join (DATA_RAW_DIR default_dirs) "Sales.2024.PQ"
      /\ _load_lazy (stored_path default_dirs "Sales.2024.PQ")
         = Ok (scan_csv (stored_path default_dirs "Sales.2024.PQ") 10000))
  /\ (upload_accepts ".csv" = false
      /\ supported (stored_path default_dirs ".csv")).
Proof.
  split; [reflexivity|].
  apply (accepted_upload_is_loadable default_dirs "Sales.2024.PQ").
  reflexivity.
Defined.

(** ** The name of the dataset *)

Fixpoint no_slash (s : string) : bool :=
  match s with
  | EmptyString => true
  | String c r => negb (Ascii.eqb c "/"%char) && no_slash r
  end.

Lemma basename_aux_no_slash b acc :
  no_slash b = true -> PyStr.basename_aux b acc = (acc ++ b)%string.
Proof.
  revert acc; induction b as [|c r IH]; intros acc H; simpl in *.
  - clear. induction acc as [|x acc IH]; simpl; [reflexivity | now rewrite <- IH].
  - apply andb_true_iff in H as [Hc Hr]. apply negb_true_iff in Hc.
    rewrite Hc, (IH _ Hr). apply append_assoc.
Qed.

Lemma basename_after_slash a b acc :
  no_slash b = true -> PyStr.basename_aux (a ++ String "/" b) acc = b.
Proof.
  intro Hb. revert acc; induction a as [|c a IH]; intro acc; simpl.
  - now rewrite (basename_aux_no_slash b "" Hb).
  - destruct (Ascii.eqb c "/"); apply IH.
Qed.

(** [os.path.basename(os.path.join(dir, name))] is [name], for a name that
    is not empty and holds no [/]. *)
Lemma basename_join dir name :
  name <> "" -> no_slash name = true ->
  PyStr.basename (os_path.join dir name) = name.
Proof.
  intros Hne Hns. unfold os_path.join, PyStr.basename.
  assert (Hstart : PyStr.startswith name "/" = false).
  { destruct name as [|c r]; [now contradiction Hne|].
    simpl in Hns. apply andb_true_iff in Hns as [Hc _].
    apply negb_true_iff, Ascii.eqb_neq in Hc.
    unfold PyStr.startswith. cbn [prefix].
    destruct (ascii_dec "/" c) as [E | E]; [now subst | reflexivity]. }
  rewrite Hstart.
  destruct (String.eqb dir "") eqn:Ed.
  - apply String.eqb_eq in Ed. subst dir. simpl.
    now rewrite (basename_aux_no_slash name "" Hns).
  - simpl. destruct (PyStr.endswith dir "/") eqn:Ee.
    + apply endswith_spec in Ee as (pre & ->).
      rewrite append_assoc. now apply basename_after_slash.
    + now apply basename_after_slash.
Qed.

(** X13. When an accepted upload whose file name holds no [/] is profiled,
    the profile's [dataset_name] is the file name itself (the name
    [upload_dataset] stores for the dataset) and its [path] is the stored
    path. *)
Theorem dataset_name_is_filename dirs filename cfg run fs p :
  upload_accepts filename = true -> no_slash filename = true ->
  result (profile_dataset cfg run fs (stored_path dirs filename)) = Ok p ->
  dataset_name p = filename /\ path p = stored_path dirs filename.
Proof.
  intros Hacc Hns H.
  destruct (profile_dataset_ok_inv _ _ _ _ _ H) as (_ & _ & df & _ & Ha).
  destruct (assemble_inv _ _ _ _ _ Ha) as (cols & _ & ->). simpl.
  split; [|reflexivity].
  assert (Hne : filename <> "").
  { intros ->. discriminate Hacc. }
  unfold stored_path.
  destruct (PyStr.str_in (upload_ext filename) [".parquet"; ".pq"]);
    now apply basename_join.
Qed.

Lemma dataset_name_is_filename_witness :
  exists p,
    result (profile_dataset default_config run_first_seen mixed_file
              (stored_path default_dirs "Sales.2024.PQ")) = Ok p
    /\ dataset_name p = "Sales.2024.PQ"
    /\ path p = stored_path default_dirs "Sales.2024.PQ".
Proof.
  eexists. split; [vm_compute; reflexivity|].
  apply (dataset_name_is_filename default_dirs "Sales.2024.PQ"
           default_config run_first_seen mixed_file).
  - reflexivity.
  - reflexivity.
  - vm_compute. reflexivity.
Defined.


(** * Samples against the distinct count *)

Definition has_null (l : list cell) : bool := existsb pl.is_null l.

Lemma has_null_In l : has_null l = true <-> In None l.
Proof.
  unfold has_null. rewrite existsb_exists. split.
  - intros ([v|] & Hin & Hn); [discriminate Hn | exact Hin].
  - intro H. exists None. now split.
Qed.

Lemma has_null_count l :
  has_null l = (0 <? List.length (filter pl.is_null l))%nat.
Proof.
  induction l as [|[v|] r IH]; simpl; [reflexivity | exact IH | reflexivity].
Qed.

(** The distinct values of a column are its distinct non-null values, and
    the null if it has one. *)
Lemma first_seen_split l :
  List.length (first_seen l)
  = (List.length (first_seen (filter not_null l))
     + (if has_null l then 1 else 0))%nat.
Proof.
  set (rest := first_seen (filter not_null l)).
  assert (Hrest : NoDup rest) by apply first_seen_NoDup.
  assert (Hnn : forall x, In x rest <-> In x l /\ x <> None).
  { intro x. unfold rest. rewrite first_seen_In, filter_In.
    destruct x; simpl; intuition (try discriminate; try congruence). }
  assert (Hperm : Permutation (first_seen l)
                    (if has_null l then None :: rest else rest)).
  { apply NoDup_Permutation; [apply first_seen_NoDup | |].
    - destruct (has_null l); [|exact Hrest].
      constructor; [|exact Hrest]. intro H. apply Hnn in H. now destruct H.
    - intro x. rewrite first_seen_In.
      destruct (has_null l) eqn:E.
      + apply has_null_In in E. simpl. rewrite Hnn. split.
        * intro H. destruct x; [right; split; [exact H | discriminate] | now left].
        * intros [<- | [H _]]; assumption.
      + rewrite Hnn. split; [|now intros [H _]].
        intro H. split; [exact H|]. intros ->.
        apply has_null_In in H. congruence. }
  rewrite (Permutation_length Hperm). destruct (has_null l); simpl; lia.
Qed.

(** The number of samples read off the counts of a column. *)
Definition sample_size_ok (c : ColumnProfile) : Prop :=
  Z.of_nat (List.length (sample_values c))
  = Z.min 5 (distinct_count c - (if (0 <? null_count c)%Z then 1 else 0)).

Lemma sample_size_ok_body cfg run idx s cp :
  profile_column cfg run (Z.of_nat (pl.len s)) idx s = Ok cp ->
  sample_size_ok cp
  /\ distinct_count cp
     = (Z.of_nat (List.length (first_seen (observed s)))
        + (if (0 <? null_count cp)%Z then 1 else 0))%Z.
Proof.
  intro H.
  destruct (base_fields _ _ _ _ _ _ H) as (_ & _ & _ & En & _ & Ed & _).
  pose proof (sample_values_of_profile _ _ _ _ _ _ H) as Es.
  unfold sample_size_ok. rewrite Es, sample_values_unfold, length_firstn.
  rewrite (Permutation_length (unique_order_perm run (observed s))).
  rewrite Ed, En. unfold pl.n_unique, pl.null_count.
  rewrite (first_seen_split (pl.cells s)), has_null_count.
  fold (observed s).
  destruct (0 <? List.length (filter pl.is_null (pl.cells s)))%nat eqn:E.
  - apply Nat.ltb_lt in E.
    destruct (0 <? Z.of_nat (List.length (filter pl.is_null (pl.cells s))))%Z
      eqn:E'; [|apply Z.ltb_ge in E'; lia].
    split; lia.
  - apply Nat.ltb_ge in E.
    destruct (0 <? Z.of_nat (List.length (filter pl.is_null (pl.cells s))))%Z
      eqn:E'; [apply Z.ltb_lt in E'; lia|].
    split; lia.
Qed.

(** X14. In every profile, each column has as many sample values as it has
    distinct non-null values, up to five; and the distinct non-null values
    number [distinct_count], less one when the column has a null. *)
Theorem sample_size_from_counts cfg run fs path p :
  result (profile_dataset cfg run fs path) = Ok p ->
  Forall (fun e => sample_size_ok (snd e)) (columns p).
Proof.
  apply (every_column (fun _ => sample_size_ok) cfg run). intros idx s cp H.
  apply (sample_size_ok_body cfg run idx s cp H).
Qed.

Lemma sample_size_from_counts_witness :
  exists p,
    result (profile_dataset default_config run_second mixed_file
              "m.parquet") = Ok p
    /\ map (fun e => List.length (sample_values (snd e))) (columns p)
       = [2; 2; 1]%nat
    /\ Forall (fun e => sample_size_ok (snd e)) (columns p).
Proof.
  eexists. split; [vm_compute; reflexivity|]. split; [reflexivity|].
  apply (sample_size_from_counts default_config run_second mixed_file
           "m.parquet").
  vm_compute. reflexivity.
Defined.


(** * Order of the numeric block *)

(** ** Sorting and ranks *)

Lemma insert_sorted_sorted x l :
  StronglySorted Qcle l -> StronglySorted Qcle (pl.insert_sorted x l).
Proof.
  induction 1 as [|y r Hs IH Hall]; simpl; [repeat constructor|].
  destruct (x ?= y)%Qc eqn:E.
  - assert (Hxy : (x <= y)%Qc) by (apply Qcle_alt; rewrite E; discriminate).
    constructor; [now constructor|]. constructor; [exact Hxy|].
    eapply Forall_impl; [|exact Hall]. intros z Hz.
    eapply Qcle_trans; eassumption.
  - assert (Hxy : (x <= y)%Qc) by (apply Qcle_alt; rewrite E; discriminate).
    constructor; [now constructor|]. constructor; [exact Hxy|].
    eapply Forall_impl; [|exact Hall]. intros z Hz.
    eapply Qcle_trans; eassumption.
  - assert (Hyx : (y <= x)%Qc)
      by (apply Qclt_le_weak, Qcgt_alt; exact E).
    constructor; [exact IH|]. apply Forall_forall. intros z Hz.
    apply insert_sorted_In in Hz as [-> | Hz]; [exact Hyx|].
    exact (proj1 (Forall_forall _ _) Hall z Hz).
Qed.

Lemma sorted_nums_sorted l : StronglySorted Qcle (pl.sorted_nums l).
Proof.
  unfold pl.sorted_nums. induction l as [|x r IH]; simpl; [constructor|].
  now apply insert_sorted_sorted.
Qed.

Lemma sorted_nth_le (l : list Qc) d i j :
  StronglySorted Qcle l -> (i <= j < List.length l)%nat ->
  (nth i l d <= nth j l d)%Qc.
Proof.
  intro Hs. revert i j; induction Hs as [|x r Hs IH Hall]; intros i j Hij;
    simpl in Hij; [lia|].
  destruct i as [|i], j as [|j]; simpl; try lia.
  - apply Qcle_refl.
  - apply (proj1 (Forall_forall _ _) Hall). apply nth_In. lia.
  - apply IH. lia.
Qed.

(** The rank of the quantile [a/b] among [n] values, in integers. *)
Lemma nearest_rank_div (a : Z) (b : positive) (n : nat) :
  pl.nearest_rank (a # b) n
  = Z.to_nat ((Z.of_nat (n - 1) * a * 2 + Zpos b) / Zpos (b * 2)).
Proof.
  unfold pl.nearest_rank, Qfloor, Qplus, Qmult, inject_Z. simpl.
  reflexivity.
Qed.

Lemma quartile_ranks (n : nat) :
  (0 < n)%nat ->
  (pl.nearest_rank (1 # 4) n <= pl.nearest_rank (1 # 2) n)%nat
  /\ (pl.nearest_rank (1 # 2) n <= pl.nearest_rank (3 # 4) n)%nat
  /\ (pl.nearest_rank (3 # 4) n < n)%nat.
Proof.
  intro Hn. rewrite !nearest_rank_div.
  set (m := Z.of_nat (n - 1)).
  assert (Hm : (0 <= m)%Z) by (unfold m; lia).
  assert (Hmn : (m + 1 = Z.of_nat n)%Z) by (unfold m; lia).
  change (Zpos (4 * 2)) with 8%Z. change (Zpos (2 * 2)) with 4%Z.
  assert (H25 : (0 <= (m * 1 * 2 + 4) / 8)%Z) by (apply Z.div_pos; lia).
  assert (H50 : (0 <= (m * 1 * 2 + 2) / 4)%Z) by (apply Z.div_pos; lia).
  assert (H75 : (0 <= (m * 3 * 2 + 4) / 8)%Z) by (apply Z.div_pos; lia).
  assert (E50 : ((m * 1 * 2 + 2) / 4 = (m * 4 + 4) / 8)%Z).
  { replace (m * 4 + 4)%Z with ((m * 1 * 2 + 2) * 2)%Z by lia.
    change 8%Z with (4 * 2)%Z. now rewrite Z.div_mul_cancel_r by lia. }
  assert (L1 : ((m * 1 * 2 + 4) / 8 <= (m * 1 * 2 + 2) / 4)%Z).
  { rewrite E50. apply Z.div_le_mono; lia. }
  assert (L2 : ((m * 1 * 2 + 2) / 4 <= (m * 3 * 2 + 4) / 8)%Z).
  { rewrite E50. apply Z.div_le_mono; lia. }
  assert (L3 : ((m * 3 * 2 + 4) / 8 < m + 1)%Z).
  { apply Z.div_lt_upper_bound; lia. }
  repeat split; lia.
Qed.

(** ** Integers as doubles *)

(** [round_int] on a magnitude. *)
Definition round_nat (a : Z) : Z :=
  if (a <=? 2 ^ 53)%Z then a
  else
    let sh := (Z.log2 a - 52)%Z in
    let q := Z.shiftr a sh in
    let r := (a - Z.shiftl q sh)%Z in
    let half := Z.shiftl 1 (sh - 1) in
    let q' := if (half <? r)%Z || ((r =? half)%Z && Z.odd q)
              then (q + 1)%Z else q in
    Z.shiftl q' sh.

Lemma round_int_abs z : round_int z = (Z.sgn z * round_nat (Z.abs z))%Z.
Proof.
  unfold round_int, round_nat. destruct (Z.abs z <=? 2 ^ 53)%Z eqn:E.
  - rewrite Z.mul_comm. symmetry. apply Z.abs_sgn.
  - reflexivity.
Qed.

(** Above [2^53] the magnitude [a], of binary exponent [e], is rounded to a
    multiple of [u = 2^(e-52)], one of the two that enclose it. *)
Lemma round_nat_big (a : Z) :
  (2 ^ 53 < a)%Z ->
  let e := Z.log2 a in
  let u := (2 ^ (e - 52))%Z in
  let q := (a / u)%Z in
  (53 <= e)%Z /\ (0 < u)%Z /\ (2 ^ 52 <= q)%Z /\ (q < 2 ^ 53)%Z
  /\ (2 ^ e = 2 ^ 52 * u)%Z
  /\ round_nat a
     = ((if (u / 2 <? a - q * u)%Z || ((a - q * u =? u / 2)%Z && Z.odd q)
         then q + 1 else q) * u)%Z.
Proof.
  intros Ha e u q.
  assert (Hpos : (0 < a)%Z) by lia.
  pose proof (Z.log2_spec a Hpos) as [Hlo Hhi]. fold e in Hlo, Hhi.
  assert (He : (53 <= e)%Z).
  { destruct (Z.lt_ge_cases e 53) as [H|H]; [|exact H].
    assert (2 ^ Z.succ e <= 2 ^ 53)%Z by (apply Z.pow_le_mono_r; lia). lia. }
  assert (Hu : (0 < u)%Z) by (apply Z.pow_pos_nonneg; lia).
  assert (Heu : (2 ^ e = 2 ^ 52 * u)%Z).
  { unfold u. rewrite <- Z.pow_add_r by lia. f_equal. lia. }
  assert (Hq1 : (2 ^ 52 <= q)%Z).
  { unfold q. apply Z.div_le_lower_bound; [exact Hu|]. lia. }
  assert (Hq2 : (q < 2 ^ 53)%Z).
  { unfold q. apply Z.div_lt_upper_bound; [exact Hu|].
    replace (u * 2 ^ 53)%Z with (2 ^ Z.succ e)%Z; [exact Hhi|].
    rewrite Z.pow_succ_r by lia. rewrite Heu.
    change (2 ^ 53)%Z with (2 * 2 ^ 52)%Z. ring. }
  repeat split; try assumption.
  unfold round_nat.
  destruct (a <=? 2 ^ 53)%Z eqn:E; [apply Z.leb_le in E; lia|].
  fold e. cbv zeta.
  rewrite !Z.shiftr_div_pow2 by lia. rewrite !Z.shiftl_mul_pow2 by lia.
  fold u. fold q.
  replace (1 * 2 ^ (e - 52 - 1))%Z with (u / 2)%Z.
  2:{ unfold u. replace (e - 52)%Z with (Z.succ (e - 52 - 1)) at 1 by lia.
      rewrite Z.pow_succ_r by lia. rewrite Z.mul_comm, Z.div_mul by lia. lia. }
  reflexivity.
Qed.

Lemma round_nat_mono (a b : Z) :
  (0 <= a)%Z -> (a <= b)%Z -> (round_nat a <= round_nat b)%Z.
Proof.
  intros Ha Hab.
  destruct (Z.le_gt_cases b (2 ^ 53)) as [Hb | Hb].
  { unfold round_nat.
    destruct (a <=? 2 ^ 53)%Z eqn:E1; [|apply Z.leb_gt in E1; lia].
    destruct (b <=? 2 ^ 53)%Z eqn:E2; [|apply Z.leb_gt in E2; lia].
    exact Hab. }
  pose proof (round_nat_big b Hb) as Fb. cbv zeta in Fb.
  remember (Z.log2 b) as eb eqn:Eeb.
  remember (2 ^ (eb - 52))%Z as ub eqn:Eub.
  remember (b / ub)%Z as qb eqn:Eqb.
  destruct Fb as (Heb & Hub & Hqb1 & Hqb2 & Hpb & Rb).
  assert (Hb_lo : (2 ^ eb <= round_nat b)%Z).
  { rewrite Rb, Hpb.
    destruct ((ub / 2 <? b - qb * ub)%Z
              || ((b - qb * ub =? ub / 2)%Z && Z.odd qb)); nia. }
  destruct (Z.le_gt_cases a (2 ^ 53)) as [Ha' | Ha'].
  { unfold round_nat at 1.
    destruct (a <=? 2 ^ 53)%Z eqn:E1; [|apply Z.leb_gt in E1; lia].
    assert (2 ^ 53 <= 2 ^ eb)%Z by (apply Z.pow_le_mono_r; lia). lia. }
  pose proof (round_nat_big a Ha') as Fa. cbv zeta in Fa.
  remember (Z.log2 a) as ea eqn:Eea.
  remember (2 ^ (ea - 52))%Z as ua eqn:Eua.
  remember (a / ua)%Z as qa eqn:Eqa.
  destruct Fa as (Hea & Hua & Hqa1 & Hqa2 & Hpa & Ra).
  assert (Hle : (ea <= eb)%Z) by (subst ea eb; apply Z.log2_le_mono; lia).
  assert (Ha_hi : (round_nat a <= 2 ^ (ea + 1))%Z).
  { rewrite Ra. replace (2 ^ (ea + 1))%Z with (2 ^ 53 * ua)%Z.
    2:{ rewrite Z.pow_add_r by lia. rewrite Hpa.
        change (2 ^ 53)%Z with (2 ^ 52 * 2 ^ 1)%Z. ring. }
    destruct ((ua / 2 <? a - qa * ua)%Z
              || ((a - qa * ua =? ua / 2)%Z && Z.odd qa)); nia. }
  destruct (Z.eq_dec ea eb) as [Heq | Hne].
  2:{ assert (2 ^ (ea + 1) <= 2 ^ eb)%Z by (apply Z.pow_le_mono_r; lia).
      lia. }
  assert (Hu : ub = ua) by (rewrite Eub, Eua, Heq; reflexivity).
  rewrite Hu in *. clear Hu Eub.
  rewrite Ra, Rb.
  assert (Hqab : (qa <= qb)%Z)
    by (rewrite Eqa, Eqb; apply Z.div_le_mono; lia).
  pose proof (Z.div_mod a ua ltac:(lia)) as Da.
  pose proof (Z.div_mod b ua ltac:(lia)) as Db.
  pose proof (Z.mod_pos_bound a ua Hua) as Ma.
  pose proof (Z.mod_pos_bound b ua Hua) as Mb.
  rewrite <- Eqa in Da. rewrite <- Eqb in Db.
  destruct (Z.eq_dec qa qb) as [Hq | Hq].
  - rewrite <- Hq in *.
    destruct ((ua / 2 <? a - qa * ua)%Z
              || ((a - qa * ua =? ua / 2)%Z && Z.odd qa)) eqn:Ea.
    + assert (Eb : (ua / 2 <? b - qa * ua)%Z
                   || ((b - qa * ua =? ua / 2)%Z && Z.odd qa) = true).
      { apply orb_true_iff in Ea. apply orb_true_iff.
        destruct Ea as [Ea | Ea].
        - apply Z.ltb_lt in Ea. left. apply Z.ltb_lt. lia.
        - apply andb_true_iff in Ea as [Ea1 Ea2]. apply Z.eqb_eq in Ea1.
          destruct (Z.eq_dec (b - qa * ua) (ua / 2)) as [E | E].
          + right. apply andb_true_iff.
            split; [now apply Z.eqb_eq | exact Ea2].
          + left. apply Z.ltb_lt. lia. }
      rewrite Eb. lia.
    + destruct ((ua / 2 <? b - qa * ua)%Z
                || ((b - qa * ua =? ua / 2)%Z && Z.odd qa)); nia.
  - destruct ((ua / 2 <? a - qa * ua)%Z
              || ((a - qa * ua =? ua / 2)%Z && Z.odd qa));
    destruct ((ua / 2 <? b - qb * ua)%Z
              || ((b - qb * ua =? ua / 2)%Z && Z.odd qb)); nia.
Qed.

Lemma round_nat_nonneg (a : Z) : (0 <= a)%Z -> (0 <= round_nat a)%Z.
Proof.
  intro Ha. destruct (Z.le_gt_cases a (2 ^ 53)) as [H | H].
  - unfold round_nat. destruct (a <=? 2 ^ 53)%Z eqn:E; [exact Ha|].
    apply Z.leb_gt in E. lia.
  - destruct (round_nat_big a H) as (_ & Hu & Hq & _ & _ & ->).
    destruct (_ || _); nia.
Qed.

(** [float] keeps the order of the integers. *)
Lemma round_int_mono (x y : Z) :
  (x <= y)%Z -> (round_int x <= round_int y)%Z.
Proof.
  intro H. rewrite !round_int_abs.
  pose proof (round_nat_nonneg (Z.abs x) (Z.abs_nonneg x)).
  pose proof (round_nat_nonneg (Z.abs y) (Z.abs_nonneg y)).
  destruct (Z.sgn_spec x) as [[Hx ->] | [[Hx ->] | [Hx ->]]];
  destruct (Z.sgn_spec y) as [[Hy ->] | [[Hy ->] | [Hy ->]]]; try lia.
  - pose proof (round_nat_mono (Z.abs x) (Z.abs y) (Z.abs_nonneg x)). lia.
  - pose proof (round_nat_mono (Z.abs y) (Z.abs x) (Z.abs_nonneg y)). lia.
Qed.

(** An integer up to [2^53] in magnitude is its own double; the first
    integer above is not, and the tie goes to the even significand. *)
Lemma round_int_exact (z : Z) :
  (Z.abs z <= 2 ^ 53)%Z -> round_int z = z.
Proof.
  intro H. unfold round_int. apply Z.leb_le in H. now rewrite H.
Qed.

(** The column of the single integer [2^53 + 1] reports the minimum
    [2^53], which is not a value of the column. *)
Example min_of_large_integer :
  exists ns,
    _profile_numeric {| pl.name := "id"; pl.dtype := "Int64";
                        pl.cells := [Some (VInt 9007199254740993)] |}
    = Ok ns
    /\ ns_min ns = Some (FRat (Q2Qc (inject_Z 9007199254740992))).
Proof. eexists. split; vm_compute; reflexivity. Qed.

Example round_int_above_2_53 :
  round_int 9007199254740993 = 9007199254740992%Z
  /\ round_int 9007199254740995 = 9007199254740996%Z
  /\ round_int (-9007199254740993) = (-9007199254740992)%Z.
Proof. repeat split; vm_compute; reflexivity. Qed.

Lemma float_of_int_le (x y : Z) :
  (x <= y)%Z -> (float_of_int x <= float_of_int y)%Qc.
Proof.
  intro H. apply round_int_mono in H.
  unfold float_of_int, Qcle. cbn [Q2Qc this].
  rewrite !Qred_correct, <- Zle_Qle. exact H.
Qed.

(** ** Minimum and maximum of a column of integers *)

Definition qkey (v : value) : Qc :=
  match pl.num_of v with
  | Some q => q
  | None => Q2Qc 0
  end.

Definition is_int (v : value) : Prop := exists z, v = VInt z.

(** On [l], the order Polars compares values in agrees with the order of
    the doubles they become. *)
Definition by_number (l : list value) : Prop :=
  forall a b, In a l -> In b l ->
              (pl.value_ltb a b = true -> (qkey a <= qkey b)%Qc)
              /\ (pl.value_ltb a b = false -> (qkey b <= qkey a)%Qc).

Lemma ints_by_number l : Forall is_int l -> by_number l.
Proof.
  intros H a b Ha Hb.
  destruct (proj1 (Forall_forall _ _) H a Ha) as [x ->].
  destruct (proj1 (Forall_forall _ _) H b Hb) as [y ->].
  unfold qkey. cbn [pl.num_of pl.value_ltb]. split; intro E.
  - apply Z.ltb_lt in E. apply float_of_int_le. lia.
  - apply Z.ltb_ge in E. now apply float_of_int_le.
Qed.

Lemma ints_numbers l : Forall is_int l -> Forall is_number l.
Proof.
  intro H. eapply Forall_impl; [|exact H]. intros v [x ->]. discriminate.
Qed.

Lemma least_is_min L : by_number L ->
  forall r x, incl (x :: r) L ->
    forall v, In v (x :: r) -> (qkey (fold_left pl.least r x) <= qkey v)%Qc.
Proof.
  intro HL. induction r as [|y r IH]; intros x Hincl v Hv.
  - destruct Hv as [<- | []]. apply Qcle_refl.
  - simpl.
    assert (Hx : In x L) by (apply Hincl; now left).
    assert (Hy : In y L) by (apply Hincl; right; now left).
    assert (Hpick : (qkey (pl.least x y) <= qkey x)%Qc
                    /\ (qkey (pl.least x y) <= qkey y)%Qc
                    /\ In (pl.least x y) L).
    { unfold pl.least. destruct (pl.value_ltb y x) eqn:E.
      - apply (proj1 (HL y x Hy Hx)) in E.
        split; [exact E|]. split; [apply Qcle_refl | exact Hy].
      - apply (proj2 (HL y x Hy Hx)) in E.
        split; [apply Qcle_refl|]. split; [exact E | exact Hx]. }
    destruct Hpick as (Hlx & Hly & Hin).
    assert (Hincl' : incl (pl.least x y :: r) L).
    { intros z [<- | Hz]; [exact Hin | apply Hincl; right; now right]. }
    pose proof (IH _ Hincl' _ (or_introl eq_refl)) as Hm.
    destruct Hv as [<- | [<- | Hv]].
    + eapply Qcle_trans; eassumption.
    + eapply Qcle_trans; eassumption.
    + apply (IH _ Hincl'). now right.
Qed.

Lemma greatest_is_max L : by_number L ->
  forall r x, incl (x :: r) L ->
    forall v, In v (x :: r) -> (qkey v <= qkey (fold_left pl.greatest r x))%Qc.
Proof.
  intro HL. induction r as [|y r IH]; intros x Hincl v Hv.
  - destruct Hv as [<- | []]. apply Qcle_refl.
  - simpl.
    assert (Hx : In x L) by (apply Hincl; now left).
    assert (Hy : In y L) by (apply Hincl; right; now left).
    assert (Hpick : (qkey x <= qkey (pl.greatest x y))%Qc
                    /\ (qkey y <= qkey (pl.greatest x y))%Qc
                    /\ In (pl.greatest x y) L).
    { unfold pl.greatest. destruct (pl.value_ltb x y) eqn:E.
      - apply (proj1 (HL x y Hx Hy)) in E.
        split; [exact E|]. split; [apply Qcle_refl | exact Hy].
      - apply (proj2 (HL x y Hx Hy)) in E.
        split; [apply Qcle_refl|]. split; [exact E | exact Hx]. }
    destruct Hpick as (Hlx & Hly & Hin).
    assert (Hincl' : incl (pl.greatest x y :: r) L).
    { intros z [<- | Hz]; [exact Hin | apply Hincl; right; now right]. }
    pose proof (IH _ Hincl' _ (or_introl eq_refl)) as Hm.
    destruct Hv as [<- | [<- | Hv]].
    + eapply Qcle_trans; eassumption.
    + eapply Qcle_trans; eassumption.
    + apply (IH _ Hincl'). now right.
Qed.

Lemma nums_In s q :
  In q (pl.nums s) <-> exists v, In v (pl.non_null s) /\ pl.num_of v = Some q.
Proof.
  unfold pl.nums. rewrite in_flat_map. split.
  - intros (v & Hv & Hq). exists v. split; [exact Hv|].
    destruct (pl.num_of v); simpl in Hq; [|contradiction].
    destruct Hq as [<- | []]. reflexivity.
  - intros (v & Hv & Hq). exists v. split; [exact Hv|].
    rewrite Hq. now left.
Qed.

(** The floats [min] and [max] become bound the doubles of the column. *)
Lemma min_max_bound s :
  Forall is_int (pl.non_null s) -> pl.non_null s <> [] ->
  exists qmin qmax,
    float_of_obj (pl.min s) = Ok (FRat qmin)
    /\ float_of_obj (pl.max s) = Ok (FRat qmax)
    /\ forall q, In q (pl.nums s) -> (qmin <= q <= qmax)%Qc.
Proof.
  intros Hh Hne.
  pose proof (ints_by_number _ Hh) as HL.
  destruct (nums_of_numbers s (ints_numbers _ Hh)) as [_ Hin].
  unfold pl.min, pl.max.
  destruct (pl.non_null s) as [|x r] eqn:E; [now contradiction Hne|].
  destruct (Hin (fold_left pl.least r x)) as (qmin & Emin & _ & Fmin);
    [apply fold_pick_In, least_pick|].
  destruct (Hin (fold_left pl.greatest r x)) as (qmax & Emax & _ & Fmax);
    [apply fold_pick_In, greatest_pick|].
  exists qmin, qmax. split; [exact Fmin|]. split; [exact Fmax|].
  intros q Hq. apply nums_In in Hq as (v & Hv & Hvq). rewrite E in Hv.
  pose proof (least_is_min _ HL r x (incl_refl _) v Hv) as H1.
  pose proof (greatest_is_max _ HL r x (incl_refl _) v Hv) as H2.
  unfold qkey in H1, H2. rewrite Emin, Hvq in H1. rewrite Emax, Hvq in H2.
  now split.
Qed.

(** X15. In the numeric block of a column of integers that has rows, the
    five order statistics are in order:
    [min <= p25 <= p50 <= p75 <= max].  (The integers may be too large to
    be doubles: [float] keeps their order.) *)
Theorem numeric_block_ordered s ns :
  Forall is_int (pl.non_null s) -> pl.len s <> 0%nat ->
  _profile_numeric s = Ok ns ->
  exists qmin q25 q50 q75 qmax,
    ns_min ns = Some (FRat qmin)
    /\ ns_p25 ns = Some (FRat q25)
    /\ ns_p50 ns = Some (FRat q50)
    /\ ns_p75 ns = Some (FRat q75)
    /\ ns_max ns = Some (FRat qmax)
    /\ (qmin <= q25)%Qc /\ (q25 <= q50)%Qc
    /\ (q50 <= q75)%Qc /\ (q75 <= qmax)%Qc.
Proof.
  intros Hh Hrows H.
  assert (Hne : pl.non_null s <> []).
  { intro E. rewrite profile_numeric_null_rows in H; [discriminate H | | exact E].
    unfold pl.len in Hrows. intro E'. rewrite E' in Hrows. now apply Hrows. }
  destruct (min_max_bound s Hh Hne) as (qmin & qmax & Emin & Emax & Hbound).
  destruct (nums_of_numbers s (ints_numbers _ Hh)) as [Hlen _].
  pose proof (sorted_nums_sorted (pl.nums s)) as Hsorted.
  assert (Hq : forall q f, pl.quantile q s = Some f ->
                 exists x r,
                   pl.sorted_nums (pl.nums s) = x :: r
                   /\ f = FRat (nth (pl.nearest_rank q (S (List.length r)))
                                  (x :: r) x)).
  { intros q f. unfold pl.quantile.
    destruct (pl.sorted_nums (pl.nums s)) as [|x r]; [discriminate|].
    intro E. injection E as <-. now exists x, r. }
  unfold _profile_numeric in H.
  destruct (pl.len s =? 0)%nat eqn:E0; [apply Nat.eqb_eq in E0; lia|].
  rewrite Emin, Emax in H. cbn [obind] in H.
  destruct (float_of_num (pl.mean s)) as [mean|]; [|discriminate H].
  cbn [obind] in H.
  destruct (if (1 <? pl.len s)%nat then float_of_num (pl.std s)
            else Ok (FRat (Q2Qc 0))) as [sd|]; [|discriminate H].
  cbn [obind] in H.
  destruct (pl.quantile (1 # 4) s) as [f25|] eqn:E25; [|discriminate H].
  destruct (pl.quantile (1 # 2) s) as [f50|] eqn:E50; [|discriminate H].
  destruct (pl.quantile (3 # 4) s) as [f75|] eqn:E75; [|discriminate H].
  cbn [obind float_of_num] in H. injection H as <-.
  destruct (quantile_observed _ _ _ E25) as (q25 & E25' & I25).
  destruct (quantile_observed _ _ _ E75) as (q75 & E75' & I75).
  destruct (Hq _ _ E25) as (x & r & Es & F25).
  destruct (Hq _ _ E50) as (x' & r' & Es' & F50).
  destruct (Hq _ _ E75) as (x'' & r'' & Es'' & F75).
  rewrite Es in Es', Es''. injection Es' as <- <-. injection Es'' as <- <-.
  rewrite Es in Hsorted.
  destruct (quartile_ranks (S (List.length r)) ltac:(lia)) as (R1 & R2 & R3).
  rewrite E25' in F25 |- *. rewrite E75' in F75 |- *. rewrite F50.
  assert (G25 : q25 = nth (pl.nearest_rank (1 # 4) (S (List.length r)))
                          (x :: r) x) by congruence.
  assert (G75 : q75 = nth (pl.nearest_rank (3 # 4) (S (List.length r)))
                          (x :: r) x) by congruence.
  clear F25 F75.
  exists qmin, q25,
         (nth (pl.nearest_rank (1 # 2) (S (List.length r))) (x :: r) x),
         q75, qmax.
  cbn [ns_min ns_max ns_p25 ns_p50 ns_p75].
  split; [reflexivity|]. split; [reflexivity|]. split; [reflexivity|].
  split; [reflexivity|]. split; [reflexivity|].
  split; [apply (proj1 (Hbound q25 I25))|].
  split.
  { rewrite G25. apply (sorted_nth_le (x :: r) x _ _ Hsorted). simpl. lia. }
  split.
  { rewrite G75. apply (sorted_nth_le (x :: r) x _ _ Hsorted). simpl. lia. }
  apply (proj2 (Hbound q75 I75)).
Qed.

Definition readings_column : pl.Series :=
  {| pl.name := "reading"; pl.dtype := "Int64";
     pl.cells := [Some (VInt 7); Some (VInt (-2)); None; Some (VInt 4);
                  Some (VInt 4); Some (VInt 9)] |}.

Lemma numeric_block_ordered_witness :
  exists ns qmin q25 q50 q75 qmax,
    _profile_numeric readings_column = Ok ns
    /\ ns_min ns = Some (FRat qmin)
    /\ ns_p25 ns = Some (FRat q25)
    /\ ns_p50 ns = Some (FRat q50)
    /\ ns_p75 ns = Some (FRat q75)
    /\ ns_max ns = Some (FRat qmax)
    /\ (qmin <= q25)%Qc /\ (q25 <= q50)%Qc
    /\ (q50 <= q75)%Qc /\ (q75 <= qmax)%Qc.
Proof.
  eexists.
  assert (H : forall ns, _profile_numeric readings_column = Ok ns ->
              exists qmin q25 q50 q75 qmax,
                _profile_numeric readings_column = Ok ns
                /\ ns_min ns = Some (FRat qmin)
                /\ ns_p25 ns = Some (FRat q25)
                /\ ns_p50 ns = Some (FRat q50)
                /\ ns_p75 ns = Some (FRat q75)
                /\ ns_max ns = Some (FRat qmax)
                /\ (qmin <= q25)%Qc /\ (q25 <= q50)%Qc
                /\ (q50 <= q75)%Qc /\ (q75 <= qmax)%Qc).
  { intros ns Hns.
    destruct (numeric_block_ordered readings_column ns) as
      (qmin & q25 & q50 & q75 & qmax & Hrest).
    - repeat constructor; eexists; reflexivity.
    - discriminate.
    - exact Hns.
    - exists qmin, q25, q50, q75, qmax. split; [exact Hns | exact Hrest]. }
  apply H. vm_compute. reflexivity.
Defined.


(** * The counts of [top_k] against the rows *)

Fixpoint sum_counts (l : list (cell * nat)) : nat :=
  match l with
  | [] => 0
  | g :: r => snd g + sum_counts r
  end.

(** The counts of a [top_k], added up. *)
Fixpoint count_total (tk : list TopEntry) : Z :=
  match tk with
  | [] => 0
  | e :: r => te_count e + count_total r
  end.

Lemma count_total_entries l :
  count_total (map entry_of_group l) = Z.of_nat (sum_counts l).
Proof. induction l as [|g r IH]; simpl; [reflexivity | rewrite IH; lia]. Qed.

Lemma sum_counts_perm l l' :
  Permutation l l' -> sum_counts l = sum_counts l'.
Proof. induction 1; simpl; lia. Qed.

Lemma sum_counts_firstn n l : (sum_counts (firstn n l) <= sum_counts l)%nat.
Proof.
  revert n; induction l as [|g r IH]; intros [|n]; simpl; try lia.
  specialize (IH n). lia.
Qed.

Lemma sum_counts_head_list n l :
  (sum_counts (head_list n l) <= sum_counts l)%nat.
Proof. unfold head_list. destruct (n <? 0)%Z; apply sum_counts_firstn. Qed.

(** Over distinct values that cover the list, the occurrences add up to
    the length of the list. *)
Lemma sum_occurrences_other (D r : list cell) x :
  ~ In x D ->
  sum_counts (map (fun v => (v, count_occ cell_eq_dec (x :: r) v)) D)
  = sum_counts (map (fun v => (v, count_occ cell_eq_dec r v)) D).
Proof.
  induction D as [|e D IH]; intro Hnot; [reflexivity|].
  cbn [map sum_counts snd].
  rewrite count_occ_cons_neq by (intros ->; apply Hnot; now left).
  rewrite IH; [reflexivity | intro Hin; apply Hnot; now right].
Qed.

Lemma sum_occurrences_step (D r : list cell) x :
  NoDup D -> In x D ->
  sum_counts (map (fun v => (v, count_occ cell_eq_dec (x :: r) v)) D)
  = S (sum_counts (map (fun v => (v, count_occ cell_eq_dec r v)) D)).
Proof.
  intros HD. induction HD as [|d D Hd HD IH]; intro Hx; [contradiction|].
  cbn [map sum_counts snd].
  destruct (cell_eq_dec x d) as [-> | Hne].
  - rewrite count_occ_cons_eq by reflexivity.
    rewrite (sum_occurrences_other D r d Hd). lia.
  - rewrite count_occ_cons_neq by exact Hne.
    destruct Hx as [-> | Hx]; [now contradiction Hne|].
    rewrite (IH Hx). lia.
Qed.

Lemma sum_occurrences (D l : list cell) :
  NoDup D -> incl l D ->
  sum_counts (map (fun v => (v, count_occ cell_eq_dec l v)) D)
  = List.length l.
Proof.
  intros HD. induction l as [|x r IH]; intro Hincl.
  - clear. induction D as [|d D IH]; simpl; [reflexivity | exact IH].
  - rewrite sum_occurrences_step; [|exact HD | apply Hincl; now left].
    rewrite IH; [reflexivity|]. intros y Hy. apply Hincl. now right.
Qed.

Lemma sum_group_counts l : sum_counts (group_counts l) = List.length l.
Proof.
  unfold group_counts. apply sum_occurrences; [apply first_seen_NoDup|].
  intros x Hx. now apply first_seen_In.
Qed.

(** X16. The counts of a categorical block add up to at most the number of
    rows of the column; they add up to exactly that number when the column
    has at most [K] distinct values. *)
Theorem top_k_counts_within_rows run s K cs :
  _profile_categorical run s K = Ok cs ->
  (0 <= count_total (top_k cs) <= Z.of_nat (pl.len s))%Z
  /\ ((Z.of_nat (pl.n_unique s) <= K)%Z ->
      count_total (top_k cs) = Z.of_nat (pl.len s)).
Proof.
  intro H.
  destruct (profile_categorical_ok run s K cs H) as (groups & Hp & _ & ->).
  rewrite count_total_entries.
  pose proof (sum_counts_head_list K groups) as Hle.
  rewrite (sum_counts_perm _ _ Hp), sum_group_counts in Hle.
  fold (pl.len s) in Hle. split; [lia|].
  intro HK. rewrite head_list_all.
  - rewrite (sum_counts_perm _ _ Hp), sum_group_counts. reflexivity.
  - rewrite (Permutation_length Hp). unfold group_counts.
    rewrite length_map. exact HK.
Qed.

Lemma top_k_counts_within_rows_witness :
  exists cs,
    _profile_categorical run_first_seen scenario_C_column 2 = Ok cs
    /\ count_total (top_k cs) = 3%Z
    /\ (0 <= count_total (top_k cs)
        <= Z.of_nat (pl.len scenario_C_column))%Z
    /\ ((Z.of_nat (pl.n_unique scenario_C_column) <= 2)%Z ->
        count_total (top_k cs) = Z.of_nat (pl.len scenario_C_column)).
Proof.
  eexists. split; [vm_compute; reflexivity|]. split; [reflexivity|].
  apply (top_k_counts_within_rows run_first_seen scenario_C_column 2).
  vm_compute. reflexivity.
Defined.
